(** * HTMLPrint plugin (main.py): a shallow embedding and its properties

    Python [str] values are Rocq [string]s whose characters are read as the
    code points 0..255; Python [bytes] are [list byte].  A call that may raise
    returns a [result]; the network, the URL joiner of [urllib.parse], the HTML
    parser and the serializer of BeautifulSoup are collaborators of the plugin
    and enter as section variables.  Python's [re] is embedded as a small
    backtracking matcher, so that the two patterns of the plugin are written
    down as they stand in the source. *)

From Stdlib Require Import Bool Arith Lia ZArith List Ascii String.
From Stdlib Require Strings.Byte.
Import ListNotations.
Set Warnings "-register-all".
Open Scope string_scope.
Open Scope nat_scope.

(* ================================================================== *)
(** ** Python strings *)

Module Py.

(** [s.startswith(p)] *)
Fixpoint startswith (s p : string) {struct p} : bool :=
  match p with
  | EmptyString => true
  | String a p' =>
      match s with
      | String b s' => Ascii.eqb a b && startswith s' p'
      | EmptyString => false
      end
  end.

(** [s.startswith((p1, p2, ...))] *)
Definition startswith_any (s : string) (ps : list string) : bool :=
  existsb (startswith s) ps.

(** [needle in hay] *)
Fixpoint contains (needle hay : string) : bool :=
  if startswith hay needle then true
  else match hay with
       | EmptyString => false
       | String _ hay' => contains needle hay'
       end.

(** Truth value of a string: [if s: ...] *)
Definition truthy (s : string) : bool :=
  match s with EmptyString => false | _ => true end.

(** Truth value of [None]-or-string. *)
Definition truthy_opt (o : option string) : bool :=
  match o with Some s => truthy s | None => false end.

(** [a or b] on None-or-string operands. *)
Definition or_else (a b : option string) : option string :=
  if truthy_opt a then a else b.

Definition code (c : ascii) : nat := nat_of_ascii c.

Definition in_range (lo hi : nat) (c : ascii) : bool :=
  (lo <=? code c) && (code c <=? hi).

(** [c.isspace()], also the class [\s] of [re] on [str] patterns, for the
    code points below 256: TAB..CR, FS..US, SPACE, NEL and NBSP. *)
Definition isspace (c : ascii) : bool :=
  in_range 9 13 c || in_range 28 32 c || (code c =? 133) || (code c =? 160).

(** The class [\d] below 256. *)
Definition isdigit (c : ascii) : bool := in_range 48 57 c.

Definition is_upper (c : ascii) : bool := in_range 65 90 c.
Definition is_lower (c : ascii) : bool := in_range 97 122 c.

(** Lower-casing of the letters A..Z; the other letters below 256 never
    become ASCII, which is all the comparisons of the plugin look at. *)
Definition lower_char (c : ascii) : ascii :=
  if is_upper c then ascii_of_nat (code c + 32) else c.

Fixpoint lower (s : string) : string :=
  match s with
  | EmptyString => EmptyString
  | String c s' => String (lower_char c) (lower s')
  end.

(** [s[i:]] *)
Fixpoint drop (i : nat) (s : string) : string :=
  match i, s with
  | O, _ => s
  | S i', String _ s' => drop i' s'
  | S _, EmptyString => EmptyString
  end.

(** [s[:j]] *)
Fixpoint take (j : nat) (s : string) : string :=
  match j, s with
  | S j', String c s' => String c (take j' s')
  | _, _ => EmptyString
  end.

(** [s[i:j]] for [0 <= i], [0 <= j]. *)
Definition slice (i j : nat) (s : string) : string := take (j - i) (drop i s).

(** [''.join(parts)] *)
Definition concat (parts : list string) : string :=
  fold_right String.append EmptyString parts.

(** [sep.join(parts)] *)
Fixpoint join (sep : string) (parts : list string) : string :=
  match parts with
  | [] => EmptyString
  | [p] => p
  | p :: rest => p ++ sep ++ join sep rest
  end.

(** [s.split()]: the maximal runs of non-whitespace characters.  [cur] is the
    run being read, reversed. *)
Fixpoint split_ws_aux (cur : list ascii) (s : string) : list string :=
  let flush rest :=
    match cur with
    | [] => rest
    | _ => string_of_list_ascii (rev cur) :: rest
    end in
  match s with
  | EmptyString => flush []
  | String c s' =>
      if isspace c then flush (split_ws_aux [] s')
      else split_ws_aux (c :: cur) s'
  end.

Definition split_ws (s : string) : list string := split_ws_aux [] s.

(** [str(n)] for a non-negative integer. *)
Definition digit_char (d : nat) : ascii := ascii_of_nat (48 + d).

Fixpoint str_of_nat_aux (fuel n : nat) (acc : string) : string :=
  match fuel with
  | O => acc
  | S fuel' =>
      let acc' := String (digit_char (n mod 10)) acc in
      if n <? 10 then acc' else str_of_nat_aux fuel' (n / 10) acc'
  end.

Definition str_of_nat (n : nat) : string := str_of_nat_aux (S n) n EmptyString.

End Py.

(* ================================================================== *)
(** ** Python's [re]: a backtracking matcher

    Alternatives are tried left to right and repetitions are greedy, the
    first successful path wins: the search order of [re].  One capturing
    group is enough for the plugin. *)

Module Re.

Inductive regex : Type :=
| Eps
| Chr (p : ascii -> bool)
| Cat (a b : regex)
| Alt (a b : regex)
| Rep (a : regex) (lo : nat) (hi : option nat)
| Grp (a : regex)
| Bos
| Eos.

(** Matcher state: the position, the text still to read, and the span of
    group 1 when it has taken part in the match. *)
Record mstate : Type := MState {
  pos : nat;
  rest : string;
  grp : option (nat * nat)
}.

Section Matcher.
Variable R : Type.

(** A greedy repetition: one more round of [step] is tried first, and it
    must move on in the text; where no round leads to a match the
    repetition stops, provided [lo] rounds were made. *)
Section Repetition.
Variable step : (mstate -> option R) -> mstate -> option R.
Variable k : mstate -> option R.
Variable lo : nat.
Variable hi : option nat.

Fixpoint rep_loop (fuel cnt : nat) (st : mstate) {struct fuel} : option R :=
  let stop := if lo <=? cnt then k st else None in
  match fuel with
  | O => stop
  | S fuel' =>
      let more := match hi with Some h => cnt <? h | None => true end in
      if more then
        match step (fun st' => if pos st <? pos st'
                               then rep_loop fuel' (S cnt) st'
                               else None) st with
        | Some x => Some x
        | None => stop
        end
      else stop
  end.
End Repetition.

Fixpoint run (r : regex) (k : mstate -> option R) (st : mstate) : option R :=
  match r with
  | Eps => k st
  | Chr p =>
      match rest st with
      | String c s' =>
          if p c then k (MState (S (pos st)) s' (grp st)) else None
      | EmptyString => None
      end
  | Cat a b => run a (run b k) st
  | Alt a b =>
      match run a k st with
      | Some x => Some x
      | None => run b k st
      end
  | Grp a =>
      run a (fun st' => k (MState (pos st') (rest st') (Some (pos st, pos st')))) st
  | Bos => if pos st =? 0 then k st else None
  | Eos =>
      (* [$]: at the end, or before a newline that ends the text *)
      match rest st with
      | EmptyString => k st
      | String c EmptyString => if Py.code c =? 10 then k st else None
      | _ => None
      end
  | Rep a lo hi => rep_loop (run a) k lo hi (S (String.length (rest st))) 0 st
  end.
End Matcher.
Arguments rep_loop {R} step k lo hi fuel cnt st.
Arguments run {R} r k st.

(** A match object: [start()], [end()] and the span of group 1. *)
Record match_obj : Type := Match {
  m_start : nat;
  m_end : nat;
  m_grp : option (nat * nat)
}.

(** The pattern tried at position [i], [s] being the text from [i] on. *)
Definition match_at (r : regex) (i : nat) (s : string) : option match_obj :=
  run r (fun st => Some (Match i (pos st) (grp st))) (MState i s None).

(** [pattern.match(s)] *)
Definition match_ (r : regex) (s : string) : option match_obj := match_at r 0 s.

(** [pattern.finditer(s)]: leftmost matches, the scan resuming where the last
    match ended (one character further after an empty match). *)
Fixpoint finditer_from (r : regex) (fuel i : nat) (s : string) : list match_obj :=
  match fuel with
  | O => []
  | S fuel' =>
      match match_at r i s with
      | Some m =>
          if i <? m_end m
          then m :: finditer_from r fuel' (m_end m) (Py.drop (m_end m - i) s)
          else m :: match s with
                    | EmptyString => []
                    | String _ s' => finditer_from r fuel' (S i) s'
                    end
      | None =>
          match s with
          | EmptyString => []
          | String _ s' => finditer_from r fuel' (S i) s'
          end
      end
  end.

Definition finditer (r : regex) (s : string) : list match_obj :=
  finditer_from r (S (String.length s)) 0 s.

(** [m.group(0)] and [m.group(1)] on the text [s] the match was found in. *)
Definition group0 (s : string) (m : match_obj) : string :=
  Py.slice (m_start m) (m_end m) s.

Definition group1 (s : string) (m : match_obj) : option string :=
  match m_grp m with
  | Some (a, b) => Some (Py.slice a b s)
  | None => None
  end.

(** *** Pattern syntax *)

Definition ch (c : ascii) : regex := Chr (Ascii.eqb c).

(** A literal character under [re.IGNORECASE]. *)
Definition chi (c : ascii) : regex :=
  Chr (fun x => Ascii.eqb (Py.lower_char x) (Py.lower_char c)).

Fixpoint lit (s : string) : regex :=
  match s with
  | EmptyString => Eps
  | String c s' => Cat (ch c) (lit s')
  end.

Fixpoint liti (s : string) : regex :=
  match s with
  | EmptyString => Eps
  | String c s' => Cat (chi c) (liti s')
  end.

Definition seq (rs : list regex) : regex := fold_right Cat Eps rs.
Definition opt (a : regex) : regex := Rep a 0 (Some 1).
Definition star (a : regex) : regex := Rep a 0 None.
Definition plus (a : regex) : regex := Rep a 1 None.
Definition rep (a : regex) (lo hi : nat) : regex := Rep a lo (Some hi).

(** [[A-Z]] under [re.IGNORECASE] *)
Definition alpha_i (c : ascii) : bool := Py.is_upper c || Py.is_lower c.
(** [[A-Z0-9]] under [re.IGNORECASE] *)
Definition alnum_i (c : ascii) : bool := alpha_i c || Py.isdigit c.
(** [[A-Z0-9-]] under [re.IGNORECASE] *)
Definition alnum_dash_i (c : ascii) : bool := alnum_i c || Ascii.eqb c "-".
(** [\S] *)
Definition nonspace (c : ascii) : bool := negb (Py.isspace c).

End Re.

(* ================================================================== *)
(** ** URL handling *)

(** [url.startswith(('http://', 'https://'))] *)
Definition has_scheme (url : string) : bool :=
  Py.startswith_any url ["http://"; "https://"].

(** The prefix step, written out in [html_command] (lines 54-55) and again
    in [is_valid_url] (line 618):
    [url if url.startswith(('http://', 'https://')) else 'https://' + url] *)
Definition normalize (url : string) : string :=
  if has_scheme url then url else "https://" ++ url.

(** The pattern of [is_valid_url], compiled with [re.IGNORECASE]. *)
Definition url_pattern_valid : Re.regex :=
  let label :=
    Re.seq [Re.Chr Re.alnum_i;
            Re.opt (Re.seq [Re.rep (Re.Chr Re.alnum_dash_i) 0 61; Re.Chr Re.alnum_i]);
            Re.ch "."] in
  let domain := Re.seq [Re.plus label; Re.rep (Re.Chr Re.alpha_i) 2 6; Re.opt (Re.ch ".")] in
  let octet := Re.rep (Re.Chr Py.isdigit) 1 3 in
  let ip := Re.seq [octet; Re.ch "."; octet; Re.ch "."; octet; Re.ch "."; octet] in
  let host := Re.Alt domain (Re.Alt (Re.liti "localhost") ip) in
  let port := Re.opt (Re.seq [Re.ch ":"; Re.plus (Re.Chr Py.isdigit)]) in
  let tail :=
    Re.Alt (Re.opt (Re.ch "/"))
           (Re.seq [Re.Chr (fun c => Ascii.eqb c "/" || Ascii.eqb c "?");
                    Re.plus (Re.Chr Re.nonspace)]) in
  Re.seq [Re.Bos; Re.liti "http"; Re.opt (Re.chi "s"); Re.lit "://";
          host; port; tail; Re.Eos].

(** [is_valid_url] returns the match object or [None]; callers test its
    truth value. *)
Definition is_valid_url_match (url : string) : option Re.match_obj :=
  let test_url := normalize url in
  Re.match_ url_pattern_valid test_url.

Definition is_valid_url (url : string) : bool :=
  match is_valid_url_match url with Some _ => true | None => false end.

(* ================================================================== *)
(** ** Bytes, base64 and paths *)

Definition bytes : Type := list Byte.byte.

Module Base64.

Definition alphabet : list ascii :=
  list_ascii_of_string
    "ABCDEFGHIJKLMNOPQRSTUVWXYZabcdefghijklmnopqrstuvwxyz0123456789+/".

Definition sextet (n : N) : ascii :=
  nth (N.to_nat (N.modulo n 64)) alphabet "A"%char.

Definition pad : ascii := "="%char.

(** The 24-bit group of up to three bytes. *)
Definition group24 (a b c : Byte.byte) : N :=
  (Byte.to_N a * 65536 + Byte.to_N b * 256 + Byte.to_N c)%N.

(** [base64.b64encode(content).decode('utf-8')] *)
Fixpoint b64encode (bs : bytes) : string :=
  match bs with
  | [] => EmptyString
  | [a] =>
      let n := group24 a Byte.x00 Byte.x00 in
      String (sextet (n / 262144)) (String (sextet (n / 4096))
        (String pad (String pad EmptyString)))
  | [a; b] =>
      let n := group24 a b Byte.x00 in
      String (sextet (n / 262144)) (String (sextet (n / 4096))
        (String (sextet (n / 64)) (String pad EmptyString)))
  | a :: b :: c :: bs' =>
      let n := group24 a b c in
      String (sextet (n / 262144)) (String (sextet (n / 4096))
        (String (sextet (n / 64)) (String (sextet n) (b64encode bs'))))
  end.

End Base64.

Module Path.

Fixpoint rfind_aux (c : ascii) (s : string) (i : nat) (last : option nat) : option nat :=
  match s with
  | EmptyString => last
  | String x s' => rfind_aux c s' (S i) (if Ascii.eqb x c then Some i else last)
  end.

(** [s.rfind(c)], [None] standing for -1. *)
Definition rfind (c : ascii) (s : string) : option nat := rfind_aux c s 0 None.

Fixpoint endswith_char (c : ascii) (s : string) : bool :=
  match s with
  | EmptyString => false
  | String x EmptyString => Ascii.eqb x c
  | String _ s' => endswith_char c s'
  end.

(** [os.path.join(a, b)] (posixpath). *)
Definition join (a b : string) : string :=
  if Py.startswith b "/" then b
  else if negb (Py.truthy a) || endswith_char "/" a then a ++ b
  else a ++ "/" ++ b.

(** [os.path.splitext(p)] (posixpath): the extension starts at the last dot
    of the last component, leading dots of that component not counting. *)
Definition splitext (p : string) : string * string :=
  match rfind "." p with
  | None => (p, EmptyString)
  | Some dotIndex =>
      let filenameIndex := match rfind "/" p with Some i => S i | None => 0 end in
      if filenameIndex <=? dotIndex then
        if existsb (fun c => negb (Ascii.eqb c "."))
                   (list_ascii_of_string (Py.slice filenameIndex dotIndex p))
        then (Py.take dotIndex p, Py.drop dotIndex p)
        else (p, EmptyString)
      else (p, EmptyString)
  end.

End Path.

(* ================================================================== *)
(** ** Results, the document tree, the collaborators *)

(** A call returns or raises; the plugin only logs what was raised. *)
Inductive result (A : Type) : Type :=
| Ok (a : A)
| Raised.
Arguments Ok {A} a.
Arguments Raised {A}.

Definition attrs : Type := list (string * string).

(** [tag.get(k)] *)
Fixpoint attr_get (a : attrs) (k : string) : option string :=
  match a with
  | [] => None
  | (k', v) :: a' => if String.eqb k' k then Some v else attr_get a' k
  end.

(** [tag[k] = v]: a present key keeps its place. *)
Fixpoint attr_set (a : attrs) (k v : string) : attrs :=
  match a with
  | [] => [(k, v)]
  | (k', v') :: a' =>
      if String.eqb k' k then (k, v) :: a' else (k', v') :: attr_set a' k v
  end.

(** The BeautifulSoup tree: strings, comments (and the like, which
    [get_text] leaves out) and tags. *)
Inductive node : Type :=
| Text (s : string)
| Comment (s : string)
| Tag (name : string) (a : attrs) (contents : list node).

(** The soup object, by the children of its root. *)
Definition soup : Type := list node.

Definition is_tag (n : node) : bool :=
  match n with Tag _ _ _ => true | _ => false end.

(** [find_all]: the matching tags in document order. *)
Fixpoint find_all_in (sel : string -> attrs -> bool) (n : node) : list node :=
  match n with
  | Tag name a cs =>
      ((if sel name a then [n] else []) ++ flat_map (find_all_in sel) cs)%list
  | _ => []
  end.

Definition find_all (sel : string -> attrs -> bool) (s : soup) : list node :=
  flat_map (find_all_in sel) s.

Definition named (name : string) : string -> attrs -> bool :=
  fun n _ => String.eqb n name.

(** [find(name)]: the first match or [None]. *)
Definition find (name : string) (s : soup) : option node :=
  hd_error (find_all (named name) s).

(** [get_text()] *)
Fixpoint get_text_of (n : node) : string :=
  match n with
  | Text s => s
  | Comment _ => EmptyString
  | Tag _ _ cs => Py.concat (map get_text_of cs)
  end.

Definition get_text (s : soup) : string := Py.concat (map get_text_of s).

(** [for t in soup(names): t.decompose()]: every tag with one of the names
    is destroyed with all it contains. *)
Fixpoint decompose_in (names : list string) (n : node) : list node :=
  match n with
  | Tag name a cs =>
      if existsb (String.eqb name) names then []
      else [Tag name a (flat_map (decompose_in names) cs)]
  | _ => [n]
  end.

Definition decompose_all (names : list string) (s : soup) : soup :=
  flat_map (decompose_in names) s.

(** An HTTP response as the plugin reads it: the status, the Content-Type
    header when present, the body of [read()] and the result of [text()]. *)
Record response : Type := Response {
  status : nat;
  content_type : option string;
  content : bytes;
  text : result string
}.

(** What [with open(path, 'wb') as f: f.write(content)] does: the file is
    written; or [open] raises and no file appears; or [write] raises and the
    file is left with what had been written. *)
Inductive write_result : Type :=
| Written
| NotOpened
| Truncated (kept : bytes).

(** What the plugin calls and does not define. *)
Record Collab : Type := {
  (** [BeautifulSoup(html, 'html.parser')] *)
  parse : string -> result soup;
  (** [str(soup)] *)
  serialize : soup -> string;
  (** [urllib.parse.urljoin(base, ref)], which raises on a malformed URL *)
  urljoin : string -> string -> result string;
  (** [urllib.parse.urlparse(url).path] *)
  urlparse_path : string -> string;
  (** [session.get(url, headers, timeout)]: the URL, the Referer header and
      the timeout in seconds; any exception while getting or reading is
      [Raised] *)
  http_get : string -> string -> nat -> result response;
  (** [open(path, 'wb')] and [f.write(content)] of lines 344-345 *)
  file_write : string -> bytes -> write_result;
  (** [fetch_html_with_browser(url)]: the rendered HTML, [None] on failure *)
  render : string -> option string
}.

(* ================================================================== *)
(** ** The CSS URL rewriter: [process_css_urls] *)

Section Css.
Variable E : Collab.

Definition dquote : ascii := "034"%char.
Definition squote : ascii := "'"%char.

(** The pattern [url\s*\(\s*Q?([^Q()]+)Q?\s*\)] compiled with
    [re.IGNORECASE], [Q] standing for the class of the two quotation
    marks. *)
Definition url_pattern : Re.regex :=
  let ws := Re.star (Re.Chr Py.isspace) in
  let quote := Re.opt (Re.Chr (fun c => Ascii.eqb c dquote || Ascii.eqb c squote)) in
  let inner :=
    Re.Chr (fun c => negb (Ascii.eqb c dquote || Ascii.eqb c squote
                           || Ascii.eqb c "(" || Ascii.eqb c ")")) in
  Re.seq [Re.liti "url"; ws; Re.ch "("; ws; quote;
          Re.Grp (Re.plus inner); quote; ws; Re.ch ")"].

(** [f"url(data:{content_type};base64,{content_base64})"] *)
Definition css_data_url (content_type : string) (body : bytes) : string :=
  "url(data:" ++ content_type ++ ";base64," ++ Base64.b64encode body ++ ")".

(** The coroutine [replace_url(match)]; [None] is Python's [None], which
    the function returns when the status is not 200. *)
Definition replace_url (css_content css_url referer : string) (m : Re.match_obj)
  : option string :=
  let whole := Re.group0 css_content m in
  match Re.group1 css_content m with
  | None => Some whole
  | Some url =>
      if negb (Py.truthy url) then Some whole
      else if Py.startswith_any url ["data:"; "http://"; "https://"] then Some whole
      else
        match urljoin E css_url url with
        | Raised => Some whole
        | Ok full_url =>
            match http_get E full_url referer 5 with
            | Raised => Some whole
            | Ok resp =>
                if status resp =? 200 then
                  let ctype :=
                    match content_type resp with
                    | Some t => t
                    | None => "application/octet-stream"
                    end in
                  Some (css_data_url ctype (content resp))
                else None
            end
        end
  end.

(** The rebuilding loop: the pieces appended to [new_css], from [last_pos]. *)
Fixpoint rebuild (css_content : string) (last_pos : nat)
         (ms : list (Re.match_obj * string)) : list string :=
  match ms with
  | [] => [Py.drop last_pos css_content]
  | (m, r) :: ms' =>
      Py.slice last_pos (Re.m_start m) css_content
        :: r :: rebuild css_content (Re.m_end m) ms'
  end.

Definition process_css_urls (css_content css_url referer : string) : string :=
  let matches := Re.finditer url_pattern css_content in
  match matches with
  | [] => css_content
  | _ =>
      let replacements :=
        map (fun m => match replace_url css_content css_url referer m with
                      | Some r => r
                      | None => Re.group0 css_content m
                      end) matches in
      Py.concat (rebuild css_content 0 (combine matches replacements))
  end.
End Css.

(* ================================================================== *)
(** ** The inliner: [download_resources_and_update_html] *)

(** The files written so far, latest first. *)
Definition disk : Type := list (string * bytes).

Fixpoint read_file (d : disk) (path : string) : option bytes :=
  match d with
  | [] => None
  | (p, b) :: d' => if String.eqb p path then Some b else read_file d' path
  end.

Definition write_file (d : disk) (path : string) (b : bytes) : disk := (path, b) :: d.

(** What the function has in hand while it runs: the files, the list
    [downloaded_images] and the index that [enumerate] gives the next image
    tag. *)
Record state : Type := State {
  files : disk;
  downloaded_images : list (string * string);
  img_index : nat
}.

(** A computation that reads and changes the state and returns or raises. *)
Definition M (A : Type) : Type := state -> result A * state.

Definition ret {A : Type} (a : A) : M A := fun st => (Ok a, st).

Definition raise {A : Type} : M A := fun st => (Raised, st).

Definition bind {A B : Type} (m : M A) (f : A -> M B) : M B :=
  fun st =>
    match m st with
    | (Ok a, st') => f a st'
    | (Raised, st') => (Raised, st')
    end.

Definition lift {A : Type} (r : result A) : M A :=
  fun st => (r, st).

Notation "x <- m ;; k" := (bind m (fun x => k))
  (at level 61, m at next level, right associativity).

Section MapM.
Context {A B : Type}.
Variable f : A -> M B.

Fixpoint mapM (l : list A) : M (list B) :=
  match l with
  | [] => ret []
  | x :: l' => y <- f x ;; ys <- mapM l' ;; ret (y :: ys)
  end.
End MapM.

(** What a loop body does to the tag it was handed. *)
Inductive edit : Type :=
| Leave
| SetAttrs (a : attrs)
| ReplaceWith (n : node).

Section ForEach.
(** The filter of [find_all] and the body of the [for] loop. *)
Variable sel : string -> attrs -> bool.
Variable body : attrs -> M edit.

(** [for tag in soup.find_all(...): body]: the selected tags are met in
    document order.  What a replaced tag contained leaves the tree with it;
    [html.parser] gives a link no contents and a script only text, so the
    loop has nothing to meet there. *)
Fixpoint visit (n : node) : M node :=
  match n with
  | Tag name a cs =>
      if sel name a then
        e <- body a ;;
        match e with
        | Leave => cs' <- mapM visit cs ;; ret (Tag name a cs')
        | SetAttrs a' => cs' <- mapM visit cs ;; ret (Tag name a' cs')
        | ReplaceWith n' => ret n'
        end
      else cs' <- mapM visit cs ;; ret (Tag name a cs')
  | _ => ret n
  end.

Definition for_each (s : soup) : M soup := mapM visit s.
End ForEach.

Section Inliner.
Variable E : Collab.
Variable base_url : string.

(** Lines 315-339: the extension of the saved file and the MIME type. *)
Definition sniff_image (ctype img_url : string) : string * string :=
  if Py.contains "png" ctype then (".png", "image/png")
  else if Py.contains "gif" ctype then (".gif", "image/gif")
  else if Py.contains "webp" ctype then (".webp", "image/webp")
  else
    let path_ext := snd (Path.splitext (urlparse_path E img_url)) in
    if Py.truthy path_ext then
      let ext := path_ext in
      if String.eqb (Py.lower ext) ".png" then (ext, "image/png")
      else if String.eqb (Py.lower ext) ".gif" then (ext, "image/gif")
      else if String.eqb (Py.lower ext) ".webp" then (ext, "image/webp")
      else (ext, "image/jpeg")
    else (".jpg", "image/jpeg").

(** [f"data:{mime_type};base64,{img_base64}"] *)
Definition data_uri (mime_type : string) (body : bytes) : string :=
  "data:" ++ mime_type ++ ";base64," ++ Base64.b64encode body.

(** [img.get('src') or img.get('data-src') or img.get('data-lazy-src')] *)
Definition img_source (a : attrs) : option string :=
  Py.or_else (Py.or_else (attr_get a "src") (attr_get a "data-src"))
             (attr_get a "data-lazy-src").

(** Pass 1, the body of [for idx, img in enumerate(img_tags)].  The file is
    written inside the [try] of line 311, before [img['src']] is set and the
    pair appended: when [open] or [write] raises, the [except] of line 354
    leaves the tag and the list as they were. *)
Definition img_body (images_dir : string) (a : attrs) : M edit :=
  fun st =>
    let idx := img_index st in
    let st := State (files st) (downloaded_images st) (S idx) in
    match img_source a with
    | None => (Ok Leave, st)
    | Some ref =>
        if negb (Py.truthy ref) then (Ok Leave, st)
        else
          match urljoin E base_url ref with
          | Raised => (Raised, st)
          | Ok img_url =>
              match http_get E img_url base_url 10 with
              | Raised => (Ok Leave, st)
              | Ok resp =>
                  if status resp =? 200 then
                    let ctype :=
                      match content_type resp with
                      | Some t => t
                      | None => "image/jpeg"
                      end in
                    let (ext, mime_type) := sniff_image ctype img_url in
                    let img_filename := "img_" ++ Py.str_of_nat idx ++ ext in
                    let img_path := Path.join images_dir img_filename in
                    match file_write E img_path (content resp) with
                    | Written =>
                        (Ok (SetAttrs (attr_set a "src" (data_uri mime_type (content resp)))),
                         State (write_file (files st) img_path (content resp))
                               (downloaded_images st ++ [(img_path, img_url)])%list
                               (img_index st))
                    | NotOpened => (Ok Leave, st)
                    | Truncated kept =>
                        (Ok Leave,
                         State (write_file (files st) img_path kept)
                               (downloaded_images st) (img_index st))
                    end
                  else (Ok Leave, st)
              end
          end
    end.

(** [find_all('link', rel='stylesheet')]: [rel] is a list of words. *)
Definition is_stylesheet_link (name : string) (a : attrs) : bool :=
  String.eqb name "link" &&
  match attr_get a "rel" with
  | Some v => existsb (String.eqb "stylesheet") (Py.split_ws v)
  | None => false
  end.

(** Pass 2, the body of [for link in link_tags]. *)
Definition link_body (a : attrs) : M edit :=
  match attr_get a "href" with
  | None => ret Leave
  | Some ref =>
      if negb (Py.truthy ref) then ret Leave
      else
        css_url <- lift (urljoin E base_url ref) ;;
        match http_get E css_url base_url 10 with
        | Raised => ret Leave
        | Ok resp =>
            if status resp =? 200 then
              match text resp with
              | Raised => ret Leave
              | Ok css_content =>
                  if negb (Py.truthy css_content) then ret Leave
                  else
                    let css_content := process_css_urls E css_content css_url base_url in
                    if Py.truthy css_content
                    then ret (ReplaceWith (Tag "style" [] [Text css_content]))
                    else ret Leave
              end
            else ret Leave
        end
  end.

(** [find_all('script', src=True)] *)
Definition is_src_script (name : string) (a : attrs) : bool :=
  String.eqb name "script" &&
  match attr_get a "src" with Some _ => true | None => false end.

(** Pass 3, the body of [for script in script_tags]. *)
Definition script_body (a : attrs) : M edit :=
  match attr_get a "src" with
  | None => ret Leave
  | Some ref =>
      if negb (Py.truthy ref) then ret Leave
      else if Py.startswith_any ref ["data:"; "javascript:"] then ret Leave
      else
        js_url <- lift (urljoin E base_url ref) ;;
        match http_get E js_url base_url 10 with
        | Raised => ret Leave
        | Ok resp =>
            if status resp =? 200 then
              match text resp with
              | Raised => ret Leave
              | Ok js_content =>
                  let kept := filter (fun kv => negb (String.eqb (fst kv) "src")) a in
                  ret (ReplaceWith (Tag "script" kept [Text js_content]))
              end
            else ret Leave
        end
  end.

(** The three passes over the parsed tree (lines 301-432). *)
Definition inline_soup (page_dir : string) (s : soup) : M soup :=
  let images_dir := Path.join page_dir "images" in
  s <- for_each (named "img") (img_body images_dir) s ;;
  s <- for_each is_stylesheet_link link_body s ;;
  for_each is_src_script script_body s.

(** The body of the outer [try]: parse, run the passes, serialize. *)
Definition inline_document (html_content page_dir : string)
  : M (string * list (string * string)) :=
  s <- lift (parse E html_content) ;;
  s <- inline_soup page_dir s ;;
  fun st => (Ok (serialize E s, downloaded_images st), st).

(** The function with its outer [except]: the pair it returns and the
    files it leaves. *)
Definition download_resources_and_update_html
           (html_content page_dir : string) (d : disk)
  : (string * list (string * string)) * disk :=
  match inline_document html_content page_dir (State d [] 0) with
  | (Ok r, st) => (r, files st)
  | (Raised, st) => ((html_content, []), files st)
  end.
End Inliner.

(* ================================================================== *)
(** ** The emptiness heuristic and the adoption of the rendered page *)

(** [' '.join(text.split())] *)
Definition collapse (t : string) : string := Py.join " " (Py.split_ws t).

(** [is_likely_empty_page] once the page is parsed. *)
Definition is_likely_empty_soup (s : soup) : bool :=
  let s := decompose_all ["script"; "style"; "noscript"] s in
  let t := collapse (get_text s) in
  if String.length t <? 100 then true
  else
    let body_rule :=
      match find "body" s with
      | Some body => String.length (collapse (get_text_of body)) <? 50
      | None => false
      end in
    if body_rule then true
    else
      let scripts := find_all (named "script") s in
      if 5 <? List.length scripts then
        if String.length t <? 200 then true else false
      else false.

Definition is_likely_empty_page (E : Collab) (html_content : string) : result bool :=
  if negb (Py.truthy html_content) then Ok true
  else
    match parse E html_content with
    | Ok s => Ok (is_likely_empty_soup s)
    | Raised => Raised
    end.

(** Lines 70-75 of [html_command]; [len(b) > len(h) * 1.5] is compared as
    [2 * len(b) > 3 * len(h)]. *)
Definition adopt_rendered (html_content : string) (browser_html : option string) : string :=
  match browser_html with
  | Some b =>
      if Py.truthy b && (3 * String.length html_content <? 2 * String.length b) then b
      else if Py.truthy b then b
      else html_content
  | None => html_content
  end.

(** Lines 66-75: the page that goes on to the inliner. *)
Definition choose_html (E : Collab) (url html_content : string) : result string :=
  match is_likely_empty_page E html_content with
  | Ok true => Ok (adopt_rendered html_content (render E url))
  | Ok false => Ok html_content
  | Raised => Raised
  end.

(* ================================================================== *)
(** ** The retention sweep: [cleanup_old_files] *)

Module Sweep.

Open Scope Z_scope.

(** What [os.path.isfile] and [os.path.isdir] say of a child. *)
Inductive kind : Type := RegularFile | Directory | Neither.

(** A child of the save directory: its name, its kind, what
    [os.path.getmtime] gives (seconds) and whether [os.remove] or
    [shutil.rmtree] gets rid of it or raises. *)
Record child : Type := Child {
  c_name : string;
  c_kind : kind;
  c_mtime : result Z;
  c_removable : bool
}.

(** [timedelta(hours=1)] in seconds. *)
Definition one_hour : Z := 3600.

(** The body of the inner [try] for one child: whether the child was
    deleted, or the exception of [getmtime], [os.remove] or [shutil.rmtree]. *)
Definition process_child (one_hour_ago : Z) (c : child) : result bool :=
  match c_kind c with
  | RegularFile | Directory =>
      match c_mtime c with
      | Ok modified_time =>
          if modified_time <? one_hour_ago
          then (if c_removable c then Ok true else Raised)
          else Ok false
      | Raised => Raised
      end
  | Neither => Ok false
  end.

(** [for item_name in os.listdir(self.save_dir)] with its [try]: the children
    that are left.  The [except] logs and the loop goes on. *)
Fixpoint sweep_children (one_hour_ago : Z) (cs : list child) : list child :=
  match cs with
  | [] => []
  | c :: cs' =>
      match process_child one_hour_ago c with
      | Ok true => sweep_children one_hour_ago cs'
      | Ok false => c :: sweep_children one_hour_ago cs'
      | Raised => c :: sweep_children one_hour_ago cs'
      end
  end.

(** The save directory: [None] when it does not exist, else what
    [os.listdir] gives or that it raises. *)
Definition save_dir : Type := option (result (list child)).

(** The body of the outer [try] at clock reading [current_time]. *)
Definition sweep_cycle (current_time : Z) (d : save_dir) : save_dir :=
  let one_hour_ago := current_time - one_hour in
  match d with
  | Some (Ok children) => Some (Ok (sweep_children one_hour_ago children))
  | Some Raised => d
  | None => d
  end.

(** The task between two turns of [while True]: the clock and the
    directory. *)
Record task : Type := Task {
  clock : Z;
  dir : save_dir
}.

(** [asyncio.sleep(1800)], in both branches of the [try]. *)
Definition interval : Z := 1800.

(** One turn of [while True]. *)
Definition turn (t : task) : task :=
  Task (clock t + interval) (sweep_cycle (clock t) (dir t)).

(** [n] turns of the loop, which has no exit. *)
Fixpoint turns (n : nat) (t : task) : task :=
  match n with
  | O => t
  | S n' => turns n' (turn t)
  end.

End Sweep.

(* ================================================================== *)
(** ** A worked instance of the collaborators *)

Module Demo.

Definition png_bytes : bytes := [Byte.x89; Byte.x50; Byte.x4e; Byte.x47].

Definition site : string := "https://site.test/".

(** Relative references are appended to the site root; a reference with an
    unclosed bracket raises, as [urljoin] does on [http://[]. *)
Definition demo_urljoin (base ref : string) : result string :=
  if Py.contains "[" ref then Raised
  else if has_scheme ref then Ok ref
  else Ok (site ++ ref).

Definition demo_css : string :=
  "a{background:url(bg.png)} b{src:url('font.woff')} c{x:url(https://cdn.test/i.gif)}".

Definition demo_http (url referer : string) (timeout : nat) : result response :=
  if String.eqb url "https://site.test/logo.png"
  then Ok (Response 200 (Some "image/png") png_bytes Raised)
  else if String.eqb url "https://site.test/bg.png"
  then Ok (Response 200 (Some "image/png") png_bytes Raised)
  else if String.eqb url "https://site.test/main.css"
  then Ok (Response 200 (Some "text/css") [] (Ok demo_css))
  else if String.eqb url "https://site.test/empty.css"
  then Ok (Response 200 (Some "text/css") [] (Ok EmptyString))
  else if String.eqb url "https://site.test/app.js"
  then Ok (Response 200 (Some "text/javascript") [] (Ok "run()"))
  else if String.eqb url "https://site.test/gone.css"
  then Ok (Response 404 None [] (Ok "not found"))
  else Raised.

Definition page : soup :=
  [Tag "html" []
     [Tag "head" []
        [Tag "link" [("rel", "stylesheet"); ("href", "main.css")] [];
         Tag "link" [("rel", "stylesheet"); ("href", "empty.css")] [];
         Tag "link" [("rel", "stylesheet"); ("href", "gone.css")] [];
         Tag "script" [("src", "app.js"); ("defer", "")] []];
      Tag "body" []
        [Tag "img" [("src", "logo.png"); ("alt", "logo")] [];
         Tag "img" [("src", "missing.png")] [];
         Text "hello"]]].

(** A page with a single image. *)
Definition one_image_page : soup :=
  [Tag "html" []
     [Tag "body" []
        [Tag "p" [] [Text "logo: "; Tag "img" [("src", "logo.png"); ("alt", "logo")] []];
         Tag "link" [("rel", "stylesheet"); ("href", "gone.css")] []]]].

(** A page with an image and a stylesheet link whose reference cannot
    be resolved. *)
Definition image_and_bad_link : soup :=
  [Tag "html" []
     [Tag "body" []
        [Tag "img" [("src", "logo.png"); ("alt", "logo")] [];
         Tag "link" [("rel", "stylesheet"); ("href", "//[")] []]]].

(** A page with an image and a script whose source cannot be resolved. *)
Definition image_and_bad_script : soup :=
  [Tag "html" []
     [Tag "body" []
        [Tag "img" [("src", "logo.png"); ("alt", "logo")] [];
         Tag "script" [("src", "http://[")] []]]].

(** A plain serializer: every tag with its attributes in order and a
    closing tag. *)
Definition show_attr (kv : string * string) : string :=
  " " ++ fst kv ++ "=" ++ String dquote (snd kv ++ String dquote EmptyString).

Fixpoint to_html (n : node) : string :=
  match n with
  | Text t => t
  | Comment t => "<!--" ++ t ++ "-->"
  | Tag name a cs =>
      "<" ++ name ++ Py.concat (map show_attr a) ++ ">"
          ++ Py.concat (map to_html cs) ++ "</" ++ name ++ ">"
  end.

Definition demo : Collab := {|
  parse := fun html =>
             if String.eqb html "<broken" then Raised
             else if String.eqb html "<one image>" then Ok one_image_page
             else if String.eqb html "<image, bad link>" then Ok image_and_bad_link
             else if String.eqb html "<image, bad script>" then Ok image_and_bad_script
             else Ok page;
  serialize := fun s => Py.concat (map to_html s);
  urljoin := demo_urljoin;
  urlparse_path := fun url => Py.drop 17 url;
  http_get := demo_http;
  file_write := fun path content => Written;
  render := fun url => Some "<html><body>rendered</body></html>"
|}.

(** The same collaborators on a file system that refuses every file. *)
Definition read_only : Collab := {|
  parse := parse demo;
  serialize := serialize demo;
  urljoin := urljoin demo;
  urlparse_path := urlparse_path demo;
  http_get := http_get demo;
  file_write := fun path content => NotOpened;
  render := render demo
|}.

End Demo.


(** The page of the third example of the heuristic: 150 characters of
    visible text and six script tags, as [html.parser] builds it. *)
Module SixScripts.

Definition prose : string :=
  "Lorem ipsum dolor sit amet, consectetur adipiscing elit, sed do eiusmod tempor incididunt ut labore et dolore magna aliqua. Ut enim ad minim veniam, q".

Definition script_tag : node := Tag "script" [] [Text "boot()"].

Definition page : soup :=
  [Tag "html" []
     [Tag "head" [] [];
      Tag "body" []
        [Tag "p" [] [Text prose];
         script_tag; script_tag; script_tag; script_tag; script_tag; script_tag]]].

End SixScripts.

(* ================================================================== *)
(** * Properties *)

(** ** URL normalization and validation *)

Lemma has_scheme_normalize (x : string) : has_scheme (normalize x) = true.
Proof.
  unfold normalize.
  destruct (has_scheme x) eqn:Hx; [exact Hx | reflexivity].
Qed.

(** C10: a URL without the [http://] or [https://] prefix gets [https://]
    in front, and normalizing twice is normalizing once. *)
Theorem normalize_prepends_and_is_idempotent (x : string) :
  (has_scheme x = false ->
   normalize x = "https://" ++ x /\ has_scheme (normalize x) = true)
  /\ normalize (normalize x) = normalize x.
Proof.
  split.
  - intros Hx. split.
    + unfold normalize. now rewrite Hx.
    + apply has_scheme_normalize.
  - unfold normalize at 1. now rewrite has_scheme_normalize.
Qed.

Lemma normalize_example :
  has_scheme "example.com" = false
  /\ normalize "example.com" = "https://example.com"
  /\ normalize (normalize "example.com") = normalize "example.com".
Proof.
  destruct (normalize_prepends_and_is_idempotent "example.com") as [H1 H2].
  split; [reflexivity | split].
  - exact (proj1 (H1 eq_refl)).
  - exact H2.
Defined.

(** C5, as the pattern decides it: the two well-formed examples pass, the
    text with blanks fails, and [256.256.256.256] passes, the address branch
    asking for one to three digits in each group and nothing more. *)
Theorem is_valid_url_examples :
  is_valid_url "example.com/path" = true
  /\ is_valid_url "http://localhost:8080" = true
  /\ is_valid_url "not a url at all" = false
  /\ is_valid_url "http://256.256.256.256" = true.
Proof. vm_compute. repeat split. Qed.

(** C5 as stated asks [false] of [http://256.256.256.256]. *)
Lemma is_valid_url_accepts_256 :
  is_valid_url "http://256.256.256.256" <> false.
Proof. vm_compute. discriminate. Qed.

(** ** Adoption of the rendered page *)

Lemma truthy_nonempty (s : string) : s <> EmptyString -> Py.truthy s = true.
Proof. destruct s; [congruence | reflexivity]. Qed.

Lemma adopt_rendered_some (h b : string) :
  b <> EmptyString -> adopt_rendered h (Some b) = b.
Proof.
  intros Hb. unfold adopt_rendered. rewrite (truthy_nonempty b Hb).
  now destruct (_ <? _).
Qed.

(** C6: when the heuristic fires, rendered HTML is adopted whether or not
    it is more than 1.5 times as long as the fetched page, and the fetched
    page is kept when the browser gives nothing. *)
Theorem rendered_html_is_adopted (E : Collab) (url html : string) :
  is_likely_empty_page E html = Ok true ->
  (forall b, render E url = Some b -> b <> EmptyString ->
             3 * String.length html < 2 * String.length b ->
             choose_html E url html = Ok b)
  /\ (forall b, render E url = Some b -> b <> EmptyString ->
                2 * String.length b <= 3 * String.length html ->
                choose_html E url html = Ok b)
  /\ (render E url = None \/ render E url = Some EmptyString ->
      choose_html E url html = Ok html).
Proof.
  intros Hempty. unfold choose_html. rewrite Hempty.
  repeat split.
  - intros b Hr Hb _. now rewrite Hr, adopt_rendered_some.
  - intros b Hr Hb _. now rewrite Hr, adopt_rendered_some.
  - intros [Hr | Hr]; now rewrite Hr.
Qed.

Lemma rendered_html_is_adopted_example :
  is_likely_empty_page Demo.demo EmptyString = Ok true
  /\ choose_html Demo.demo "https://site.test/" EmptyString
     = Ok "<html><body>rendered</body></html>".
Proof.
  split; [reflexivity |].
  destruct (rendered_html_is_adopted Demo.demo "https://site.test/" EmptyString eq_refl)
    as [Hlong _].
  apply Hlong; [reflexivity | discriminate | simpl; lia].
Defined.

(** ** The retention sweep *)

Section SweepFacts.
Import Sweep.
Open Scope Z_scope.

Lemma sweep_children_app (h : Z) (xs ys : list child) :
  sweep_children h (xs ++ ys) = (sweep_children h xs ++ sweep_children h ys)%list.
Proof.
  induction xs as [|x xs IH]; simpl; [reflexivity |].
  destruct (process_child h x) as [[|]|]; simpl; now rewrite IH.
Qed.

Lemma sweep_children_In (h : Z) (cs : list child) (c : child) :
  In c (sweep_children h cs) <-> In c cs /\ process_child h c <> Ok true.
Proof.
  induction cs as [|x cs IH]; simpl.
  - tauto.
  - destruct (process_child h x) as [[|]|] eqn:Hx; simpl; rewrite IH.
    + split.
      * intros [Hin Hc]. tauto.
      * intros [[-> | Hin] Hc]; [congruence | tauto].
    + split.
      * intros [<- | [Hin Hc]]; [split; [tauto | congruence] | tauto].
      * intros [[-> | Hin] Hc]; tauto.
    + split.
      * intros [<- | [Hin Hc]]; [split; [tauto | congruence] | tauto].
      * intros [[-> | Hin] Hc]; tauto.
Qed.

Lemma clock_turns (n : nat) (k : task) :
  clock (turns n k) = clock k + interval * Z.of_nat n.
Proof.
  revert k. induction n as [|n IH]; intros k.
  - simpl. lia.
  - cbn [turns]. rewrite IH. unfold turn. cbn [clock]. lia.
Qed.

(** C9: one turn of the loop, started at clock reading [clock k] on a save
    directory that lists [cs], leaves a listing [cs'] in which a file or
    directory that can be read and removed stands exactly when it stood in
    [cs] and was not modified more than 3600 seconds before [clock k]; a
    child whose handling raises stays, and what stands before and after
    it is swept as a listing of its own; the turn takes the clock 1800
    seconds on, whatever was raised, and the loop goes on turning, also
    when the directory is missing or cannot be listed. *)
Theorem sweep_removes_exactly_the_old
        (k : task) (cs : list child) (c : child) (t : Z) :
  dir k = Some (Ok cs) ->
  c_kind c = RegularFile \/ c_kind c = Directory ->
  c_mtime c = Ok t ->
  c_removable c = true ->
  exists cs',
    dir (turn k) = Some (Ok cs')
    /\ (In c cs' <-> In c cs /\ clock k - 3600 <= t)
    /\ (forall f before after,
           cs = (before ++ f :: after)%list ->
           process_child (clock k - 3600) f = Raised ->
           exists before' after',
             cs' = (before' ++ f :: after')%list
             /\ sweep_cycle (clock k) (Some (Ok before)) = Some (Ok before')
             /\ sweep_cycle (clock k) (Some (Ok after)) = Some (Ok after'))
    /\ clock (turn k) = clock k + 1800
    /\ (forall n, clock (turns n (turn k)) = clock k + 1800 * Z.of_nat (S n))
    /\ dir (turn (turn k)) = sweep_cycle (clock k + 1800) (Some (Ok cs'))
    /\ (forall k', dir k' = None \/ dir k' = Some Raised ->
                   dir (turn k') = dir k' /\ clock (turn k') = clock k' + 1800).
Proof.
  intros Hdir Hkind Hmtime Hrem.
  destruct k as [now d]. cbn [dir clock] in *. subst d.
  exists (sweep_children (now - one_hour) cs).
  assert (process_child (now - one_hour) c <> Ok true <-> now - one_hour <= t)
    as Hkeep.
  { unfold process_child. rewrite Hmtime, Hrem.
    destruct (t <? now - one_hour) eqn:Hlt.
    - apply Z.ltb_lt in Hlt.
      destruct Hkind as [-> | ->]; split; (congruence || lia).
    - apply Z.ltb_ge in Hlt.
      destruct Hkind as [-> | ->]; split; (congruence || lia). }
  change 3600 with one_hour. change 1800 with interval.
  split; [reflexivity |].
  split; [rewrite sweep_children_In, Hkeep; reflexivity |].
  split.
  { intros f before after -> Hf.
    exists (sweep_children (now - one_hour) before),
           (sweep_children (now - one_hour) after).
    split; [| split; reflexivity].
    rewrite sweep_children_app. cbn [sweep_children]. now rewrite Hf. }
  split; [reflexivity |].
  split; [intros n; rewrite clock_turns; unfold turn; cbn [clock]; lia |].
  split; [reflexivity |].
  intros k' Hk'. unfold turn, sweep_cycle. cbn [dir clock].
  destruct Hk' as [-> | ->]; now split.
Qed.

(** Two hours old, ten minutes old, and a sibling that cannot be read, in
    the save directory when the loop turns at clock reading 10000. *)
Definition old_page : child := Child "page_old" Directory (Ok 2800) true.
Definition new_page : child := Child "page_new" Directory (Ok 9400) true.
Definition bad_page : child := Child "page_bad" Directory Raised true.

Definition scenario : task := Task 10000 (Some (Ok [old_page; bad_page; new_page])).

Lemma sweep_scenario :
  (exists cs', dir (turn scenario) = Some (Ok cs')
               /\ ~ In old_page cs'
               /\ (exists before' after', cs' = (before' ++ bad_page :: after')%list)
               /\ clock (turn scenario) = 11800)
  /\ (exists cs', dir (turn scenario) = Some (Ok cs') /\ In new_page cs').
Proof.
  split.
  - destruct (sweep_removes_exactly_the_old scenario [old_page; bad_page; new_page]
                old_page 2800 eq_refl (or_intror eq_refl) eq_refl eq_refl)
      as (cs' & Hdir & Hin & Hbad & Hclock & _).
    exists cs'. split; [exact Hdir |].
    split; [intros H; apply Hin in H; unfold scenario in H; cbn [clock] in H; lia |].
    split; [| exact Hclock].
    destruct (Hbad bad_page [old_page] [new_page] eq_refl eq_refl)
      as (before' & after' & Hcs' & _).
    now exists before', after'.
  - destruct (sweep_removes_exactly_the_old scenario [old_page; bad_page; new_page]
                new_page 9400 eq_refl (or_intror eq_refl) eq_refl eq_refl)
      as (cs' & Hdir & Hin & _).
    exists cs'. split; [exact Hdir |].
    apply Hin. split; [simpl; tauto | unfold scenario; cbn [clock]; lia].
Defined.
End SweepFacts.

(** ** Induction on the document tree *)

Section NodeInduction.
Variable P : node -> Prop.
Hypothesis HText : forall s, P (Text s).
Hypothesis HComment : forall s, P (Comment s).
Hypothesis HTag : forall name a cs, Forall P cs -> P (Tag name a cs).

Fixpoint node_induction (n : node) : P n :=
  match n with
  | Text s => HText s
  | Comment s => HComment s
  | Tag name a cs =>
      HTag name a cs
           ((fix all (l : list node) : Forall P l :=
               match l with
               | [] => Forall_nil P
               | c :: l' => Forall_cons c (node_induction c) (all l')
               end) cs)
  end.
End NodeInduction.

(** ** The emptiness heuristic *)

Lemma flat_map_nil {A B : Type} (f : A -> list B) (l : list A) :
  Forall (fun x => f x = []) l -> flat_map f l = [].
Proof.
  induction 1 as [|x l Hx _ IH]; simpl; [reflexivity |].
  now rewrite Hx, IH.
Qed.

Lemma find_all_decomposed (names : list string) (x : string) :
  In x names ->
  forall n, Forall (fun m => find_all_in (named x) m = []) (decompose_in names n).
Proof.
  intros Hx. induction n as [s | s | name a cs IH] using node_induction; simpl.
  - repeat constructor.
  - repeat constructor.
  - destruct (existsb (String.eqb name) names) eqn:Hname; [constructor |].
    constructor; [| constructor]. simpl.
    unfold named at 1.
    destruct (String.eqb name x) eqn:Hnx.
    + apply String.eqb_eq in Hnx. subst name.
      assert (existsb (String.eqb x) names = true) as Habs.
      { apply existsb_exists. exists x. split; [exact Hx | apply String.eqb_refl]. }
      congruence.
    + simpl. apply flat_map_nil.
      clear Hname Hnx. induction IH as [|c cs Hc _ IHcs]; simpl; [constructor |].
      apply Forall_app. split; assumption.
Qed.

(** No script tag is left to count once the script tags are decomposed. *)
Lemma no_script_after_decompose (s : soup) :
  find_all (named "script") (decompose_all ["script"; "style"; "noscript"] s) = [].
Proof.
  unfold find_all, decompose_all. apply flat_map_nil.
  induction s as [|n s IH]; simpl; [constructor |].
  apply Forall_app. split; [| exact IH].
  apply find_all_decomposed. simpl. tauto.
Qed.

(** The heuristic is its first two rules: the third never fires. *)
Lemma is_likely_empty_soup_two_rules (s : soup) :
  is_likely_empty_soup s =
  let s' := decompose_all ["script"; "style"; "noscript"] s in
  (String.length (collapse (get_text s')) <? 100)
  || match find "body" s' with
     | Some body => String.length (collapse (get_text_of body)) <? 50
     | None => false
     end.
Proof.
  unfold is_likely_empty_soup. cbv zeta.
  rewrite no_script_after_decompose. simpl.
  destruct (_ <? 100); simpl; [reflexivity |].
  now destruct (match find "body" _ with Some _ => _ | None => _ end).
Qed.

Lemma is_likely_empty_page_empty (E : Collab) :
  is_likely_empty_page E EmptyString = Ok true.
Proof. reflexivity. Qed.

(** C4 at the page with six script tags and 150 characters of visible
    text: the script tags are counted after they were decomposed, and the
    answer is [False]. *)
Theorem six_scripts_page_not_flagged :
  List.length (find_all (named "script") SixScripts.page) = 6
  /\ String.length (collapse (get_text
       (decompose_all ["script"; "style"; "noscript"] SixScripts.page))) = 150
  /\ is_likely_empty_soup SixScripts.page = false.
Proof.
  split; [vm_compute; reflexivity |].
  split; vm_compute; reflexivity.
Qed.

Lemma is_likely_empty_page_parsed (E : Collab) (html : string) (s : soup) :
  html <> EmptyString -> parse E html = Ok s ->
  is_likely_empty_page E html = Ok (is_likely_empty_soup s).
Proof.
  intros Hne Hparse. unfold is_likely_empty_page.
  now rewrite (truthy_nonempty html Hne), Hparse.
Qed.

(** ** Slices *)

Lemma append_empty_r (s : string) : s ++ EmptyString = s.
Proof. induction s as [|c s IH]; simpl; [reflexivity | now rewrite IH]. Qed.

Lemma append_assoc (a b c : string) : (a ++ b) ++ c = a ++ (b ++ c).
Proof. induction a as [|x a IH]; simpl; [reflexivity | now rewrite IH]. Qed.

Lemma take_drop (k : nat) (s : string) : Py.take k s ++ Py.drop k s = s.
Proof.
  revert s. induction k as [|k IH]; intros [|c s]; simpl; try reflexivity.
  now rewrite IH.
Qed.

Lemma drop_empty (k : nat) : Py.drop k EmptyString = EmptyString.
Proof. now destruct k. Qed.

Lemma drop_drop (a b : nat) (s : string) :
  Py.drop a (Py.drop b s) = Py.drop (b + a) s.
Proof.
  revert s. induction b as [|b IH]; intros s; simpl; [reflexivity |].
  destruct s as [|c s]; [apply drop_empty | apply IH].
Qed.

Lemma length_drop (k : nat) (s : string) :
  String.length (Py.drop k s) = String.length s - k.
Proof.
  revert s. induction k as [|k IH]; intros [|c s]; simpl; try reflexivity.
  apply IH.
Qed.

Lemma slice_drop (i j : nat) (s : string) :
  i <= j -> Py.slice i j s ++ Py.drop j s = Py.drop i s.
Proof.
  intros Hij. unfold Py.slice.
  replace (Py.drop j s) with (Py.drop (j - i) (Py.drop i s)).
  - apply take_drop.
  - rewrite drop_drop. f_equal. lia.
Qed.

(** ** The matcher stays inside the text and moves forward *)

Section MatcherBounds.
Import Re.
Variable R : Type.
Variable Q : R -> Prop.
(** The length of the whole text. *)
Variable N : nat.

Definition within (st : mstate) : Prop := pos st + String.length (rest st) = N.

(** Every result that [k] gives from [p] on satisfies [Q]. *)
Definition good_from (p : nat) (k : mstate -> option R) : Prop :=
  forall st, within st -> p <= pos st -> forall x, k st = Some x -> Q x.

Definition good_step (step : (mstate -> option R) -> mstate -> option R) : Prop :=
  forall k st, within st -> good_from (pos st) k ->
               forall x, step k st = Some x -> Q x.

Lemma good_from_le (p q : nat) (k : mstate -> option R) :
  p <= q -> good_from p k -> good_from q k.
Proof. intros Hpq Hk st Hst Hq. apply Hk; [exact Hst | lia]. Qed.

Lemma rep_loop_good step k lo hi (p : nat) :
  good_step step -> good_from p k ->
  forall fuel cnt, good_from p (rep_loop step k lo hi fuel cnt).
Proof.
  intros Hstep Hk. induction fuel as [|fuel IH]; intros cnt st Hst Hp x; simpl.
  - destruct (lo <=? cnt); [apply Hk; assumption | discriminate].
  - assert (forall y, (if lo <=? cnt then k st else None) = Some y -> Q y) as Hstop.
    { intros y. destruct (lo <=? cnt); [apply Hk; assumption | discriminate]. }
    destruct (match hi with Some h => cnt <? h | None => true end); [| apply Hstop].
    destruct (step _ st) as [y|] eqn:Hy; [| apply Hstop].
    intros [= <-]. revert Hy. apply Hstep; [exact Hst |].
    intros st' Hst' Hle z. destruct (pos st <? pos st'); [| discriminate].
    apply IH; [exact Hst' | lia].
Qed.

Lemma run_good (r : regex) : good_step (fun k st => run r k st).
Proof.
  induction r as [| p | a IHa b IHb | a IHa b IHb | a IHa lo hi | a IHa | |];
    intros k st Hst Hk x; [simpl | simpl | simpl | simpl | | simpl | simpl | simpl].
  - apply Hk; [exact Hst | lia].
  - destruct (rest st) as [|c s'] eqn:Hrest; [discriminate |].
    destruct (p c); [| discriminate].
    apply Hk; unfold within in *; simpl; rewrite ?Hrest in Hst; simpl in Hst; lia.
  - apply IHa; [exact Hst |].
    intros st' Hst' Hle. apply IHb; [exact Hst' |].
    apply good_from_le with (pos st); assumption.
  - destruct (run a k st) as [y|] eqn:Hy.
    + intros [= <-]. revert Hy. apply IHa; assumption.
    + apply IHb; assumption.
  - exact (rep_loop_good (run a) k lo hi (pos st) IHa Hk
                         (S (String.length (rest st))) 0 st Hst (le_n _) x).
  - apply IHa; [exact Hst |].
    intros st' Hst' Hle. apply Hk; assumption.
  - destruct (pos st =? 0); [| discriminate]. apply Hk; [exact Hst | lia].
  - destruct (rest st) as [|c [|c' s']]; try discriminate.
    + apply Hk; [exact Hst | lia].
    + destruct (Py.code c =? 10); [| discriminate]. apply Hk; [exact Hst | lia].
Qed.
End MatcherBounds.

Lemma match_at_bounds (r : Re.regex) (i : nat) (s : string) (m : Re.match_obj) :
  Re.match_at r i s = Some m ->
  Re.m_start m = i /\ i <= Re.m_end m /\ Re.m_end m <= i + String.length s.
Proof.
  unfold Re.match_at.
  apply (run_good Re.match_obj (fun m => Re.m_start m = i /\ i <= Re.m_end m
                                         /\ Re.m_end m <= i + String.length s)
                  (i + String.length s) r).
  - reflexivity.
  - intros st Hst Hle x [= <-]. unfold within in Hst. simpl in *. lia.
Qed.

(** The matches lie one after the other between [lo] and [n]. *)
Fixpoint ordered (lo n : nat) (ms : list Re.match_obj) : Prop :=
  match ms with
  | [] => True
  | m :: ms' =>
      lo <= Re.m_start m /\ Re.m_start m <= Re.m_end m /\ Re.m_end m <= n
      /\ ordered (Re.m_end m) n ms'
  end.

Lemma ordered_le (lo lo' n : nat) (ms : list Re.match_obj) :
  lo' <= lo -> ordered lo n ms -> ordered lo' n ms.
Proof. destruct ms as [|m ms]; simpl; [tauto |]. intros Hle (H1 & H2). split; [lia | exact H2]. Qed.

Lemma finditer_from_ordered (r : Re.regex) (fuel i : nat) (s : string) :
  ordered i (i + String.length s) (Re.finditer_from r fuel i s).
Proof.
  revert i s. induction fuel as [|fuel IH]; intros i s; simpl; [exact I |].
  assert (match s with
          | EmptyString => []
          | String _ s' => Re.finditer_from r fuel (S i) s'
          end = match s with
          | EmptyString => []
          | String _ s' => Re.finditer_from r fuel (S i) s'
          end -> ordered i (i + String.length s)
                   match s with
                   | EmptyString => []
                   | String _ s' => Re.finditer_from r fuel (S i) s'
                   end) as Hskip.
  { intros _. destruct s as [|c s']; simpl; [exact I |].
    apply ordered_le with (S i); [lia |].
    replace (i + S (String.length s')) with (S i + String.length s') by lia.
    apply IH. }
  destruct (Re.match_at r i s) as [m|] eqn:Hm; [| now apply Hskip].
  apply match_at_bounds in Hm. destruct Hm as (Hstart & Hlo & Hhi).
  destruct (i <? Re.m_end m) eqn:Hprog; simpl.
  - repeat split; try lia.
    specialize (IH (Re.m_end m) (Py.drop (Re.m_end m - i) s)).
    rewrite length_drop in IH.
    replace (Re.m_end m + (String.length s - (Re.m_end m - i)))
      with (i + String.length s) in IH by lia.
    exact IH.
  - apply Nat.ltb_ge in Hprog. repeat split; try lia.
    apply ordered_le with i; [lia |]. now apply Hskip.
Qed.

Lemma finditer_ordered (r : Re.regex) (s : string) :
  ordered 0 (String.length s) (Re.finditer r s).
Proof. apply (finditer_from_ordered r (S (String.length s)) 0 s). Qed.

(** ** The CSS URL rewriter *)

Section CssFacts.
Variable E : Collab.
Variables css_url referer : string.

(** Putting every match back where it was gives the text again: the
    pieces between the matches are the text's own. *)
Lemma rebuild_identity (css : string) (ms : list Re.match_obj) (last : nat) :
  ordered last (String.length css) ms ->
  Py.concat (rebuild css last (combine ms (map (Re.group0 css) ms)))
  = Py.drop last css.
Proof.
  revert last. induction ms as [|m ms IH]; intros last; simpl.
  - intros _. apply append_empty_r.
  - intros (H1 & H2 & H3 & H4).
    change (Py.concat (?a :: ?b :: ?l)) with (a ++ b ++ Py.concat l).
    rewrite (IH _ H4). unfold Re.group0.
    rewrite (slice_drop _ _ css H2). now apply slice_drop.
Qed.

(** The reference [u] of a match is one the rewriter fetches. *)
Definition css_fetched (u : string) : Prop :=
  u <> EmptyString /\ Py.startswith_any u ["data:"; "http://"; "https://"] = false.

(** The fetch of the reference [u] succeeds with [resp]. *)
Definition css_fetch_ok (u : string) (resp : response) : Prop :=
  css_fetched u
  /\ exists full_url, urljoin E css_url u = Ok full_url
                      /\ http_get E full_url referer 5 = Ok resp
                      /\ status resp = 200.

(** The fetch of the reference [u] fails: the URL cannot be joined, the
    request raises, or the status is not 200. *)
Definition css_fetch_fails (u : string) : Prop :=
  css_fetched u
  /\ (urljoin E css_url u = Raised
      \/ exists full_url, urljoin E css_url u = Ok full_url
                          /\ (http_get E full_url referer 5 = Raised
                              \/ exists resp, http_get E full_url referer 5 = Ok resp
                                              /\ status resp <> 200)).

Definition css_mime (resp : response) : string :=
  match content_type resp with
  | Some t => t
  | None => "application/octet-stream"
  end.

(** The text a match is replaced by. *)
Definition replacement (css : string) (m : Re.match_obj) : string :=
  match replace_url E css css_url referer m with
  | Some r => r
  | None => Re.group0 css m
  end.

Lemma replacement_ok css m u resp :
  Re.group1 css m = Some u -> css_fetch_ok u resp ->
  replacement css m = css_data_url (css_mime resp) (content resp).
Proof.
  intros Hg ((Hne & Hskip) & full & Hjoin & Hget & Hst).
  unfold replacement, replace_url.
  rewrite Hg, (truthy_nonempty u Hne), Hskip, Hjoin, Hget, Hst. reflexivity.
Qed.

Lemma replacement_fails css m u :
  Re.group1 css m = Some u -> css_fetch_fails u ->
  replacement css m = Re.group0 css m.
Proof.
  intros Hg ((Hne & Hskip) & Hfail).
  unfold replacement, replace_url.
  rewrite Hg, (truthy_nonempty u Hne), Hskip. simpl.
  destruct Hfail as [-> | (full & -> & [-> | (resp & -> & Hst)])]; try reflexivity.
  apply Nat.eqb_neq in Hst. now rewrite Hst.
Qed.

Lemma replacement_skipped css m u :
  Re.group1 css m = Some u ->
  Py.startswith_any u ["data:"; "http://"; "https://"] = true ->
  replacement css m = Re.group0 css m.
Proof.
  intros Hg Hskip. unfold replacement, replace_url. rewrite Hg, Hskip.
  now destruct (negb (Py.truthy u)).
Qed.

(** Every match gets its own replacement, whatever becomes of the
    others. *)
Lemma process_css_urls_rebuilds (css : string) :
  let ms := Re.finditer url_pattern css in
  process_css_urls E css css_url referer
  = Py.concat (rebuild css 0 (combine ms (map (replacement css) ms))).
Proof.
  unfold process_css_urls. cbv zeta.
  destruct (Re.finditer url_pattern css) as [|m ms] eqn:Hms.
  - simpl. now rewrite append_empty_r.
  - reflexivity.
Qed.

End CssFacts.

Module CssExample.

(** Two references: [bg.png] is served, [font.woff] is not. *)
Definition css : string := "a{background:url(bg.png)} b{src:url('font.woff')}".

Definition m1 : Re.match_obj := Re.Match 13 24 (Some (17, 23)).
Definition m2 : Re.match_obj := Re.Match 32 48 (Some (37, 46)).

Definition served : response := Response 200 (Some "image/png") Demo.png_bytes Raised.

End CssExample.


(** ** The state-and-exception computations *)

Lemma bind_ok {A B : Type} (m : M A) (f : A -> M B) (st st' : state) (b : B) :
  bind m f st = (Ok b, st') ->
  exists a st1, m st = (Ok a, st1) /\ f a st1 = (Ok b, st').
Proof.
  unfold bind. destruct (m st) as [[a|] st1]; [| discriminate].
  intros H. now exists a, st1.
Qed.

Lemma mapM_cons_ok {A B : Type} (f : A -> M B) x l st l' st' :
  mapM f (x :: l) st = (Ok l', st') ->
  exists y ys st1, f x st = (Ok y, st1) /\ mapM f l st1 = (Ok ys, st') /\ l' = y :: ys.
Proof.
  simpl. intros H.
  apply bind_ok in H. destruct H as (y & st1 & Hy & H).
  apply bind_ok in H. destruct H as (ys & st2 & Hys & H).
  injection H as <- <-. now exists y, ys, st1.
Qed.

(** Each element of the result comes from the element at its place. *)
Lemma mapM_nth {A B : Type} (f : A -> M B) l st l' st' i x :
  mapM f l st = (Ok l', st') -> nth_error l i = Some x ->
  exists y st1 st2, f x st1 = (Ok y, st2) /\ nth_error l' i = Some y.
Proof.
  revert st l' i. induction l as [|z l IH]; intros st l' i Hm Hx.
  - now destruct i.
  - apply mapM_cons_ok in Hm. destruct Hm as (y & ys & st1 & Hy & Hys & ->).
    destruct i as [|i]; simpl in Hx.
    + injection Hx as ->. now exists y, st, st1.
    + apply (IH st1 ys i Hys Hx).
Qed.

Lemma mapM_Forall2 {A B : Type} (f : A -> M B) l st l' st' :
  mapM f l st = (Ok l', st') ->
  Forall2 (fun x y => exists st1 st2, f x st1 = (Ok y, st2)) l l'.
Proof.
  revert st l'. induction l as [|z l IH]; intros st l' Hm.
  - injection Hm as <- _. constructor.
  - apply mapM_cons_ok in Hm. destruct Hm as (y & ys & st1 & Hy & Hys & ->).
    constructor; [now exists st, st1 | apply (IH st1 ys Hys)].
Qed.

(** ** The loop over the selected tags *)

(** The node read at a path of child indices. *)
Fixpoint subtree_at (p : list nat) (s : soup) : option node :=
  match p with
  | [] => None
  | i :: p' =>
      match nth_error s i with
      | None => None
      | Some n =>
          match p' with
          | [] => Some n
          | _ :: _ =>
              match n with
              | Tag _ _ cs => subtree_at p' cs
              | _ => None
              end
          end
      end
  end.

(** The tags that [html.parser] closes at once or fills with text only. *)
Definition closed_name (name : string) : bool :=
  String.eqb name "link" || String.eqb name "script" || String.eqb name "style".

(** The shape of a parsed tree: no tag inside a link, script or style. *)
Fixpoint parser_shape (n : node) : bool :=
  match n with
  | Tag name _ cs =>
      (if closed_name name then forallb (fun c => negb (is_tag c)) cs else true)
      && forallb parser_shape cs
  | _ => true
  end.

Definition apply_edit (name : string) (a : attrs) (cs : list node) (e : edit) : node :=
  match e with
  | Leave => Tag name a cs
  | SetAttrs a' => Tag name a' cs
  | ReplaceWith n' => n'
  end.

Section ForEachFacts.
Variable sel : string -> attrs -> bool.
Variable body : attrs -> M edit.

Lemma visit_tag_ok name a cs st n' st' :
  visit sel body (Tag name a cs) st = (Ok n', st') ->
  (sel name a = false
   /\ exists cs', mapM (visit sel body) cs st = (Ok cs', st') /\ n' = Tag name a cs')
  \/ (sel name a = true
      /\ exists e st1, body a st = (Ok e, st1)
         /\ ((exists n1, e = ReplaceWith n1 /\ n' = n1 /\ st' = st1)
             \/ ((forall n1, e <> ReplaceWith n1)
                 /\ exists cs', mapM (visit sel body) cs st1 = (Ok cs', st')
                                /\ n' = apply_edit name a cs' e))).
Proof.
  simpl. destruct (sel name a).
  - intros H. right. split; [reflexivity |].
    apply bind_ok in H. destruct H as (e & st1 & He & H).
    exists e, st1. split; [exact He |].
    destruct e as [| a' | n1].
    + right. split; [discriminate |].
      apply bind_ok in H. destruct H as (cs' & st2 & Hcs & H).
      injection H as <- <-. now exists cs'.
    + right. split; [discriminate |].
      apply bind_ok in H. destruct H as (cs' & st2 & Hcs & H).
      injection H as <- <-. now exists cs'.
    + left. injection H as <- <-. now exists n1.
  - intros H. left. split; [reflexivity |].
    apply bind_ok in H. destruct H as (cs' & st2 & Hcs & H).
    injection H as <- <-. now exists cs'.
Qed.

Lemma visit_leaf n st :
  is_tag n = false -> visit sel body n st = (Ok n, st).
Proof. destruct n; [reflexivity | reflexivity | discriminate]. Qed.

Lemma mapM_visit_leaves cs st :
  forallb (fun c => negb (is_tag c)) cs = true ->
  mapM (visit sel body) cs st = (Ok cs, st).
Proof.
  induction cs as [|c cs IH]; simpl; [reflexivity |].
  intros H. apply andb_prop in H. destruct H as [Hc Hcs].
  unfold bind. rewrite visit_leaf by (now destruct (is_tag c)).
  now rewrite (IH Hcs).
Qed.

(** What the loop computes for a tag does not depend on the state, and a
    replaced tag is one that has no tags inside. *)
Variable act : attrs -> result edit.
Hypothesis body_act : forall a st, fst (body a st) = act a.
Hypothesis replaced_closed :
  forall name a n', sel name a = true -> act a = Ok (ReplaceWith n') ->
                    closed_name name = true.

(** The tag that stands in the place of [Tag name a _] after the loop,
    [cs'] being what its contents have become. *)
Definition after_loop (name : string) (a : attrs) (cs' : list node) : node :=
  if sel name a then
    match act a with
    | Ok e => apply_edit name a cs' e
    | Raised => Tag name a cs'
    end
  else Tag name a cs'.

Definition looped (cs cs' : list node) : Prop :=
  exists st1 st2, mapM (visit sel body) cs st1 = (Ok cs', st2).

Lemma visit_tag_after name a cs st n' st' :
  visit sel body (Tag name a cs) st = (Ok n', st') ->
  exists cs', n' = after_loop name a cs'
              /\ ((exists n1, sel name a = true /\ act a = Ok (ReplaceWith n1))
                  \/ looped cs cs')
              /\ (sel name a = true -> act a <> Raised).
Proof.
  intros H. apply visit_tag_ok in H. unfold after_loop.
  destruct H as [(Hsel & cs' & Hcs & ->) | (Hsel & e & st1 & He & H)].
  - exists cs'. rewrite Hsel. split; [reflexivity |].
    split; [right; now exists st, st' | discriminate].
  - rewrite Hsel. pose proof (body_act a st) as Ha. rewrite He in Ha. simpl in Ha.
    rewrite <- Ha.
    destruct H as [(n1 & -> & -> & ->) | (Hne & cs' & Hcs & ->)].
    + exists []. split; [reflexivity |].
      split; [left; now exists n1 | discriminate].
    + exists cs'. split; [reflexivity |].
      split; [right; now exists st1, st' | discriminate].
Qed.

Lemma looped_leaves cs cs' :
  looped cs cs' -> forallb (fun c => negb (is_tag c)) cs = true -> cs' = cs.
Proof.
  intros (st1 & st2 & Hloop) Hleaves.
  rewrite (mapM_visit_leaves cs st1 Hleaves) in Hloop. now injection Hloop.
Qed.

Lemma after_loop_replaced name a n1 cs1 cs2 :
  sel name a = true -> act a = Ok (ReplaceWith n1) ->
  after_loop name a cs1 = after_loop name a cs2.
Proof. intros Hsel Hact. unfold after_loop. now rewrite Hsel, Hact. Qed.

Lemma subtree_has_tag p cs n :
  subtree_at p cs = Some n -> is_tag n = true ->
  forallb (fun c => negb (is_tag c)) cs = false.
Proof.
  destruct p as [|i p]; [discriminate |]. simpl.
  destruct (nth_error cs i) as [c|] eqn:Hc; [| discriminate].
  intros H Hn.
  assert (is_tag c = true) as Hct.
  { destruct p; [now injection H as -> | destruct c; try discriminate; reflexivity]. }
  apply nth_error_In in Hc.
  destruct (forallb _ cs) eqn:Hall; [| reflexivity].
  rewrite forallb_forall in Hall. specialize (Hall c Hc). now rewrite Hct in Hall.
Qed.

(** The loop at a path: the tag there is edited as its own fetch says,
    whatever happens elsewhere in the tree. *)
Lemma for_each_at p :
  forall s st s' st' name a cs,
    forallb parser_shape s = true ->
    for_each sel body s st = (Ok s', st') ->
    subtree_at p s = Some (Tag name a cs) ->
    exists cs', subtree_at p s' = Some (after_loop name a cs')
                /\ ((exists n1, sel name a = true /\ act a = Ok (ReplaceWith n1))
                    \/ looped cs cs')
                /\ (sel name a = true -> act a <> Raised).
Proof.
  induction p as [|i p IH]; intros s st s' st' name a cs Hshape Hrun Hat;
    [discriminate |].
  simpl in Hat. destruct (nth_error s i) as [n|] eqn:Hn; [| discriminate].
  destruct (mapM_nth _ _ _ _ _ _ _ Hrun Hn) as (n' & st1 & st2 & Hvisit & Hn').
  assert (parser_shape n = true) as Hshn.
  { rewrite forallb_forall in Hshape. apply Hshape. eapply nth_error_In. exact Hn. }
  destruct p as [|j p].
  - injection Hat as ->.
    destruct (visit_tag_after _ _ _ _ _ _ Hvisit) as (cs' & -> & Hcs).
    exists cs'. simpl. rewrite Hn'. now split.
  - destruct n as [t | t | nm an cn]; try discriminate.
    simpl in Hshn. apply andb_prop in Hshn. destruct Hshn as [Hclosed Hkids].
    assert (closed_name nm = false) as Hopen.
    { destruct (closed_name nm); [| reflexivity].
      now rewrite (subtree_has_tag _ _ _ Hat eq_refl) in Hclosed. }
    destruct (visit_tag_after _ _ _ _ _ _ Hvisit) as (cn' & -> & Hcn & _).
    destruct Hcn as [(n1 & Hsel & Hact) | (sa & sb & Hloop)].
    + rewrite (replaced_closed _ _ _ Hsel Hact) in Hopen. discriminate.
    + destruct (IH cn sa cn' sb name a cs Hkids Hloop Hat) as (cs' & Hat' & Hcs).
      exists cs'. split; [| exact Hcs].
      change (subtree_at (i :: j :: p) s')
        with (match nth_error s' i with
              | Some (Tag _ _ c) => subtree_at (j :: p) c
              | _ => None
              end).
      rewrite Hn'. unfold after_loop.
      destruct (sel nm an) eqn:Hsel; [| exact Hat'].
      destruct (act an) as [[| a' | n1]|] eqn:Han; try exact Hat'.
      rewrite (replaced_closed nm an n1 Hsel Han) in Hopen. discriminate.
Qed.
End ForEachFacts.

Definition attrs_of (n : node) : attrs :=
  match n with Tag _ a _ => a | _ => [] end.

Section ForEachWhole.
Variable sel : string -> attrs -> bool.
Variable body : attrs -> M edit.

Lemma mapM_total {A B : Type} (f : A -> M B) (l : list A) :
  Forall (fun x => forall st, exists y st', f x st = (Ok y, st')) l ->
  forall st, exists l' st', mapM f l st = (Ok l', st').
Proof.
  induction 1 as [|x l Hx _ IH]; intros st; simpl.
  - now exists [], st.
  - destruct (Hx st) as (y & st1 & Hy). destruct (IH st1) as (ys & st2 & Hys).
    exists (y :: ys), st2. unfold bind. now rewrite Hy, Hys.
Qed.

(** A loop whose body does not raise does not raise. *)
Lemma visit_total :
  (forall a st, fst (body a st) <> Raised) ->
  forall n st, exists n' st', visit sel body n st = (Ok n', st').
Proof.
  intros Hbody.
  induction n as [t | t | name a cs IH] using node_induction; intros st.
  - now exists (Text t), st.
  - now exists (Comment t), st.
  - simpl. unfold bind.
    destruct (sel name a).
    + destruct (body a st) as [[e|] st1] eqn:He.
      * destruct e as [| a' | n1].
        -- destruct (mapM_total _ cs IH st1) as (cs' & st2 & ->). unfold ret. eauto.
        -- destruct (mapM_total _ cs IH st1) as (cs' & st2 & ->). unfold ret. eauto.
        -- unfold ret. eauto.
      * exfalso. apply (Hbody a st). now rewrite He.
    + destruct (mapM_total _ cs IH st) as (cs' & st2 & ->). unfold ret. eauto.
Qed.

Lemma for_each_total :
  (forall a st, fst (body a st) <> Raised) ->
  forall s st, exists s' st', for_each sel body s st = (Ok s', st').
Proof.
  intros Hbody s. apply mapM_total.
  apply Forall_forall. intros n _. now apply visit_total.
Qed.

Lemma mapM_state {A B : Type} (f : A -> M B) (l : list A) :
  Forall (fun x => forall st, snd (f x st) = st) l ->
  forall st, snd (mapM f l st) = st.
Proof.
  induction 1 as [|x l Hx _ IH]; intros st; simpl; [reflexivity |].
  unfold bind. specialize (Hx st).
  destruct (f x st) as [[y|] st1]; simpl in Hx; subst st1; [| reflexivity].
  specialize (IH st). destruct (mapM f l st) as [[ys|] st2]; simpl in *; now subst.
Qed.

(** A loop whose body leaves the state alone leaves it alone. *)
Lemma visit_state :
  (forall a st, snd (body a st) = st) ->
  forall n st, snd (visit sel body n st) = st.
Proof.
  intros Hbody.
  induction n as [t | t | name a cs IH] using node_induction; intros st;
    try reflexivity.
  pose proof (mapM_state _ cs IH) as Hcs.
  simpl. unfold bind. destruct (sel name a).
  - specialize (Hbody a st).
    destruct (body a st) as [[e|] st1]; simpl in Hbody; subst st1; [| reflexivity].
    destruct e as [| a' | n1]; [| | reflexivity];
      specialize (Hcs st); destruct (mapM _ cs st) as [[cs'|] st2];
        simpl in *; now subst.
  - specialize (Hcs st). destruct (mapM _ cs st) as [[cs'|] st2];
      simpl in *; now subst.
Qed.

Lemma for_each_state :
  (forall a st, snd (body a st) = st) ->
  forall s st, snd (for_each sel body s st) = st.
Proof.
  intros Hbody s. apply mapM_state.
  apply Forall_forall. intros n _. now apply visit_state.
Qed.

(** The state after a loop that replaces nothing: the bodies ran on the
    tags of [find_all], one after the other. *)
Definition run_bodies (ns : list node) (st : state) : state :=
  fold_left (fun st n => snd (body (attrs_of n) st)) ns st.

Hypothesis no_replace : forall a st n1, fst (body a st) <> Ok (ReplaceWith n1).

Lemma mapM_visit_state cs :
  Forall (fun n => forall st n' st',
              visit sel body n st = (Ok n', st') ->
              st' = run_bodies (find_all_in sel n) st) cs ->
  forall st cs' st',
    mapM (visit sel body) cs st = (Ok cs', st') ->
    st' = run_bodies (flat_map (find_all_in sel) cs) st.
Proof.
  induction 1 as [|c cs Hc _ IH]; intros st cs' st' Hrun.
  - now injection Hrun as _ <-.
  - apply mapM_cons_ok in Hrun. destruct Hrun as (y & ys & st1 & Hy & Hys & ->).
    simpl. unfold run_bodies. rewrite fold_left_app.
    apply Hc in Hy. apply IH in Hys. unfold run_bodies in Hy, Hys. now subst.
Qed.

Lemma visit_run_bodies :
  forall n st n' st',
    visit sel body n st = (Ok n', st') ->
    st' = run_bodies (find_all_in sel n) st.
Proof.
  induction n as [t | t | name a cs IH] using node_induction;
    intros st n' st' Hrun.
  - now injection Hrun as _ <-.
  - now injection Hrun as _ <-.
  - pose proof (mapM_visit_state cs IH) as Hcs.
    apply visit_tag_ok in Hrun. simpl.
    destruct Hrun as [(-> & cs' & Hrun & _) | (-> & e & st1 & He & Hrun)].
    + simpl. now apply Hcs in Hrun.
    + destruct Hrun as [(n1 & -> & _) | (_ & cs' & Hrun & _)].
      * exfalso. apply (no_replace a st n1). now rewrite He.
      * apply Hcs in Hrun. unfold run_bodies in *. simpl. now rewrite He.
Qed.

Lemma for_each_run_bodies s st s' st' :
  for_each sel body s st = (Ok s', st') ->
  st' = run_bodies (find_all sel s) st.
Proof.
  apply mapM_visit_state.
  apply Forall_forall. intros n _. apply visit_run_bodies.
Qed.
End ForEachWhole.

Section ShapeKept.
Variable sel : string -> attrs -> bool.
Variable body : attrs -> M edit.
Hypothesis replaced_shape :
  forall a st n1 st', body a st = (Ok (ReplaceWith n1), st') ->
                      parser_shape n1 = true /\ is_tag n1 = true.

Lemma looped_shape cs :
  Forall (fun n => parser_shape n = true ->
                   forall st n' st', visit sel body n st = (Ok n', st') ->
                                     parser_shape n' = true /\ is_tag n' = is_tag n) cs ->
  forallb parser_shape cs = true ->
  forall st cs' st',
    mapM (visit sel body) cs st = (Ok cs', st') ->
    forallb parser_shape cs' = true
    /\ forallb (fun c => negb (is_tag c)) cs' = forallb (fun c => negb (is_tag c)) cs.
Proof.
  induction 1 as [|c cs Hc _ IH]; intros Hsh st cs' st' Hrun.
  - injection Hrun as <- _. now split.
  - simpl in Hsh. apply andb_prop in Hsh. destruct Hsh as [Hshc Hshcs].
    apply mapM_cons_ok in Hrun. destruct Hrun as (y & ys & st1 & Hy & Hys & ->).
    destruct (Hc Hshc _ _ _ Hy) as [Hy1 Hy2].
    destruct (IH Hshcs _ _ _ Hys) as [Hys1 Hys2].
    simpl. now rewrite Hy1, Hys1, Hy2, Hys2.
Qed.

Lemma visit_shape :
  forall n, parser_shape n = true ->
            forall st n' st', visit sel body n st = (Ok n', st') ->
                              parser_shape n' = true /\ is_tag n' = is_tag n.
Proof.
  induction n as [t | t | name a cs IH] using node_induction;
    intros Hsh st n' st' Hrun.
  - injection Hrun as <- _. now split.
  - injection Hrun as <- _. now split.
  - pose proof (looped_shape cs IH) as Hcs.
    simpl in Hsh. apply andb_prop in Hsh. destruct Hsh as [Hclosed Hkids].
    assert (forall a' cs' sa sb,
               mapM (visit sel body) cs sa = (Ok cs', sb) ->
               parser_shape (Tag name a' cs') = true) as Hkeep.
    { intros a' cs' sa sb Hloop.
      destruct (Hcs Hkids _ _ _ Hloop) as [H1 H2]. simpl.
      rewrite H1, H2. now rewrite Hclosed. }
    apply visit_tag_ok in Hrun.
    destruct Hrun as [(_ & cs' & Hloop & ->) | (_ & e & st1 & He & Hrun)].
    + split; [exact (Hkeep a cs' _ _ Hloop) | reflexivity].
    + destruct Hrun as [(n1 & -> & -> & _) | (_ & cs' & Hloop & ->)].
      * exact (replaced_shape _ _ _ _ He).
      * destruct e as [| a' | n1].
        -- split; [exact (Hkeep a cs' _ _ Hloop) | reflexivity].
        -- split; [exact (Hkeep a' cs' _ _ Hloop) | reflexivity].
        -- exact (replaced_shape _ _ _ _ He).
Qed.

Lemma for_each_shape s st s' st' :
  forallb parser_shape s = true ->
  for_each sel body s st = (Ok s', st') ->
  forallb parser_shape s' = true.
Proof.
  intros Hsh Hrun.
  refine (proj1 (looped_shape s _ Hsh _ _ _ Hrun)).
  apply Forall_forall. intros n _. apply visit_shape.
Qed.
End ShapeKept.

(** The attributes a tag has once its edit is applied. *)
Definition attrs_edit (a : attrs) (e : edit) : attrs :=
  match e with
  | SetAttrs a' => a'
  | _ => a
  end.

Lemma mapM_nth_prefix {A B : Type} (f : A -> M B) l st l' st' i x :
  mapM f l st = (Ok l', st') -> nth_error l i = Some x ->
  exists y ys st1 st2,
    mapM f (firstn i l) st = (Ok ys, st1)
    /\ f x st1 = (Ok y, st2) /\ nth_error l' i = Some y.
Proof.
  revert st l' i. induction l as [|z l IH]; intros st l' i Hm Hx.
  - now destruct i.
  - apply mapM_cons_ok in Hm. destruct Hm as (y & ys & st1 & Hy & Hys & ->).
    destruct i as [|i]; simpl in Hx.
    + injection Hx as ->. now exists y, [], st, st1.
    + destruct (IH st1 ys i Hys Hx) as (y' & ys' & sa & sb & Hpre & Hy' & Hn).
      exists y', (y :: ys'), sa, sb. split; [| now split].
      cbn [firstn mapM]. unfold bind. now rewrite Hy, Hpre.
Qed.

Lemma flat_map_nth {A B : Type} (g : A -> list B) (l : list A) (i : nat) (x : A) :
  nth_error l i = Some x ->
  flat_map g l = (flat_map g (firstn i l) ++ g x ++ flat_map g (skipn (S i) l))%list.
Proof.
  revert i. induction l as [|z l IH]; intros i Hx; [now destruct i |].
  destruct i as [|i]; simpl in Hx.
  - now injection Hx as ->.
  - cbn [firstn skipn flat_map]. rewrite (IH i Hx). now rewrite <- app_assoc.
Qed.

Lemma run_bodies_app (body : attrs -> M edit) (l1 l2 : list node) (st : state) :
  run_bodies body (l1 ++ l2) st = run_bodies body l2 (run_bodies body l1 st).
Proof. unfold run_bodies. apply fold_left_app. Qed.

Section ForEachAttrs.
Variable sel : string -> attrs -> bool.
Variable body : attrs -> M edit.
(** A loop that replaces no tag, whose body may depend on the state. *)
Hypothesis no_replace : forall a st n1, fst (body a st) <> Ok (ReplaceWith n1).

Lemma visit_tag_attrs name a cs st n' st' :
  visit sel body (Tag name a cs) st = (Ok n', st') ->
  exists cs' a' sa,
    n' = Tag name a' cs'
    /\ mapM (visit sel body) cs sa = (Ok cs', st')
    /\ sa = run_bodies body (if sel name a then [Tag name a cs] else []) st
    /\ (sel name a = false -> a' = a)
    /\ (sel name a = true ->
        exists e st2, body a st = (Ok e, st2) /\ a' = attrs_edit a e).
Proof.
  intros H. apply visit_tag_ok in H.
  destruct H as [(Hsel & cs' & Hcs & ->) | (Hsel & e & sa & He & H)].
  - exists cs', a, st. split; [reflexivity |].
    split; [exact Hcs |].
    split; [now rewrite Hsel |].
    split; [reflexivity | intros Hs; congruence].
  - destruct H as [(n1 & -> & _) | (Hne & cs' & Hcs & ->)].
    + exfalso. apply (no_replace a st n1). now rewrite He.
    + exists cs', (attrs_edit a e), sa.
      split; [destruct e as [| a' | n1]; try reflexivity; now elim (Hne n1) |].
      split; [exact Hcs |].
      split; [rewrite Hsel; unfold run_bodies; simpl; now rewrite He |].
      split; [intros Hs; congruence |].
      intros _. now exists e, sa.
Qed.

(** The loop at a path: the tag there keeps its place and its name, and
    its attributes are those its own run of the body gave it, in the
    state the bodies of the selected tags before it have left. *)
Lemma for_each_attrs_at p :
  forall s st s' st' name a cs,
    for_each sel body s st = (Ok s', st') ->
    subtree_at p s = Some (Tag name a cs) ->
    exists cs' a',
      subtree_at p s' = Some (Tag name a' cs')
      /\ looped sel body cs cs'
      /\ (sel name a = false -> a' = a)
      /\ (sel name a = true ->
          exists before after e st2,
            find_all sel s = (before ++ Tag name a cs :: after)%list
            /\ body a (run_bodies body before st) = (Ok e, st2)
            /\ a' = attrs_edit a e).
Proof.
  induction p as [|i p IH]; intros s st s' st' name a cs Hrun Hat;
    [discriminate |].
  simpl in Hat. destruct (nth_error s i) as [n|] eqn:Hn; [| discriminate].
  destruct (mapM_nth_prefix _ _ _ _ _ _ _ Hrun Hn)
    as (n' & pre' & st1 & st2 & Hpre & Hvisit & Hn').
  pose proof (for_each_run_bodies sel body no_replace _ _ _ _ Hpre) as Hst1.
  pose proof (flat_map_nth (find_all_in sel) s i n Hn) as Hsplit.
  destruct p as [|j p].
  - injection Hat as ->.
    destruct (visit_tag_attrs _ _ _ _ _ _ Hvisit)
      as (cs' & a' & sa & -> & Hloop & _ & Hkeep & Hset).
    exists cs', a'. split; [simpl; now rewrite Hn' |].
    split; [now exists sa, st2 |]. split; [exact Hkeep |].
    intros Hsel. destruct (Hset Hsel) as (e & sb & He & ->).
    exists (find_all sel (firstn i s)),
           (flat_map (find_all_in sel) cs
            ++ flat_map (find_all_in sel) (skipn (S i) s))%list, e, sb.
    split; [| split; [now rewrite <- Hst1 | reflexivity]].
    unfold find_all at 1. rewrite Hsplit. cbn [find_all_in]. rewrite Hsel.
    reflexivity.
  - destruct n as [t | t | nm an cn]; try discriminate.
    destruct (visit_tag_attrs _ _ _ _ _ _ Hvisit)
      as (cn' & an' & sa & -> & Hloop & Hsa & _ & _).
    destruct (IH cn sa cn' st2 name a cs Hloop Hat) as (cs' & a' & Hat' & Hl & Hkeep & Hset).
    exists cs', a'. split.
    { change (subtree_at (i :: j :: p) s')
        with (match nth_error s' i with
              | Some (Tag _ _ c) => subtree_at (j :: p) c
              | _ => None
              end).
      now rewrite Hn'. }
    split; [exact Hl |]. split; [exact Hkeep |].
    intros Hsel. destruct (Hset Hsel) as (before & after & e & sb & Hfind & He & ->).
    exists (find_all sel (firstn i s)
            ++ (if sel nm an then [Tag nm an cn] else []) ++ before)%list,
           (after ++ flat_map (find_all_in sel) (skipn (S i) s))%list, e, sb.
    split; [| split; [| reflexivity]].
    + unfold find_all at 1. rewrite Hsplit. cbn [find_all_in].
      unfold find_all in Hfind. rewrite Hfind.
      repeat rewrite <- app_assoc. reflexivity.
    + rewrite !run_bodies_app, <- Hst1, <- Hsa. exact He.
Qed.
End ForEachAttrs.

(** Every tag of a tree, in document order. *)
Definition any_tag : string -> attrs -> bool := fun _ _ => true.

Definition all_tags (s : soup) : list node := find_all any_tag s.

(** A property of the name and the attributes of a tag. *)
Definition tag_has (Q : string -> attrs -> Prop) (n : node) : Prop :=
  match n with
  | Tag name a _ => Q name a
  | _ => True
  end.

Lemma Forall_flat_map_iff {A B : Type} (P : B -> Prop) (f : A -> list B) (l : list A) :
  Forall P (flat_map f l) <-> Forall (fun x => Forall P (f x)) l.
Proof.
  induction l as [|x l IH]; simpl.
  - split; constructor.
  - rewrite Forall_app, IH. split.
    + intros [Hx Hl]. now constructor.
    + intros H. inversion H; subst. now split.
Qed.

Lemma all_tags_of_tag (Q : string -> attrs -> Prop) name a cs :
  Forall (tag_has Q) (find_all_in any_tag (Tag name a cs))
  <-> Q name a /\ Forall (tag_has Q) (flat_map (find_all_in any_tag) cs).
Proof.
  cbn [find_all_in any_tag app]. split.
  - intros H. inversion H; subst. now split.
  - intros [Hq Hcs]. now constructor.
Qed.

Section ForEachTags.
Variable sel : string -> attrs -> bool.
Variable body : attrs -> M edit.
Variable Q : string -> attrs -> Prop.

(** A loop whose body does not raise on the selected tags of the tree does
    not raise. *)
Lemma visit_total_on :
  (forall name a st, sel name a = true -> Q name a -> fst (body a st) <> Raised) ->
  forall n, Forall (tag_has Q) (find_all_in any_tag n) ->
            forall st, exists n' st', visit sel body n st = (Ok n', st').
Proof.
  intros Hbody.
  induction n as [t | t | name a cs IH] using node_induction; intros Hall st.
  - now exists (Text t), st.
  - now exists (Comment t), st.
  - apply all_tags_of_tag in Hall. destruct Hall as [Hq Hcs].
    rewrite Forall_flat_map_iff in Hcs.
    assert (Forall (fun c => forall st, exists c' st',
                                visit sel body c st = (Ok c', st')) cs) as Hkids.
    { rewrite Forall_forall in *. intros c Hc. exact (IH c Hc (Hcs c Hc)). }
    simpl. unfold bind.
    destruct (sel name a) eqn:Hsel.
    + destruct (body a st) as [[e|] st1] eqn:He.
      * destruct e as [| a' | n1].
        -- destruct (mapM_total _ cs Hkids st1) as (cs' & st2 & ->). unfold ret. eauto.
        -- destruct (mapM_total _ cs Hkids st1) as (cs' & st2 & ->). unfold ret. eauto.
        -- unfold ret. eauto.
      * exfalso. apply (Hbody name a st Hsel Hq). now rewrite He.
    + destruct (mapM_total _ cs Hkids st) as (cs' & st2 & ->). unfold ret. eauto.
Qed.

Lemma for_each_total_on :
  (forall name a st, sel name a = true -> Q name a -> fst (body a st) <> Raised) ->
  forall s, Forall (tag_has Q) (all_tags s) ->
            forall st, exists s' st', for_each sel body s st = (Ok s', st').
Proof.
  intros Hbody s Hall. apply mapM_total.
  unfold all_tags, find_all in Hall. rewrite Forall_flat_map_iff in Hall.
  rewrite Forall_forall in *. intros n Hn. apply visit_total_on; auto.
Qed.

(** What an edit of the loop leaves holds of every tag after the loop. *)
Hypothesis edit_keeps :
  forall name a st e st',
    sel name a = true -> Q name a -> body a st = (Ok e, st') ->
    match e with
    | Leave => True
    | SetAttrs a' => Q name a'
    | ReplaceWith n' => Forall (tag_has Q) (find_all_in any_tag n')
    end.

Lemma mapM_keeps_tags cs :
  Forall (fun c => Forall (tag_has Q) (find_all_in any_tag c) ->
                   forall st c' st', visit sel body c st = (Ok c', st') ->
                                     Forall (tag_has Q) (find_all_in any_tag c')) cs ->
  Forall (tag_has Q) (flat_map (find_all_in any_tag) cs) ->
  forall st cs' st',
    mapM (visit sel body) cs st = (Ok cs', st') ->
    Forall (tag_has Q) (flat_map (find_all_in any_tag) cs').
Proof.
  induction 1 as [|c cs Hc _ IH]; intros Hall st cs' st' Hrun.
  - injection Hrun as <- _. constructor.
  - apply mapM_cons_ok in Hrun. destruct Hrun as (y & ys & st1 & Hy & Hys & ->).
    simpl in Hall. apply Forall_app in Hall. destruct Hall as [Hallc Hallcs].
    simpl. apply Forall_app. split.
    + exact (Hc Hallc _ _ _ Hy).
    + exact (IH Hallcs _ _ _ Hys).
Qed.

Lemma visit_keeps_tags :
  forall n, Forall (tag_has Q) (find_all_in any_tag n) ->
            forall st n' st', visit sel body n st = (Ok n', st') ->
                              Forall (tag_has Q) (find_all_in any_tag n').
Proof.
  induction n as [t | t | name a cs IH] using node_induction;
    intros Hall st n' st' Hrun.
  - injection Hrun as <- _. constructor.
  - injection Hrun as <- _. constructor.
  - pose proof (mapM_keeps_tags cs IH) as Hkids.
    apply all_tags_of_tag in Hall. destruct Hall as [Hq Hcs].
    apply visit_tag_ok in Hrun.
    destruct Hrun as [(_ & cs' & Hloop & ->) | (Hsel & e & st1 & He & Hrun)].
    + apply all_tags_of_tag. split; [exact Hq | exact (Hkids Hcs _ _ _ Hloop)].
    + pose proof (edit_keeps name a st e st1 Hsel Hq He) as Hedit.
      destruct Hrun as [(n1 & -> & -> & _) | (_ & cs' & Hloop & ->)].
      * exact Hedit.
      * destruct e as [| a' | n1]; cbn [apply_edit].
        -- apply all_tags_of_tag. split; [exact Hq | exact (Hkids Hcs _ _ _ Hloop)].
        -- apply all_tags_of_tag. split; [exact Hedit | exact (Hkids Hcs _ _ _ Hloop)].
        -- exact Hedit.
Qed.

Lemma for_each_keeps_tags s st s' st' :
  Forall (tag_has Q) (all_tags s) ->
  for_each sel body s st = (Ok s', st') ->
  Forall (tag_has Q) (all_tags s').
Proof.
  intros Hall Hrun. unfold all_tags, find_all in *.
  apply (mapM_keeps_tags s) with (st := st) (st' := st'); try assumption.
  apply Forall_forall. intros n _. apply visit_keeps_tags.
Qed.
End ForEachTags.

(** ** The inliner *)

Section InlinerFacts.
Variable E : Collab.
Variable base_url : string.

Definition image_ctype (resp : response) : string :=
  match content_type resp with Some t => t | None => "image/jpeg" end.

Definition image_ext (resp : response) (img_url : string) : string :=
  fst (sniff_image E (image_ctype resp) img_url).

Definition image_mime (resp : response) (img_url : string) : string :=
  snd (sniff_image E (image_ctype resp) img_url).

(** What pass 1 does to an image tag whose file is saved, the state left
    aside ([img_body_edit], [img_body_inlines] below). *)
Definition img_edit (a : attrs) : result edit :=
  match img_source a with
  | None => Ok Leave
  | Some ref =>
      if negb (Py.truthy ref) then Ok Leave
      else
        match urljoin E base_url ref with
        | Raised => Raised
        | Ok img_url =>
            match http_get E img_url base_url 10 with
            | Raised => Ok Leave
            | Ok resp =>
                if status resp =? 200
                then Ok (SetAttrs (attr_set a "src"
                           (data_uri (image_mime resp img_url) (content resp))))
                else Ok Leave
            end
        end
  end.

Definition link_edit (a : attrs) : result edit :=
  fst (link_body E base_url a (State [] [] 0)).

Definition script_edit (a : attrs) : result edit :=
  fst (script_body E base_url a (State [] [] 0)).

(** Lines 342-343: the path of the file of the image met at index [idx]. *)
Definition image_path (images_dir : string) (idx : nat) (resp : response)
           (img_url : string) : string :=
  Path.join images_dir ("img_" ++ Py.str_of_nat idx ++ image_ext resp img_url).

(** Pass 1 edits an image tag as [img_edit] says when the file is saved,
    and leaves the tag when it is not. *)
Lemma img_body_edit dir a st :
  fst (img_body E base_url dir a st) = img_edit a
  \/ fst (img_body E base_url dir a st) = Ok Leave.
Proof.
  unfold img_body, img_edit.
  destruct (img_source a) as [ref|]; [| now left].
  destruct (negb (Py.truthy ref)); [now left |].
  destruct (urljoin E base_url ref) as [u|]; [| now left].
  destruct (http_get E u base_url 10) as [resp|]; [| now left].
  destruct (status resp =? 200); [| now left].
  unfold image_mime, image_ctype.
  destruct (sniff_image E _ u) as [ext mime].
  destruct (file_write E _ (content resp)); [now left | now right | now right].
Qed.

Lemma img_body_inlines dir a st a' :
  fst (img_body E base_url dir a st) = Ok (SetAttrs a') ->
  img_edit a = Ok (SetAttrs a').
Proof.
  destruct (img_body_edit dir a st) as [-> | ->]; [trivial | discriminate].
Qed.

Lemma img_body_raises dir a st :
  fst (img_body E base_url dir a st) = Raised <-> img_edit a = Raised.
Proof.
  unfold img_body, img_edit.
  destruct (img_source a) as [ref|]; [| split; discriminate].
  destruct (negb (Py.truthy ref)); [split; discriminate |].
  destruct (urljoin E base_url ref) as [u|]; [| split; reflexivity].
  destruct (http_get E u base_url 10) as [resp|]; [| split; discriminate].
  destruct (status resp =? 200); [| split; discriminate].
  destruct (sniff_image E _ u) as [ext mime].
  destruct (file_write E _ (content resp)); split; discriminate.
Qed.

Lemma link_body_pure a st : link_body E base_url a st = (link_edit a, st).
Proof.
  unfold link_edit, link_body.
  destruct (attr_get a "href") as [ref|]; [| reflexivity].
  destruct (negb (Py.truthy ref)); [reflexivity |].
  unfold bind, lift.
  destruct (urljoin E base_url ref) as [u|]; [| reflexivity].
  destruct (http_get E u base_url 10) as [resp|]; [| reflexivity].
  destruct (status resp =? 200); [| reflexivity].
  destruct (text resp) as [css|]; [| reflexivity].
  destruct (negb (Py.truthy css)); [reflexivity |].
  now destruct (Py.truthy (process_css_urls E css u base_url)).
Qed.

Lemma script_body_pure a st : script_body E base_url a st = (script_edit a, st).
Proof.
  unfold script_edit, script_body.
  destruct (attr_get a "src") as [ref|]; [| reflexivity].
  destruct (negb (Py.truthy ref)); [reflexivity |].
  destruct (Py.startswith_any ref _); [reflexivity |].
  unfold bind, lift.
  destruct (urljoin E base_url ref) as [u|]; [| reflexivity].
  destruct (http_get E u base_url 10) as [resp|]; [| reflexivity].
  destruct (status resp =? 200); [| reflexivity].
  now destruct (text resp).
Qed.

Lemma img_edit_no_replace a n1 : img_edit a <> Ok (ReplaceWith n1).
Proof.
  unfold img_edit.
  destruct (img_source a) as [ref|]; [| discriminate].
  destruct (negb (Py.truthy ref)); [discriminate |].
  destruct (urljoin E base_url ref) as [u|]; [| discriminate].
  destruct (http_get E u base_url 10) as [resp|]; [| discriminate].
  destruct (status resp =? 200); discriminate.
Qed.

Lemma img_body_no_replace dir a st n1 :
  fst (img_body E base_url dir a st) <> Ok (ReplaceWith n1).
Proof.
  destruct (img_body_edit dir a st) as [-> | ->];
    [apply img_edit_no_replace | discriminate].
Qed.

Lemma link_edit_replace a n1 :
  link_edit a = Ok (ReplaceWith n1) ->
  exists css, n1 = Tag "style" [] [Text css].
Proof.
  unfold link_edit, link_body.
  destruct (attr_get a "href") as [ref|]; [| discriminate].
  destruct (negb (Py.truthy ref)); [discriminate |].
  unfold bind, lift.
  destruct (urljoin E base_url ref) as [u|]; [| discriminate].
  destruct (http_get E u base_url 10) as [resp|]; [| discriminate].
  destruct (status resp =? 200); [| discriminate].
  destruct (text resp) as [css|]; [| discriminate].
  destruct (negb (Py.truthy css)); [discriminate |].
  destruct (Py.truthy (process_css_urls E css u base_url)); [| discriminate].
  intros [= <-]. eauto.
Qed.

Lemma script_edit_replace a n1 :
  script_edit a = Ok (ReplaceWith n1) ->
  exists kept js, n1 = Tag "script" kept [Text js].
Proof.
  unfold script_edit, script_body.
  destruct (attr_get a "src") as [ref|]; [| discriminate].
  destruct (negb (Py.truthy ref)); [discriminate |].
  destruct (Py.startswith_any ref _); [discriminate |].
  unfold bind, lift.
  destruct (urljoin E base_url ref) as [u|]; [| discriminate].
  destruct (http_get E u base_url 10) as [resp|]; [| discriminate].
  destruct (status resp =? 200); [| discriminate].
  destruct (text resp) as [js|]; [| discriminate].
  intros [= <-]. eauto.
Qed.

(** The node in the place of [Tag name _ _] when the three passes are
    over, [a1] being its attributes after pass 1 and [cs'] what its
    contents have become. *)
Definition final_node (name : string) (a1 : attrs) (cs' : list node) : node :=
  if is_stylesheet_link name a1 then
    match link_edit a1 with
    | Ok (ReplaceWith n) => n
    | _ => Tag name a1 cs'
    end
  else after_loop is_src_script script_edit name a1 cs'.

(** [enumerate] counts every image tag, whatever becomes of it. *)
Lemma img_body_index dir a st :
  img_index (snd (img_body E base_url dir a st)) = S (img_index st).
Proof.
  unfold img_body.
  destruct (img_source a) as [ref|]; [| reflexivity].
  destruct (negb (Py.truthy ref)); [reflexivity |].
  destruct (urljoin E base_url ref) as [u|]; [| reflexivity].
  destruct (http_get E u base_url 10) as [resp|]; [| reflexivity].
  destruct (status resp =? 200); [| reflexivity].
  destruct (sniff_image E _ u) as [ext mime].
  now destruct (file_write E _ (content resp)).
Qed.

Lemma img_index_run_bodies dir ns st :
  img_index (run_bodies (img_body E base_url dir) ns st)
  = img_index st + List.length ns.
Proof.
  revert st. induction ns as [|n ns IH]; intros st.
  - simpl. now rewrite Nat.add_0_r.
  - change (run_bodies (img_body E base_url dir) (n :: ns) st)
      with (run_bodies (img_body E base_url dir) ns
              (snd (img_body E base_url dir (attrs_of n) st))).
    rewrite IH, img_body_index. simpl. now rewrite Nat.add_succ_r.
Qed.

(** The three passes, from the parsed tree [s] to the tree [s3] that is
    serialized. *)
Definition passes (page_dir : string) (s : soup) (st0 : state)
           (s3 : soup) (st1 : state) : Prop :=
  exists s1 s2,
    for_each (named "img") (img_body E base_url (Path.join page_dir "images")) s st0
    = (Ok s1, st1)
    /\ for_each is_stylesheet_link (link_body E base_url) s1 st1 = (Ok s2, st1)
    /\ for_each is_src_script (script_body E base_url) s2 st1 = (Ok s3, st1).

Lemma inline_soup_passes page_dir s st0 s3 st' :
  inline_soup E base_url page_dir s st0 = (Ok s3, st') ->
  passes page_dir s st0 s3 st'.
Proof.
  unfold inline_soup. intros H.
  apply bind_ok in H. destruct H as (s1 & st1 & H1 & H).
  apply bind_ok in H. destruct H as (s2 & st2 & H2 & H3).
  assert (st2 = st1) as ->.
  { pose proof (for_each_state is_stylesheet_link (link_body E base_url)) as Hst.
    specialize (Hst (fun a st => f_equal snd (link_body_pure a st)) s1 st1).
    now rewrite H2 in Hst. }
  assert (st' = st1) as ->.
  { pose proof (for_each_state is_src_script (script_body E base_url)) as Hst.
    specialize (Hst (fun a st => f_equal snd (script_body_pure a st)) s2 st1).
    now rewrite H3 in Hst. }
  now exists s1, s2.
Qed.

(** A run that did not raise. *)
Lemma inline_document_ok html page_dir st0 out imgs st' :
  inline_document E base_url html page_dir st0 = (Ok (out, imgs), st') ->
  exists s s3,
    parse E html = Ok s
    /\ inline_soup E base_url page_dir s st0 = (Ok s3, st')
    /\ out = serialize E s3 /\ imgs = downloaded_images st'.
Proof.
  unfold inline_document. intros H.
  apply bind_ok in H. destruct H as (s & sa & Hparse & H).
  unfold lift in Hparse. injection Hparse as Hparse <-.
  apply bind_ok in H. destruct H as (s3 & st3 & H3 & H).
  injection H as <- <- <-.
  now exists s, s3.
Qed.

Lemma is_stylesheet_link_name name a :
  is_stylesheet_link name a = true -> name = "link".
Proof.
  unfold is_stylesheet_link. intros H. apply andb_prop in H.
  now apply String.eqb_eq.
Qed.

Lemma is_src_script_name name a :
  is_src_script name a = true -> name = "script".
Proof.
  unfold is_src_script. intros H. apply andb_prop in H.
  now apply String.eqb_eq.
Qed.

Definition leaves (cs : list node) : bool :=
  forallb (fun c => negb (is_tag c)) cs.

(** The three passes at a path of a parsed tree. *)
Lemma inline_at page_dir st0 st1 s s3 p name a cs :
  passes page_dir s st0 s3 st1 ->
  forallb parser_shape s = true ->
  subtree_at p s = Some (Tag name a cs) ->
  exists cs' a1,
    subtree_at p s3 = Some (final_node name a1 cs')
    /\ (leaves cs = true -> cs' = cs)
    /\ (String.eqb name "img" = false -> a1 = a)
    /\ (String.eqb name "img" = true ->
        exists before after e sb,
          find_all (named "img") s = (before ++ Tag name a cs :: after)%list
          /\ img_body E base_url (Path.join page_dir "images") a
               (run_bodies (img_body E base_url (Path.join page_dir "images")) before st0)
             = (Ok e, sb)
          /\ a1 = attrs_edit a e)
    /\ (is_stylesheet_link name a = true -> link_edit a <> Raised)
    /\ (is_src_script name a = true -> script_edit a <> Raised).
Proof.
  intros (s1 & s2 & H1 & H2 & H3) Hshape Hat.
  set (body1 := img_body E base_url (Path.join page_dir "images")) in *.
  set (body2 := link_body E base_url) in *.
  set (body3 := script_body E base_url) in *.
  assert (forall a st, fst (body2 a st) = link_edit a) as Hact2
      by (intros; unfold body2; now rewrite link_body_pure).
  assert (forall a st, fst (body3 a st) = script_edit a) as Hact3
      by (intros; unfold body3; now rewrite script_body_pure).
  assert (forall a st n1, fst (body1 a st) <> Ok (ReplaceWith n1)) as Hno1
      by (intros; apply img_body_no_replace).
  assert (forall nm an n1, is_stylesheet_link nm an = true ->
                           link_edit an = Ok (ReplaceWith n1) ->
                           closed_name nm = true) as Hclosed2.
  { intros nm an n1 Hs _. now rewrite (is_stylesheet_link_name nm an Hs). }
  assert (forall nm an n1, is_src_script nm an = true ->
                           script_edit an = Ok (ReplaceWith n1) ->
                           closed_name nm = true) as Hclosed3.
  { intros nm an n1 Hs _. now rewrite (is_src_script_name nm an Hs). }
  (* pass 1 *)
  destruct (for_each_attrs_at (named "img") body1 Hno1
              p s st0 s1 st1 name a cs H1 Hat) as (cs1 & a1 & Hat1 & Hl1 & Hkeep1 & Hset1).
  assert (forallb parser_shape s1 = true) as Hshape1.
  { apply (for_each_shape (named "img") body1) with (s := s) (st := st0) (st' := st1);
      try assumption.
    intros a0 sa n1 sb Hb. exfalso. apply (Hno1 a0 sa n1). now rewrite Hb. }
  (* pass 2 *)
  destruct (for_each_at is_stylesheet_link body2 link_edit Hact2 Hclosed2
              p s1 st1 s2 st1 name a1 cs1 Hshape1 H2 Hat1) as (cs2 & Hat2 & Hl2 & Hok2).
  assert (forallb parser_shape s2 = true) as Hshape2.
  { apply (for_each_shape is_stylesheet_link body2) with (s := s1) (st := st1) (st' := st1);
      try assumption.
    intros a0 sa n1 sb Hb. unfold body2 in Hb. rewrite link_body_pure in Hb.
    injection Hb as Hb _.
    apply link_edit_replace in Hb. destruct Hb as (css & ->). now split. }
  (* pass 3 *)
  pose proof (for_each_at is_src_script body3 script_edit Hact3 Hclosed3
                p s2 st1 s3 st1) as Hpass3.
  assert (String.eqb name "img" = false -> a1 = a) as Ha1.
  { intros Hn. now apply Hkeep1. }
  assert (String.eqb name "img" = true ->
          exists before after e sb,
            find_all (named "img") s = (before ++ Tag name a cs :: after)%list
            /\ body1 a (run_bodies body1 before st0) = (Ok e, sb)
            /\ a1 = attrs_edit a e) as Himg.
  { intros Hn. now apply Hset1. }
  assert (is_stylesheet_link name a = true -> link_edit a <> Raised) as Hfine2.
  { intros Hs. pose proof (is_stylesheet_link_name _ _ Hs) as ->.
    rewrite (Ha1 eq_refl) in Hok2. now apply Hok2. }
  assert (is_src_script name a = true -> a1 = a
                                          /\ is_stylesheet_link name a1 = false) as Hscr.
  { intros Hs. pose proof (is_src_script_name _ _ Hs) as ->. now rewrite (Ha1 eq_refl). }
  unfold after_loop at 1 in Hat2.
  destruct (is_stylesheet_link name a1) eqn:Hlink.
  - pose proof (is_stylesheet_link_name _ _ Hlink) as ->.
    assert (forall an cs2' cs3,
               looped (named "img") body1 cs cs1 ->
               looped is_stylesheet_link body2 cs1 cs2' ->
               (exists n1, is_src_script "link" an = true
                           /\ script_edit an = Ok (ReplaceWith n1))
               \/ looped is_src_script body3 cs2' cs3 ->
               leaves cs = true -> cs3 = cs) as Hsame.
    { intros an cs2' cs3 La Lb [(n1 & Hs & _) | Lc] Hleaves; [discriminate |].
      apply looped_leaves in La; [subst cs1 | exact Hleaves].
      apply looped_leaves in Lb; [subst cs2' | exact Hleaves].
      apply looped_leaves in Lc; [exact Lc | exact Hleaves]. }
    destruct (link_edit a1) as [[| a' | n1]|] eqn:Hedit; simpl in Hat2.
    + destruct Hl2 as [(n1 & _ & Hl2) | Hl2]; [discriminate |].
      destruct (Hpass3 "link" a1 cs2 Hshape2 H3 Hat2) as (cs3 & Hat3 & Hl3 & Hok3).
      exists cs3, a1.
      split; [unfold final_node; rewrite Hlink, Hedit; exact Hat3 |].
      split; [eapply Hsame; eassumption |].
      split; [exact Ha1 |]. split; [exact Himg |]. split; [exact Hfine2 |].
      intros Hs. destruct (Hscr Hs). congruence.
    + exfalso. clear -Hedit. unfold link_edit, link_body in Hedit.
      destruct (attr_get a1 "href") as [ref|]; [| discriminate].
      destruct (negb (Py.truthy ref)); [discriminate |].
      unfold bind, lift in Hedit.
      destruct (urljoin E base_url ref) as [u|]; [| discriminate].
      destruct (http_get E u base_url 10) as [resp|]; [| discriminate].
      destruct (status resp =? 200); [| discriminate].
      destruct (text resp) as [css|]; [| discriminate].
      destruct (negb (Py.truthy css)); [discriminate |].
      destruct (Py.truthy (process_css_urls E css u base_url)); discriminate.
    + destruct (link_edit_replace _ _ Hedit) as (css & ->).
      destruct (Hpass3 "style" [] [Text css] Hshape2 H3 Hat2) as (cs3 & Hat3 & Hl3 & Hok3).
      exists cs, a1.
      split.
      { unfold final_node. rewrite Hlink, Hedit.
        destruct Hl3 as [(n1 & Hs & _) | Hl3]; [discriminate |].
        apply looped_leaves in Hl3; [subst cs3 | reflexivity]. exact Hat3. }
      split; [reflexivity |].
      split; [exact Ha1 |]. split; [exact Himg |]. split; [exact Hfine2 |].
      intros Hs. destruct (Hscr Hs). congruence.
    + destruct Hl2 as [(n1 & _ & Hl2) | Hl2]; [discriminate |].
      destruct (Hpass3 "link" a1 cs2 Hshape2 H3 Hat2) as (cs3 & Hat3 & Hl3 & Hok3).
      exists cs3, a1.
      split; [unfold final_node; rewrite Hlink, Hedit; exact Hat3 |].
      split; [eapply Hsame; eassumption |].
      split; [exact Ha1 |]. split; [exact Himg |]. split; [exact Hfine2 |].
      intros Hs. destruct (Hscr Hs). congruence.
  - destruct Hl2 as [(n1 & Hl2 & _) | Hl2]; [congruence |].
    destruct (Hpass3 name a1 cs2 Hshape2 H3 Hat2) as (cs3 & Hat3 & Hl3 & Hok3).
    destruct Hl3 as [(n1 & Hs & Hedit) | Hl3].
    + exists cs, a1.
      split; [unfold final_node; rewrite Hlink;
              now rewrite (after_loop_replaced is_src_script script_edit
                             name a1 n1 cs cs3 Hs Hedit) |].
      split; [reflexivity |].
      split; [exact Ha1 |]. split; [exact Himg |]. split; [exact Hfine2 |].
      intros Hs'. destruct (Hscr Hs') as [Hsa _]. rewrite Hsa in Hok3. now apply Hok3.
    + exists cs3, a1.
      split; [unfold final_node; rewrite Hlink; exact Hat3 |].
      split.
      { intros Hleaves.
        apply looped_leaves in Hl1; [subst cs1 | exact Hleaves].
        apply looped_leaves in Hl2; [subst cs2 | exact Hleaves].
        apply looped_leaves in Hl3; [exact Hl3 | exact Hleaves]. }
      split; [exact Ha1 |]. split; [exact Himg |]. split; [exact Hfine2 |].
      intros Hs'. destruct (Hscr Hs') as [Hsa _]. rewrite Hsa in Hok3. now apply Hok3.
Qed.
End InlinerFacts.

(** ** Every reference in fetched CSS *)

Section CssOutcomes.
Variable E : Collab.
Variables css_url referer : string.

(** What becomes of one [url(...)] match of the text [css]. *)
Inductive css_outcome (css : string) (m : Re.match_obj) : string -> Prop :=
| css_inlined u resp :
    Re.group1 css m = Some u ->
    css_fetch_ok E css_url referer u resp ->
    css_outcome css m (css_data_url (css_mime resp) (content resp))
| css_kept_failed u :
    Re.group1 css m = Some u ->
    css_fetch_fails E css_url referer u ->
    css_outcome css m (Re.group0 css m)
| css_kept_absolute u :
    Re.group1 css m = Some u ->
    Py.startswith_any u ["data:"; "http://"; "https://"] = true ->
    css_outcome css m (Re.group0 css m)
| css_kept_no_reference :
    Re.group1 css m = None \/ Re.group1 css m = Some EmptyString ->
    css_outcome css m (Re.group0 css m).

Lemma replacement_outcome css m :
  css_outcome css m (replacement E css_url referer css m).
Proof.
  destruct (Re.group1 css m) as [u|] eqn:Hg.
  2:{ unfold replacement, replace_url. rewrite Hg. apply css_kept_no_reference. now left. }
  destruct u as [|c u'] eqn:Hu.
  { unfold replacement, replace_url. rewrite Hg. simpl.
    apply css_kept_no_reference. now right. }
  rewrite <- Hu in *. assert (u <> EmptyString) as Hne by (subst u; discriminate).
  clear Hu.
  destruct (Py.startswith_any u ["data:"; "http://"; "https://"]) eqn:Hskip.
  { rewrite (replacement_skipped E css_url referer css m u Hg Hskip).
    now apply css_kept_absolute with u. }
  assert (css_fetched u) as Hf by now split.
  destruct (urljoin E css_url u) as [full|] eqn:Hjoin.
  2:{ rewrite (replacement_fails E css_url referer css m u Hg).
      - now apply css_kept_failed with u; [| split; [| left]].
      - split; [exact Hf | now left]. }
  destruct (http_get E full referer 5) as [resp|] eqn:Hget.
  2:{ assert (css_fetch_fails E css_url referer u) as Hfail.
      { split; [exact Hf |]. right. exists full. split; [exact Hjoin | now left]. }
      rewrite (replacement_fails E css_url referer css m u Hg Hfail).
      now apply css_kept_failed with u. }
  destruct (status resp =? 200) eqn:Hst.
  - apply Nat.eqb_eq in Hst.
    assert (css_fetch_ok E css_url referer u resp) as Hok.
    { split; [exact Hf |]. now exists full. }
    rewrite (replacement_ok E css_url referer css m u resp Hg Hok).
    now apply css_inlined with u.
  - apply Nat.eqb_neq in Hst.
    assert (css_fetch_fails E css_url referer u) as Hfail.
    { split; [exact Hf |]. right. exists full. split; [exact Hjoin |].
      right. now exists resp. }
    rewrite (replacement_fails E css_url referer css m u Hg Hfail).
    now apply css_kept_failed with u.
Qed.

(** The rewritten text, match by match. *)
Lemma process_css_urls_outcomes (css : string) :
  exists rs,
    process_css_urls E css css_url referer
    = Py.concat (rebuild css 0 (combine (Re.finditer url_pattern css) rs))
    /\ Forall2 (css_outcome css) (Re.finditer url_pattern css) rs.
Proof.
  exists (map (replacement E css_url referer css) (Re.finditer url_pattern css)).
  split; [apply process_css_urls_rebuilds |].
  induction (Re.finditer url_pattern css) as [|m ms IH]; simpl; constructor.
  - apply replacement_outcome.
  - exact IH.
Qed.

Lemma truthy_app (a b : string) : Py.truthy (a ++ b) = Py.truthy a || Py.truthy b.
Proof. now destruct a. Qed.

Lemma replacement_truthy css m :
  replacement E css_url referer css m = Re.group0 css m
  \/ Py.truthy (replacement E css_url referer css m) = true.
Proof.
  destruct (replacement_outcome css m); try (now left). now right.
Qed.

Lemma rebuild_truthy css ms last :
  ordered last (String.length css) ms ->
  Py.truthy (Py.drop last css) = true ->
  Py.truthy (Py.concat (rebuild css last
               (combine ms (map (replacement E css_url referer css) ms)))) = true.
Proof.
  revert last. induction ms as [|m ms IH]; intros last; simpl.
  - intros _ H. now rewrite append_empty_r.
  - intros (H1 & H2 & H3 & H4) Hlast.
    change (Py.concat (?a :: ?b :: ?l)) with (a ++ b ++ Py.concat l).
    rewrite !truthy_app.
    destruct (replacement_truthy css m) as [-> | ->];
      [| now rewrite orb_true_r].
    destruct (Py.truthy (Py.drop (Re.m_end m) css)) eqn:Hrest.
    + rewrite (IH _ H4 Hrest). now rewrite !orb_true_r.
    + rewrite <- (slice_drop last (Re.m_start m) css H1) in Hlast.
      rewrite <- (slice_drop (Re.m_start m) (Re.m_end m) css H2) in Hlast.
      rewrite !truthy_app, Hrest, orb_false_r in Hlast.
      unfold Re.group0. rewrite orb_assoc, Hlast. reflexivity.
Qed.

(** Non-empty CSS stays non-empty: the second emptiness test of pass 2
    never sends a fetched stylesheet back. *)
Lemma process_css_urls_truthy css :
  Py.truthy css = true -> Py.truthy (process_css_urls E css css_url referer) = true.
Proof.
  intros Hcss. rewrite process_css_urls_rebuilds. cbv zeta.
  apply rebuild_truthy; [apply finditer_ordered | exact Hcss].
Qed.
End CssOutcomes.

(** ** What becomes of every resource reference *)

Section Outcomes.
Variable E : Collab.
Variable base_url : string.

(** The reference [ref] is fetched: it resolves to [u] and the request
    answers [resp] with status 200. *)
Definition fetched (ref u : string) (resp : response) : Prop :=
  urljoin E base_url ref = Ok u
  /\ http_get E u base_url 10 = Ok resp
  /\ status resp = 200.

(** The fetch of [ref] fails: the request raises, the status is not 200,
    or, where the body is read as text, it cannot be decoded. *)
Definition fetch_fails (as_text : bool) (ref : string) : Prop :=
  exists u, urljoin E base_url ref = Ok u
            /\ (http_get E u base_url 10 = Raised
                \/ exists resp, http_get E u base_url 10 = Ok resp
                                /\ (status resp <> 200
                                    \/ (as_text = true /\ text resp = Raised))).

(** The reference a pass fetches for a tag, and whether it is read as
    text: none for a tag no pass selects, for a missing or empty
    attribute, and for a [data:] or [javascript:] script source. *)
Definition reference (name : string) (a : attrs) : option (string * bool) :=
  if String.eqb name "img" then
    match img_source a with
    | Some ref => if Py.truthy ref then Some (ref, false) else None
    | None => None
    end
  else if is_stylesheet_link name a then
    match attr_get a "href" with
    | Some ref => if Py.truthy ref then Some (ref, true) else None
    | None => None
    end
  else if is_src_script name a then
    match attr_get a "src" with
    | Some ref =>
        if Py.truthy ref && negb (Py.startswith_any ref ["data:"; "javascript:"])
        then Some (ref, true) else None
    | None => None
    end
  else None.

Definition without_src (a : attrs) : attrs :=
  filter (fun kv => negb (String.eqb (fst kv) "src")) a.

(** The node that stands for [Tag name a _] in the returned document,
    the images being saved in [images_dir]; for an image tag [idx] is the
    index that [enumerate] gave it. *)
Inductive outcome (images_dir : string) (idx : nat) (name : string) (a : attrs)
          (cs' : list node) : node -> Prop :=
| image_inlined ref u resp :
    reference name a = Some (ref, false) -> name = "img" ->
    fetched ref u resp ->
    file_write E (image_path E images_dir idx resp u) (content resp) = Written ->
    outcome images_dir idx name a cs'
      (Tag name (attr_set a "src" (data_uri (image_mime E resp u) (content resp))) cs')
| stylesheet_inlined ref u resp css :
    reference name a = Some (ref, true) -> name = "link" ->
    fetched ref u resp -> text resp = Ok css -> css <> EmptyString ->
    outcome images_dir idx name a cs'
      (Tag "style" [] [Text (process_css_urls E css u base_url)])
| script_inlined ref u resp js :
    reference name a = Some (ref, true) -> name = "script" ->
    fetched ref u resp -> text resp = Ok js ->
    outcome images_dir idx name a cs' (Tag "script" (without_src a) [Text js])
| kept_fetch_failed ref as_text :
    reference name a = Some (ref, as_text) ->
    fetch_fails as_text ref ->
    outcome images_dir idx name a cs' (Tag name a cs')
| kept_not_saved ref u resp :
    reference name a = Some (ref, false) -> name = "img" ->
    fetched ref u resp ->
    file_write E (image_path E images_dir idx resp u) (content resp) <> Written ->
    outcome images_dir idx name a cs' (Tag name a cs')
| kept_empty_stylesheet ref u resp :
    reference name a = Some (ref, true) -> name = "link" ->
    fetched ref u resp -> text resp = Ok EmptyString ->
    outcome images_dir idx name a cs' (Tag name a cs')
| kept_not_fetched :
    reference name a = None ->
    outcome images_dir idx name a cs' (Tag name a cs').

Lemma truthy_false (s : string) : Py.truthy s = false -> s = EmptyString.
Proof. destruct s; [reflexivity | discriminate]. Qed.

Lemma truthy_true (s : string) : Py.truthy s = true -> s <> EmptyString.
Proof. destruct s; [discriminate | discriminate]. Qed.

(** An image tag after pass 1. *)
Lemma img_outcome dir a cs' sa sb e :
  img_body E base_url dir a sa = (Ok e, sb) ->
  outcome dir (img_index sa) "img" a cs' (Tag "img" (attrs_edit a e) cs').
Proof.
  unfold img_body.
  destruct (img_source a) as [ref|] eqn:Hsrc.
  2:{ intros [= <- _]. apply kept_not_fetched. unfold reference. simpl. now rewrite Hsrc. }
  destruct (Py.truthy ref) eqn:Href; cbn [negb].
  2:{ intros [= <- _]. apply kept_not_fetched. unfold reference. simpl.
      now rewrite Hsrc, Href. }
  assert (reference "img" a = Some (ref, false)) as Hr
      by (unfold reference; simpl; now rewrite Hsrc, Href).
  destruct (urljoin E base_url ref) as [u|] eqn:Hjoin; [| discriminate].
  destruct (http_get E u base_url 10) as [resp|] eqn:Hget.
  2:{ intros [= <- _]. apply kept_fetch_failed with ref false; [exact Hr |].
      exists u. split; [exact Hjoin | now left]. }
  destruct (status resp =? 200) eqn:Hst.
  2:{ intros [= <- _]. apply Nat.eqb_neq in Hst.
      apply kept_fetch_failed with ref false; [exact Hr |].
      exists u. split; [exact Hjoin |]. right. exists resp.
      split; [exact Hget | now left]. }
  apply Nat.eqb_eq in Hst.
  assert (fetched ref u resp) as Hf by (now split).
  pose proof (eq_refl : image_path E dir (img_index sa) resp u
                        = Path.join dir ("img_" ++ Py.str_of_nat (img_index sa)
                                                ++ image_ext E resp u)) as Hpath.
  unfold image_ext, image_ctype in Hpath.
  pose proof (eq_refl : image_mime E resp u = snd (sniff_image E (image_ctype resp) u))
    as Hmime.
  unfold image_ctype in Hmime.
  destruct (sniff_image E _ u) as [ext mime]. cbn [fst snd] in Hpath, Hmime.
  rewrite <- Hpath.
  destruct (file_write E _ (content resp)) eqn:Hw; intros [= <- _]; cbn [attrs_edit].
  - rewrite <- Hmime. now apply image_inlined with ref.
  - apply kept_not_saved with ref u resp; try assumption;
      [reflexivity | now rewrite Hw].
  - apply kept_not_saved with ref u resp; try assumption;
      [reflexivity | now rewrite Hw].
Qed.

(** A stylesheet link after pass 2. *)
Lemma link_outcome dir idx name a cs' :
  is_stylesheet_link name a = true ->
  link_edit E base_url a <> Raised ->
  outcome dir idx name a cs'
          match link_edit E base_url a with
          | Ok (ReplaceWith n) => n
          | _ => Tag name a cs'
          end.
Proof.
  intros Hsel. pose proof (is_stylesheet_link_name name a Hsel) as Hname.
  assert (reference name a =
          match attr_get a "href" with
          | Some ref => if Py.truthy ref then Some (ref, true) else None
          | None => None
          end) as Href.
  { unfold reference. rewrite Hsel. now subst name. }
  unfold link_edit, link_body.
  destruct (attr_get a "href") as [ref|] eqn:Hhref.
  2:{ intros _. now apply kept_not_fetched. }
  destruct (Py.truthy ref) eqn:Htr; simpl.
  2:{ intros _. now apply kept_not_fetched. }
  unfold bind, lift.
  destruct (urljoin E base_url ref) as [u|] eqn:Hjoin;
    [| simpl; intros H; now elim H].
  intros _.
  destruct (http_get E u base_url 10) as [resp|] eqn:Hget; simpl.
  2:{ apply kept_fetch_failed with ref true; [exact Href |].
      exists u. split; [exact Hjoin | now left]. }
  destruct (status resp =? 200) eqn:Hst; simpl.
  2:{ apply Nat.eqb_neq in Hst.
      apply kept_fetch_failed with ref true; [exact Href |].
      exists u. split; [exact Hjoin |]. right. exists resp. split; [exact Hget | now left]. }
  apply Nat.eqb_eq in Hst.
  destruct (text resp) as [css|] eqn:Htext; simpl.
  2:{ apply kept_fetch_failed with ref true; [exact Href |].
      exists u. split; [exact Hjoin |]. right. exists resp.
      split; [exact Hget | right; now split]. }
  destruct (Py.truthy css) eqn:Hcss; simpl.
  - rewrite (process_css_urls_truthy E u base_url css Hcss). simpl.
    apply stylesheet_inlined with ref resp; try assumption.
    + now split.
    + now apply truthy_true.
  - apply truthy_false in Hcss. subst css.
    now apply kept_empty_stylesheet with ref u resp.
Qed.

(** A script tag with a source after pass 3. *)
Lemma script_outcome dir idx name a cs' :
  is_stylesheet_link name a = false ->
  is_src_script name a = true ->
  script_edit E base_url a <> Raised ->
  outcome dir idx name a cs'
          match script_edit E base_url a with
          | Ok e => apply_edit name a cs' e
          | Raised => Tag name a cs'
          end.
Proof.
  intros Hlink Hsel. pose proof (is_src_script_name name a Hsel) as Hname.
  assert (reference name a =
          match attr_get a "src" with
          | Some ref =>
              if Py.truthy ref && negb (Py.startswith_any ref ["data:"; "javascript:"])
              then Some (ref, true) else None
          | None => None
          end) as Href.
  { unfold reference. rewrite Hlink, Hsel. now subst name. }
  unfold script_edit, script_body.
  destruct (attr_get a "src") as [ref|] eqn:Hsrc.
  2:{ intros _. now apply kept_not_fetched. }
  destruct (Py.truthy ref) eqn:Htr; cbn [negb andb] in *.
  2:{ intros _. now apply kept_not_fetched. }
  destruct (Py.startswith_any ref ["data:"; "javascript:"]) eqn:Hpseudo;
    cbn [negb] in *.
  { intros _. now apply kept_not_fetched. }
  unfold bind, lift.
  destruct (urljoin E base_url ref) as [u|] eqn:Hjoin;
    [| simpl; intros H; now elim H].
  intros _.
  destruct (http_get E u base_url 10) as [resp|] eqn:Hget; simpl.
  2:{ apply kept_fetch_failed with ref true; [exact Href |].
      exists u. split; [exact Hjoin | now left]. }
  destruct (status resp =? 200) eqn:Hst; simpl.
  2:{ apply Nat.eqb_neq in Hst.
      apply kept_fetch_failed with ref true; [exact Href |].
      exists u. split; [exact Hjoin |]. right. exists resp. split; [exact Hget | now left]. }
  apply Nat.eqb_eq in Hst.
  destruct (text resp) as [js|] eqn:Htext; simpl.
  2:{ apply kept_fetch_failed with ref true; [exact Href |].
      exists u. split; [exact Hjoin |]. right. exists resp.
      split; [exact Hget | right; now split]. }
  apply script_inlined with ref u resp; try assumption. now split.
Qed.

(** The node after the three passes is one of the outcomes. *)
Lemma final_node_outcome dir idx name a a1 cs' :
  (String.eqb name "img" = false -> a1 = a) ->
  (String.eqb name "img" = true ->
   exists sa sb e, img_body E base_url dir a sa = (Ok e, sb)
                   /\ img_index sa = idx /\ a1 = attrs_edit a e) ->
  (is_stylesheet_link name a = true -> link_edit E base_url a <> Raised) ->
  (is_src_script name a = true -> script_edit E base_url a <> Raised) ->
  outcome dir idx name a cs' (final_node E base_url name a1 cs').
Proof.
  intros Hkeep Himg Hlink Hscript. unfold final_node.
  destruct (String.eqb name "img") eqn:Hn.
  - apply String.eqb_eq in Hn. subst name.
    change (is_stylesheet_link "img" ?x) with false. cbv iota.
    unfold after_loop. change (is_src_script "img" ?x) with false. cbv iota.
    destruct (Himg eq_refl) as (sa & sb & e & He & <- & ->).
    exact (img_outcome dir a cs' sa sb e He).
  - rewrite (Hkeep eq_refl).
    destruct (is_stylesheet_link name a) eqn:Hl.
    + apply link_outcome; [exact Hl | now apply Hlink].
    + unfold after_loop. destruct (is_src_script name a) eqn:Hs.
      * apply script_outcome; [exact Hl | exact Hs | now apply Hscript].
      * apply kept_not_fetched. unfold reference. now rewrite Hn, Hl, Hs.
Qed.
End Outcomes.

(** ** The inliner as a whole *)

Section InlinerClaims.
Variable E : Collab.
Variable base_url : string.

(** The two ways the function returns. *)
Lemma download_cases html page_dir d out imgs d' :
  download_resources_and_update_html E base_url html page_dir d = ((out, imgs), d') ->
  (exists st, inline_document E base_url html page_dir (State d [] 0) = (Raised, st)
              /\ (out, imgs) = (html, []) /\ d' = files st)
  \/ (exists s s3 st,
         parse E html = Ok s
         /\ inline_soup E base_url page_dir s (State d [] 0) = (Ok s3, st)
         /\ out = serialize E s3 /\ imgs = downloaded_images st /\ d' = files st).
Proof.
  unfold download_resources_and_update_html.
  destruct (inline_document E base_url html page_dir (State d [] 0))
    as [[[o i]|] st] eqn:Hrun; intros [= <- <- <-].
  - right. apply inline_document_ok in Hrun.
    destruct Hrun as (s & s3 & Hp & Hs & -> & ->). now exists s, s3, st.
  - left. now exists st.
Qed.

Lemma subtree_at_shape p :
  forall s n, forallb parser_shape s = true -> subtree_at p s = Some n ->
              parser_shape n = true.
Proof.
  induction p as [|i p IH]; intros s n Hshape Hat; [discriminate |].
  simpl in Hat. destruct (nth_error s i) as [c|] eqn:Hc; [| discriminate].
  assert (parser_shape c = true) as Hsc.
  { rewrite forallb_forall in Hshape. apply Hshape. eapply nth_error_In. exact Hc. }
  destruct p as [|j p]; [now injection Hat as <- |].
  destruct c as [t | t | nm an cn]; try discriminate.
  simpl in Hsc. apply andb_prop in Hsc. destruct Hsc as [_ Hkids].
  exact (IH cn n Hkids Hat).
Qed.

(** The node at a path of the returned tree; an image tag has the index
    of its place among the image tags of the document. *)
Lemma inline_soup_at page_dir s st0 s3 st1 p name a cs :
  inline_soup E base_url page_dir s st0 = (Ok s3, st1) ->
  forallb parser_shape s = true ->
  subtree_at p s = Some (Tag name a cs) ->
  exists cs' n' idx,
    subtree_at p s3 = Some n'
    /\ outcome E base_url (Path.join page_dir "images") idx name a cs' n'
    /\ (leaves cs = true -> cs' = cs)
    /\ (name = "img" ->
        exists before after,
          find_all (named "img") s = (before ++ Tag name a cs :: after)%list
          /\ idx = img_index st0 + List.length before).
Proof.
  intros Hrun Hshape Hat. apply inline_soup_passes in Hrun.
  destruct (inline_at E base_url page_dir st0 st1 s s3 p name a cs Hrun Hshape Hat)
    as (cs' & a1 & Hat' & Hleaves & Hkeep & Hi & Hl & Hs).
  assert (String.eqb name "img" = true \/ String.eqb name "img" = false) as [Hn | Hn]
      by (destruct (String.eqb name "img"); auto).
  - destruct (Hi Hn) as (before & after & e & sb & Hfind & He & Ha1).
    exists cs', (final_node E base_url name a1 cs'),
           (img_index st0 + List.length before).
    split; [exact Hat' |]. split; [| split; [exact Hleaves |]].
    + apply final_node_outcome; try assumption.
      intros _. eexists. exists sb, e. split; [exact He |].
      split; [apply img_index_run_bodies | exact Ha1].
    + intros _. now exists before, after.
  - exists cs', (final_node E base_url name a1 cs'), 0.
    split; [exact Hat' |]. split; [| split; [exact Hleaves |]].
    + apply final_node_outcome; try assumption. intros H. congruence.
    + intros ->. discriminate Hn.
Qed.

Lemma fetched_not_failed ref u resp t :
  fetched E base_url ref u resp ->
  (t = true -> text resp <> Raised) ->
  ~ fetch_fails E base_url t ref.
Proof.
  intros (Hjoin & Hget & Hst) Htext (u' & Hjoin' & Hfail).
  rewrite Hjoin in Hjoin'. injection Hjoin' as <-.
  rewrite Hget in Hfail.
  destruct Hfail as [Hfail | (resp' & [= <-] & [Hne | [Ht Hraised]])];
    [discriminate | congruence | now apply Htext].
Qed.

Lemma fetched_same ref u resp u' resp' :
  fetched E base_url ref u resp -> fetched E base_url ref u' resp' ->
  u' = u /\ resp' = resp.
Proof.
  intros (Hjoin & Hget & _) (Hjoin' & Hget' & _).
  rewrite Hjoin in Hjoin'. injection Hjoin' as <-.
  rewrite Hget in Hget'. injection Hget' as <-. now split.
Qed.

(** An element whose fetch fails is handed on as it was. *)
Lemma outcome_failed dir idx name a cs' n' ref t :
  outcome E base_url dir idx name a cs' n' ->
  reference name a = Some (ref, t) ->
  fetch_fails E base_url t ref ->
  n' = Tag name a cs'.
Proof.
  intros Hout Href Hfail.
  destruct Hout as [r u resp Hr _ Hf _ | r u resp css Hr _ Hf Htext _
                    | r u resp js Hr _ Hf Htext | | | |]; try reflexivity;
    rewrite Href in Hr; injection Hr as <- ->; exfalso;
      apply (fetched_not_failed ref u resp _ Hf) in Hfail; try exact Hfail;
        congruence.
Qed.

(** An image that cannot be saved is handed on as it was. *)
Lemma outcome_not_saved dir idx a cs' n' ref u resp :
  outcome E base_url dir idx "img" a cs' n' ->
  reference "img" a = Some (ref, false) ->
  fetched E base_url ref u resp ->
  file_write E (image_path E dir idx resp u) (content resp) <> Written ->
  n' = Tag "img" a cs'.
Proof.
  intros Hout Href Hf Hw.
  destruct Hout as [r u' resp' Hr _ Hf' Hw' | r u' resp' css _ Hn _ _ _
                    | r u' resp' js _ Hn _ _ | | | |]; try reflexivity;
    try discriminate.
  rewrite Href in Hr. injection Hr as <-.
  destruct (fetched_same ref u resp u' resp' Hf Hf') as [-> ->].
  now elim Hw.
Qed.

(** An image that is fetched and saved carries the data URI. *)
Lemma outcome_saved dir idx a cs' n' ref u resp :
  outcome E base_url dir idx "img" a cs' n' ->
  reference "img" a = Some (ref, false) ->
  fetched E base_url ref u resp ->
  file_write E (image_path E dir idx resp u) (content resp) = Written ->
  n' = Tag "img" (attr_set a "src" (data_uri (image_mime E resp u) (content resp))) cs'.
Proof.
  intros Hout Href Hf Hw.
  destruct Hout as [r u' resp' Hr _ Hf' _ | r u' resp' css _ Hn _ _ _
                    | r u' resp' js _ Hn _ _ | r t Hr Hfail
                    | r u' resp' Hr _ Hf' Hw' | r u' resp' _ Hn _ _ | Hr];
    try discriminate.
  - rewrite Href in Hr. injection Hr as <-.
    now destruct (fetched_same ref u resp u' resp' Hf Hf') as [-> ->].
  - rewrite Href in Hr. injection Hr as <- <-. exfalso.
    apply (fetched_not_failed ref u resp false Hf); [discriminate | exact Hfail].
  - rewrite Href in Hr. injection Hr as <-.
    destruct (fetched_same ref u resp u' resp' Hf Hf') as [-> ->]. now elim Hw'.
  - congruence.
Qed.

(** The references of a tag can be resolved: [urljoin] raises on none. *)
Definition ref_joins (name : string) (a : attrs) : Prop :=
  forall ref t, reference name a = Some (ref, t) -> urljoin E base_url ref <> Raised.

(** Every reference of the document can be resolved. *)
Definition all_join (s : soup) : Prop := Forall (tag_has ref_joins) (all_tags s).

(** The same of every tag but the images, whose [src] pass 1 rewrites. *)
Definition rest_joins (name : string) (a : attrs) : Prop :=
  String.eqb name "img" = false -> ref_joins name a.

(** A body raises exactly when its reference cannot be resolved. *)
Lemma img_edit_raised a :
  img_edit E base_url a = Raised
  <-> exists ref, reference "img" a = Some (ref, false)
                  /\ urljoin E base_url ref = Raised.
Proof.
  unfold img_edit, reference. simpl String.eqb. cbv iota.
  destruct (img_source a) as [ref|].
  2:{ split; [discriminate | intros (r & H & _); discriminate]. }
  destruct (Py.truthy ref); cbn [negb].
  2:{ split; [discriminate | intros (r & H & _); discriminate]. }
  destruct (urljoin E base_url ref) as [u|] eqn:Hjoin.
  - split.
    + destruct (http_get E u base_url 10) as [resp|]; [| discriminate].
      destruct (status resp =? 200); discriminate.
    + intros (r & [= <-] & Hr). congruence.
  - split; [| reflexivity]. intros _. now exists ref.
Qed.

Lemma link_edit_raised name a :
  is_stylesheet_link name a = true ->
  link_edit E base_url a = Raised
  <-> exists ref, reference name a = Some (ref, true)
                  /\ urljoin E base_url ref = Raised.
Proof.
  intros Hsel. pose proof (is_stylesheet_link_name name a Hsel) as Hname.
  unfold reference. rewrite Hsel. subst name. simpl String.eqb. cbv iota.
  unfold link_edit, link_body.
  destruct (attr_get a "href") as [ref|].
  2:{ split; [discriminate | intros (r & H & _); discriminate]. }
  destruct (Py.truthy ref); cbn [negb].
  2:{ split; [discriminate | intros (r & H & _); discriminate]. }
  unfold bind, lift.
  destruct (urljoin E base_url ref) as [u|] eqn:Hjoin.
  - split.
    + destruct (http_get E u base_url 10) as [resp|]; [| discriminate].
      destruct (status resp =? 200); [| discriminate].
      destruct (text resp) as [css|]; [| discriminate].
      destruct (negb (Py.truthy css)); [discriminate |].
      destruct (Py.truthy (process_css_urls E css u base_url)); discriminate.
    + intros (r & [= <-] & Hr). congruence.
  - split; [| reflexivity]. intros _. now exists ref.
Qed.

Lemma script_edit_raised name a :
  is_src_script name a = true ->
  script_edit E base_url a = Raised
  <-> exists ref, reference name a = Some (ref, true)
                  /\ urljoin E base_url ref = Raised.
Proof.
  intros Hsel. pose proof (is_src_script_name name a Hsel) as Hname.
  unfold reference. rewrite Hsel. subst name.
  change (String.eqb "script" "img") with false.
  change (is_stylesheet_link "script" a) with false. cbv iota.
  unfold script_edit, script_body.
  destruct (attr_get a "src") as [ref|].
  2:{ split; [discriminate | intros (r & H & _); discriminate]. }
  destruct (Py.truthy ref); cbn [negb andb].
  2:{ split; [discriminate | intros (r & H & _); discriminate]. }
  destruct (Py.startswith_any ref ["data:"; "javascript:"]); cbn [negb].
  { split; [discriminate | intros (r & H & _); discriminate]. }
  unfold bind, lift.
  destruct (urljoin E base_url ref) as [u|] eqn:Hjoin.
  - split.
    + destruct (http_get E u base_url 10) as [resp|]; [| discriminate].
      destruct (status resp =? 200); [| discriminate].
      destruct (text resp); discriminate.
    + intros (r & [= <-] & Hr). congruence.
  - split; [| reflexivity]. intros _. now exists ref.
Qed.

Lemma img_body_total dir name a st :
  named "img" name a = true -> ref_joins name a ->
  fst (img_body E base_url dir a st) <> Raised.
Proof.
  intros Hsel Hjoin Hraised. apply String.eqb_eq in Hsel. subst name.
  apply img_body_raises, img_edit_raised in Hraised.
  destruct Hraised as (ref & Href & Hr). exact (Hjoin ref false Href Hr).
Qed.

Lemma link_body_total name a st :
  is_stylesheet_link name a = true -> rest_joins name a ->
  fst (link_body E base_url a st) <> Raised.
Proof.
  intros Hsel Hjoin Hraised. rewrite link_body_pure in Hraised.
  apply (link_edit_raised name a Hsel) in Hraised.
  destruct Hraised as (ref & Href & Hr).
  apply is_stylesheet_link_name in Hsel. subst name.
  exact (Hjoin eq_refl ref true Href Hr).
Qed.

Lemma script_body_total name a st :
  is_src_script name a = true -> rest_joins name a ->
  fst (script_body E base_url a st) <> Raised.
Proof.
  intros Hsel Hjoin Hraised. rewrite script_body_pure in Hraised.
  apply (script_edit_raised name a Hsel) in Hraised.
  destruct Hraised as (ref & Href & Hr).
  apply is_src_script_name in Hsel. subst name.
  exact (Hjoin eq_refl ref true Href Hr).
Qed.

Lemma link_edit_no_set a a' : link_edit E base_url a <> Ok (SetAttrs a').
Proof.
  unfold link_edit, link_body.
  destruct (attr_get a "href") as [ref|]; [| discriminate].
  destruct (negb (Py.truthy ref)); [discriminate |].
  unfold bind, lift.
  destruct (urljoin E base_url ref) as [u|]; [| discriminate].
  destruct (http_get E u base_url 10) as [resp|]; [| discriminate].
  destruct (status resp =? 200); [| discriminate].
  destruct (text resp) as [css|]; [| discriminate].
  destruct (negb (Py.truthy css)); [discriminate |].
  destruct (Py.truthy (process_css_urls E css u base_url)); discriminate.
Qed.

(** With references that resolve, no failed request makes the passes
    raise. *)
Lemma inline_soup_total page_dir s st :
  all_join s ->
  exists s3 st', inline_soup E base_url page_dir s st = (Ok s3, st').
Proof.
  intros Hjoin. unfold inline_soup, bind.
  set (body1 := img_body E base_url (Path.join page_dir "images")).
  destruct (for_each_total_on (named "img") body1 ref_joins
              (fun name a st => img_body_total _ name a st) s Hjoin st)
    as (s1 & st1 & H1).
  rewrite H1.
  assert (Forall (tag_has rest_joins) (all_tags s)) as Hrest.
  { unfold all_join in Hjoin. rewrite Forall_forall in *.
    intros n Hn. specialize (Hjoin n Hn).
    destruct n as [t | t | name a cs]; try exact I. intros _. exact Hjoin. }
  assert (Forall (tag_has rest_joins) (all_tags s1)) as Hrest1.
  { apply (for_each_keeps_tags (named "img") body1 rest_joins) with (s := s) (st := st)
                                                                    (st' := st1);
      try assumption.
    intros name a sa e sb Hsel _ He.
    destruct e as [| a' | n1]; [exact I | |].
    - intros Hn. unfold named in Hsel. congruence.
    - exfalso. apply (img_body_no_replace E base_url (Path.join page_dir "images") a sa n1).
      unfold body1 in He. now rewrite He. }
  destruct (for_each_total_on is_stylesheet_link (link_body E base_url) rest_joins
              link_body_total s1 Hrest1 st1) as (s2 & st2 & H2).
  rewrite H2.
  assert (Forall (tag_has rest_joins) (all_tags s2)) as Hrest2.
  { apply (for_each_keeps_tags is_stylesheet_link (link_body E base_url) rest_joins)
      with (s := s1) (st := st1) (st' := st2); try assumption.
    intros name a sa e sb Hsel _ He.
    rewrite link_body_pure in He. injection He as He _.
    destruct e as [| a' | n1]; [exact I | |].
    - now elim (link_edit_no_set a a').
    - apply link_edit_replace in He. destruct He as (css & ->).
      apply all_tags_of_tag. split; [| constructor].
      intros _ ref t Href. discriminate Href. }
  destruct (for_each_total_on is_src_script (script_body E base_url) rest_joins
              script_body_total s2 Hrest2 st2) as (s3 & st3 & H3).
  rewrite H3. now exists s3, st3.
Qed.

(** A reference that cannot be resolved sends the run to the outer
    [except]. *)
Lemma bad_reference_raises page_dir s st p name a cs ref t :
  forallb parser_shape s = true ->
  subtree_at p s = Some (Tag name a cs) ->
  reference name a = Some (ref, t) ->
  urljoin E base_url ref = Raised ->
  exists st', inline_soup E base_url page_dir s st = (Raised, st').
Proof.
  intros Hshape Hat Href Hraised.
  destruct (inline_soup E base_url page_dir s st) as [[s3|] st'] eqn:Hrun;
    [| now exists st'].
  exfalso. apply inline_soup_passes in Hrun.
  destruct (inline_at E base_url page_dir st st' s s3 p name a cs Hrun Hshape Hat)
    as (cs' & a1 & _ & _ & _ & Hi & Hl & Hs).
  unfold reference in Href.
  destruct (String.eqb name "img") eqn:Hn.
  - destruct (Hi eq_refl) as (before & after & e & sb & _ & He & _).
    apply String.eqb_eq in Hn. subst name.
    set (sa := run_bodies _ before st) in He.
    assert (fst (img_body E base_url (Path.join page_dir "images") a sa) = Raised) as Hr.
    { apply img_body_raises, img_edit_raised.
      exists ref. split; [| exact Hraised].
      unfold reference. simpl String.eqb. cbv iota.
      destruct (img_source a) as [r|]; [| discriminate].
      destruct (Py.truthy r); [| discriminate]. now injection Href as <- <-. }
    rewrite He in Hr. discriminate Hr.
  - destruct (is_stylesheet_link name a) eqn:Hlink.
    + apply (Hl eq_refl). apply (link_edit_raised name a Hlink).
      exists ref. split; [| exact Hraised].
      unfold reference. rewrite Hn, Hlink.
      destruct (attr_get a "href") as [r|]; [| discriminate].
      destruct (Py.truthy r); [| discriminate]. now injection Href as <- <-.
    + destruct (is_src_script name a) eqn:Hscript; [| discriminate].
      apply (Hs eq_refl). apply (script_edit_raised name a Hscript).
      exists ref. split; [| exact Hraised].
      unfold reference. rewrite Hn, Hlink, Hscript.
      destruct (attr_get a "src") as [r|]; [| discriminate].
      destruct (Py.truthy r && negb (Py.startswith_any r ["data:"; "javascript:"]));
        [| discriminate].
      now injection Href as <- <-.
Qed.


(** C8: in the returned tree the link of a stylesheet whose fetch failed,
    or gave empty CSS, is the link of the parsed tree; a style element
    stands in its place only where the fetch gave CSS that is not empty.
    (When the function falls back, the document is the one it was
    given.) *)
Theorem failed_stylesheet_link_is_kept
        (html page_dir : string) (d : disk) (s : soup) (p : list nat)
        (a : attrs) (cs : list node) (ref : string) :
  parse E html = Ok s ->
  forallb parser_shape s = true ->
  subtree_at p s = Some (Tag "link" a cs) ->
  reference "link" a = Some (ref, true) ->
  fst (download_resources_and_update_html E base_url html page_dir d) = (html, [])
  \/ exists s',
      fst (fst (download_resources_and_update_html E base_url html page_dir d)) = serialize E s'
      /\ (fetch_fails E base_url true ref
          \/ (exists u resp, fetched E base_url ref u resp
                             /\ text resp = Ok EmptyString) ->
          subtree_at p s' = Some (Tag "link" a cs))
      /\ (subtree_at p s' = Some (Tag "link" a cs)
          \/ exists u resp css,
              fetched E base_url ref u resp /\ text resp = Ok css
              /\ css <> EmptyString
              /\ subtree_at p s'
                 = Some (Tag "style" [] [Text (process_css_urls E css u base_url)])).
Proof.
  intros Hparse Hshape Hat Href.
  destruct (download_resources_and_update_html E base_url html page_dir d) as [[out imgs] d'] eqn:Hdl.
  apply download_cases in Hdl.
  destruct Hdl as [(st & _ & Hfb & _) | (s0 & s' & st & Hp & Hrun & -> & _ & _)];
    [now left |].
  right. rewrite Hparse in Hp. injection Hp as <-.
  exists s'. split; [reflexivity |].
  destruct (inline_soup_at page_dir s _ s' st p "link" a cs Hrun Hshape Hat)
    as (cs' & n' & idx & Hat' & Hout & Hleaves & _).
  assert (cs' = cs) as ->.
  { apply Hleaves. apply (subtree_at_shape p s _ Hshape) in Hat.
    simpl in Hat. now apply andb_prop in Hat. }
  rewrite Hat'. split.
  - intros [Hfail | (u & resp & Hf & Hempty)].
    + now rewrite (outcome_failed _ _ "link" a cs n' ref true Hout Href Hfail).
    + destruct Hout as [r u' resp' Hr Hn _ _ | r u' resp' css Hr _ Hf' Htext Hne
                        | r u' resp' js Hr Hn _ _ | | | |]; try reflexivity;
        try discriminate.
      rewrite Href in Hr. injection Hr as <-.
      destruct (fetched_same ref u resp u' resp' Hf Hf') as [-> ->]. congruence.
  - destruct Hout as [r u' resp' Hr Hn _ _ | r u' resp' css Hr _ Hf' Htext Hne
                      | r u' resp' js Hr Hn _ _ | | | |]; try (now left);
      try discriminate.
    right. rewrite Href in Hr. injection Hr as <-. now exists u', resp', css.
Qed.
End InlinerClaims.

Section ImageClaim.
Variable E : Collab.
Variable base_url : string.

Lemma attr_get_set (a : attrs) (k v : string) : attr_get (attr_set a k v) k = Some v.
Proof.
  induction a as [|[k' v'] a IH]; simpl.
  - now rewrite String.eqb_refl.
  - destruct (String.eqb k' k) eqn:Hk; simpl.
    + now rewrite String.eqb_refl.
    + now rewrite Hk.
Qed.

Lemma reference_img a ref t :
  reference "img" a = Some (ref, t) ->
  img_source a = Some ref /\ Py.truthy ref = true /\ t = false.
Proof.
  unfold reference. simpl String.eqb. cbv iota.
  destruct (img_source a) as [r|]; [| discriminate].
  destruct (Py.truthy r) eqn:Hr; [| discriminate].
  intros [= <- <-]. now repeat split.
Qed.

(** The body of pass 1 on an image that is fetched and saved. *)
Lemma img_body_fetched dir a st ref u resp :
  img_source a = Some ref -> Py.truthy ref = true ->
  fetched E base_url ref u resp ->
  let img_path := image_path E dir (img_index st) resp u in
  file_write E img_path (content resp) = Written ->
  img_body E base_url dir a st
  = (Ok (SetAttrs (attr_set a "src" (data_uri (image_mime E resp u) (content resp)))),
     State (write_file (files st) img_path (content resp))
           (downloaded_images st ++ [(img_path, u)])%list
           (S (img_index st))).
Proof.
  intros Hsrc Href (Hjoin & Hget & Hst). unfold img_body.
  rewrite Hsrc, Href, Hjoin, Hget, Hst. simpl negb. cbv iota. simpl Nat.eqb.
  unfold image_path, image_ext, image_mime, image_ctype.
  destruct (sniff_image E _ u) as [ext mime]. cbn [fst snd]. cbv zeta.
  now intros ->.
Qed.


(** C1, as the code has it: unless the function falls back to the HTML
    it was given, every tag of the parsed tree has its place in the
    returned tree, where it stands inlined (an image with a data URI as
    [src], a style element with the fetched CSS for a stylesheet link, a
    script element with the fetched text for a script source) or stands
    as it was: because its fetch failed, because the file of the fetched
    image could not be written, because the fetched CSS was empty, or
    because there was nothing to fetch.  An image tag is saved under the
    index of its place among the image tags.  In fetched CSS every [url()]
    match is replaced by a data URI or is kept as written, because its
    fetch failed or because it is a [data:] or absolute http(s) URL. *)
Theorem references_inlined_or_kept (html page_dir : string) (d : disk) :
  (fst (download_resources_and_update_html E base_url html page_dir d) = (html, [])
   \/ exists s s',
       parse E html = Ok s
       /\ fst (fst (download_resources_and_update_html E base_url html page_dir d))
          = serialize E s'
       /\ (forallb parser_shape s = true ->
           forall p name a cs,
             subtree_at p s = Some (Tag name a cs) ->
             exists cs' n' idx,
               subtree_at p s' = Some n'
               /\ outcome E base_url (Path.join page_dir "images") idx name a cs' n'
               /\ (leaves cs = true -> cs' = cs)
               /\ (name = "img" ->
                   exists before after,
                     find_all (named "img") s = (before ++ Tag name a cs :: after)%list
                     /\ idx = List.length before)))
  /\ (forall css css_url,
         exists rs,
           process_css_urls E css css_url base_url
           = Py.concat (rebuild css 0 (combine (Re.finditer url_pattern css) rs))
           /\ Forall2 (css_outcome E css_url base_url css)
                      (Re.finditer url_pattern css) rs).
Proof.
  split; [| intros css css_url; apply process_css_urls_outcomes].
  destruct (download_resources_and_update_html E base_url html page_dir d)
    as [[out imgs] d'] eqn:Hdl.
  apply download_cases in Hdl.
  destruct Hdl as [(st & _ & Hfb & _) | (s & s' & st & Hp & Hrun & -> & _ & _)];
    [now left |].
  right. exists s, s'. split; [exact Hp |]. split; [reflexivity |].
  intros Hshape p name a cs Hat.
  exact (inline_soup_at E base_url page_dir s _ s' st p name a cs Hrun Hshape Hat).
Qed.

(** C2 as stated, for the image [Tag "img" a _] at the path [p], fetched
    from [u] with the response [resp]: the returned document has a data URI
    as its [src], and the returned list has a pair for [u] whose file holds
    the bytes of the response. *)
Definition image_claim_as_stated (html page_dir : string) (d : disk) (p : list nat)
           (a : attrs) (u : string) (resp : response) : Prop :=
  let r := download_resources_and_update_html E base_url html page_dir d in
  exists s' cs' uri img_path,
    fst (fst r) = serialize E s'
    /\ subtree_at p s' = Some (Tag "img" (attr_set a "src" uri) cs')
    /\ Py.startswith uri "data:" = true
    /\ In (img_path, u) (snd (fst r))
    /\ read_file (snd r) img_path = Some (content resp).

(** C7 as stated, for the images of a document: the failure of another
    element skips that element only, so that an image whose own fetch and
    file succeed is in the returned list. *)
Definition failure_skips_only_itself (html page_dir : string) (d : disk) : Prop :=
  forall s p a cs ref u resp,
    parse E html = Ok s ->
    subtree_at p s = Some (Tag "img" a cs) ->
    reference "img" a = Some (ref, false) ->
    fetched E base_url ref u resp ->
    (forall path, file_write E path (content resp) = Written) ->
    exists img_path,
      In (img_path, u)
         (snd (fst (download_resources_and_update_html E base_url html page_dir d))).

(** C1 as stated, for the node [n'] that stands for [Tag name a _]: it
    holds a data URI, or it is unchanged and the fetch failed, or it is an
    unchanged script with a [data:] or [javascript:] source. *)
Definition outcome_as_stated (name : string) (a : attrs) (n' : node) : Prop :=
  (exists nm a' cs' k v,
      n' = Tag nm a' cs' /\ attr_get a' k = Some v
      /\ Py.startswith v "data:" = true)
  \/ (exists cs' ref t,
         n' = Tag name a cs' /\ reference name a = Some (ref, t)
         /\ fetch_fails E base_url t ref)
  \/ (exists cs' ref,
         n' = Tag name a cs' /\ name = "script" /\ attr_get a "src" = Some ref
         /\ Py.startswith_any ref ["data:"; "javascript:"] = true).
End ImageClaim.

(** ** The worked instance *)

Module DemoFacts.

Definition gone_link : attrs := [("rel", "stylesheet"); ("href", "gone.css")].
Definition empty_link : attrs := [("rel", "stylesheet"); ("href", "empty.css")].
Definition logo : attrs := [("src", "logo.png"); ("alt", "logo")].

Definition logo_response : response :=
  Response 200 (Some "image/png") Demo.png_bytes Raised.

Definition empty_response : response :=
  Response 200 (Some "text/css") [] (Ok EmptyString).

Definition missing_image : attrs := [("src", "missing.png")].

Ltac resolves :=
  let ref := fresh "ref" in
  let t := fresh "t" in
  let H := fresh "H" in
  intros ref t H; vm_compute in H;
  first [ discriminate H
        | injection H as <- <-; vm_compute; discriminate ].

Ltac all_resolve :=
  unfold all_join, all_tags, find_all;
  cbn [flat_map find_all_in any_tag app
       Demo.page Demo.one_image_page Demo.image_and_bad_link Demo.image_and_bad_script];
  repeat (apply Forall_cons; [resolves |]); apply Forall_nil.

Lemma demo_page_resolves : all_join Demo.demo Demo.site Demo.page.
Proof. all_resolve. Defined.

Lemma one_image_page_resolves : all_join Demo.demo Demo.site Demo.one_image_page.
Proof. all_resolve. Defined.



(** [gone.css] answers 404: its link stands as it stood. *)
Lemma gone_stylesheet_link_is_kept :
  exists s',
    fst (fst (download_resources_and_update_html Demo.demo Demo.site "<page>" "/tmp/p" []))
    = serialize Demo.demo s'
    /\ subtree_at [0; 0; 2] s' = Some (Tag "link" gone_link []).
Proof.
  destruct (failed_stylesheet_link_is_kept Demo.demo Demo.site "<page>" "/tmp/p" []
              Demo.page [0; 0; 2] gone_link [] "gone.css"
              eq_refl eq_refl eq_refl eq_refl)
    as [Hfb | (s' & Hser & Hkept & _)].
  - vm_compute in Hfb. discriminate Hfb.
  - exists s'. split; [exact Hser |].
    apply Hkept. left.
    exists "https://site.test/gone.css". split; [reflexivity |].
    right. exists (Response 404 None [] (Ok "not found")).
    split; [reflexivity |]. left. simpl. apply Nat.eqb_neq. reflexivity.
Defined.



(** Every tag of the demo page has its outcome; here the first image,
    saved under index 0. *)
Lemma demo_page_outcomes :
  exists s' cs' n',
    fst (fst (download_resources_and_update_html Demo.demo Demo.site "<page>" "/tmp/p" []))
    = serialize Demo.demo s'
    /\ subtree_at [0; 1; 0] s' = Some n'
    /\ outcome Demo.demo Demo.site "/tmp/p/images" 0 "img" logo cs' n'.
Proof.
  destruct (references_inlined_or_kept Demo.demo Demo.site "<page>" "/tmp/p" [])
    as [[Hfb | (s & s' & Hp & Hser & Hall)] _].
  - vm_compute in Hfb. discriminate Hfb.
  - injection Hp as <-.
    destruct (Hall eq_refl [0; 1; 0] "img" logo [] eq_refl)
      as (cs' & n' & idx & Hat & Hout & _ & Hidx).
    assert (idx = 0) as ->.
    { destruct (Hidx eq_refl) as (before & after & Hfind & ->).
      destruct before as [|b before]; [reflexivity |].
      exfalso. injection Hfind as _ Hfind.
      destruct before as [|b' before]; [discriminate Hfind |].
      injection Hfind as _ Hfind. now destruct before. }
    exists s', cs', n'.
    split; [exact Hser | split; [exact Hat | exact Hout]].
Defined.

(** C1 as stated fails at the link to [empty.css]: the request answers 200
    with empty CSS, the link stands unchanged in the returned tree, it holds
    no data URI and its fetch did not fail. *)
Lemma empty_stylesheet_link_refutes_claim :
  http_get Demo.demo "https://site.test/empty.css" Demo.site 10 = Ok empty_response
  /\ exists s' st',
      inline_soup Demo.demo Demo.site "/tmp/p" Demo.page (State [] [] 0) = (Ok s', st')
      /\ subtree_at [0; 0; 1] s' = Some (Tag "link" empty_link [])
      /\ ~ outcome_as_stated Demo.demo Demo.site "link" empty_link
                             (Tag "link" empty_link []).
Proof.
  split; [reflexivity |].
  eexists. eexists. split; [vm_compute; reflexivity |].
  split; [reflexivity |].
  intros [(nm & a' & cs' & k & v & Heq & Hget & Hdata)
         | [(cs' & ref & t & _ & Href & Hfail) | (cs' & ref & _ & Hname & _)]].
  - injection Heq as <- <- <-. unfold empty_link in Hget. cbn [attr_get] in Hget.
    destruct (String.eqb "rel" k); [injection Hget as <-; discriminate Hdata |].
    destruct (String.eqb "href" k); [injection Hget as <-; discriminate Hdata |].
    discriminate Hget.
  - injection Href as <- <-.
    destruct Hfail as (u & Hjoin & Hfail).
    change (Ok "https://site.test/empty.css" = Ok u) in Hjoin.
    injection Hjoin as <-.
    change (http_get Demo.demo "https://site.test/empty.css" Demo.site 10)
      with (Ok empty_response) in Hfail.
    destruct Hfail as [Hraised | (resp & Hget & [Hst | [_ Htext]])].
    + discriminate Hraised.
    + injection Hget as <-. now apply Hst.
    + injection Hget as <-. discriminate Htext.
  - discriminate Hname.
Qed.

End DemoFacts.

(* ================================================================== *)
(** * Further functions of the plugin *)

(** ** [extract_domain] *)

Module Str.

(** [s.split(sep, 1)] when [sep] occurs in [s]: the text before its first
    occurrence and the text after it; [None] when it does not occur (Python
    then gives the one-element list [[s]]). *)
Fixpoint split1 (sep s : string) {struct s} : option (string * string) :=
  if Py.startswith s sep then Some (EmptyString, Py.drop (String.length sep) s)
  else
    match s with
    | EmptyString => None
    | String c s' =>
        match split1 sep s' with
        | Some (h, t) => Some (String c h, t)
        | None => None
        end
    end.

(** [s.split(sep, 1)[0]] *)
Definition before_first (sep s : string) : string :=
  match split1 sep s with Some (h, _) => h | None => s end.

(** [s.split(sep, 1)[1]], which the plugin evaluates under [if sep in s]. *)
Definition after_first (sep s : string) : string :=
  match split1 sep s with Some (_, t) => t | None => s end.

(** [c in s] for a one-character string [c]. *)
Definition has_char (c : ascii) (s : string) : bool :=
  Py.contains (String c EmptyString) s.

End Str.

(** Lines 593-608; the [except] of the function has nothing to catch on a
    string. *)
Definition extract_domain (url : string) : string :=
  let url := if Py.contains "://" url then Str.after_first "://" url else url in
  let domain := if Py.contains "/" url then Str.before_first "/" url else url in
  if Py.contains ":" domain then Str.before_first ":" domain else domain.

Lemma has_char_cons (c x : ascii) (s : string) :
  Str.has_char c (String x s) = Ascii.eqb c x || Str.has_char c s.
Proof.
  unfold Str.has_char. simpl. destruct (Ascii.eqb c x); reflexivity.
Qed.

Lemma has_char_app (c : ascii) (a b : string) :
  Str.has_char c (a ++ b) = Str.has_char c a || Str.has_char c b.
Proof.
  induction a as [|x a IH].
  - reflexivity.
  - change (String x a ++ b) with (String x (a ++ b)).
    rewrite !has_char_cons, IH. apply orb_assoc.
Qed.

Lemma split1_char_cons (c x : ascii) (s : string) :
  Str.split1 (String c EmptyString) (String x s)
  = if Ascii.eqb c x then Some (EmptyString, s)
    else match Str.split1 (String c EmptyString) s with
         | Some (h, t) => Some (String x h, t)
         | None => None
         end.
Proof. simpl. destruct (Ascii.eqb c x); reflexivity. Qed.

(** The text before the first [c] has no [c]; without a [c] there is no
    split. *)
Lemma split1_char_spec (c : ascii) (s : string) :
  match Str.split1 (String c EmptyString) s with
  | Some (h, t) => s = h ++ String c t /\ Str.has_char c h = false
                   /\ Str.has_char c s = true
  | None => Str.has_char c s = false
  end.
Proof.
  induction s as [|x s IH].
  - reflexivity.
  - rewrite split1_char_cons, has_char_cons.
    destruct (Ascii.eqb c x) eqn:Hcx.
    + apply Ascii.eqb_eq in Hcx. subst x. now repeat split.
    + destruct (Str.split1 (String c EmptyString) s) as [[h t]|].
      * destruct IH as (Hs & Hh & Hin). rewrite has_char_cons, Hcx, Hs at 1.
        split; [reflexivity |]. split; [exact Hh | exact Hin].
      * exact IH.
Qed.

Lemma before_first_char (c : ascii) (s : string) :
  Str.has_char c (Str.before_first (String c EmptyString) s) = false
  /\ exists t, s = Str.before_first (String c EmptyString) s ++ t.
Proof.
  unfold Str.before_first. pose proof (split1_char_spec c s) as H.
  destruct (Str.split1 (String c EmptyString) s) as [[h t]|].
  - destruct H as (-> & Hh & _). split; [exact Hh | now exists (String c t)].
  - split; [exact H | exists EmptyString; now rewrite append_empty_r].
Qed.

(** X1: [extract_domain] gives a name with no slash and no colon in it, so
    neither a path nor a port nor a scheme is left in what it returns. *)
Theorem extract_domain_has_no_slash_or_colon (url : string) :
  Str.has_char "/" (extract_domain url) = false
  /\ Str.has_char ":" (extract_domain url) = false.
Proof.
  unfold extract_domain.
  set (u := if Py.contains "://" url then Str.after_first "://" url else url).
  set (domain := if Py.contains "/" u then Str.before_first "/" u else u).
  assert (Str.has_char "/" domain = false) as Hslash.
  { unfold domain. destruct (Py.contains "/" u) eqn:Hu.
    - apply before_first_char.
    - exact Hu. }
  destruct (Py.contains ":" domain) eqn:Hcolon.
  - destruct (before_first_char ":" domain) as [Hno (t & Ht)].
    split; [| exact Hno].
    rewrite Ht, has_char_app in Hslash. now apply orb_false_iff in Hslash.
  - now split.
Qed.

Lemma split1_char_skip (c : ascii) (h s : string) :
  Str.has_char c h = false ->
  Str.split1 (String c EmptyString) (h ++ s)
  = match Str.split1 (String c EmptyString) s with
    | Some (a, b) => Some (h ++ a, b)
    | None => None
    end.
Proof.
  induction h as [|x h IH]; intros Hh.
  - simpl. now destruct (Str.split1 _ s) as [[a b]|].
  - rewrite has_char_cons in Hh. apply orb_false_iff in Hh. destruct Hh as [Hx Hh].
    change (String x h ++ s) with (String x (h ++ s)).
    rewrite split1_char_cons, Hx, (IH Hh).
    now destruct (Str.split1 _ s) as [[a b]|].
Qed.

Lemma before_first_skip (c : ascii) (h s : string) :
  Str.has_char c h = false ->
  Str.before_first (String c EmptyString) (h ++ s)
  = h ++ Str.before_first (String c EmptyString) s.
Proof.
  intros Hh. unfold Str.before_first. rewrite (split1_char_skip c h s Hh).
  now destruct (Str.split1 _ s) as [[a b]|].
Qed.

Lemma before_first_absent (c : ascii) (s : string) :
  Str.has_char c s = false -> Str.before_first (String c EmptyString) s = s.
Proof.
  intros Hs. unfold Str.before_first. pose proof (split1_char_spec c s) as H.
  destruct (Str.split1 _ s) as [[h t]|]; [| reflexivity].
  destruct H as (_ & _ & H). congruence.
Qed.

(** X2: the host of an http(s) URL is what [extract_domain] returns: the scheme
    goes, and so does what follows the host when that is a port or a
    path. *)
Theorem extract_domain_of_url (scheme host port path : string) :
  scheme = "http" \/ scheme = "https" ->
  Str.has_char "/" host = false -> Str.has_char ":" host = false ->
  Str.has_char "/" port = false ->
  extract_domain (scheme ++ "://" ++ host) = host
  /\ extract_domain (scheme ++ "://" ++ host ++ "/" ++ path) = host
  /\ extract_domain (scheme ++ "://" ++ host ++ ":" ++ port) = host
  /\ extract_domain (scheme ++ "://" ++ host ++ ":" ++ port ++ "/" ++ path) = host.
Proof.
  intros Hscheme Hslash Hcolon Hport.
  assert (forall rest,
             extract_domain (scheme ++ "://" ++ rest)
             = let domain := if Py.contains "/" rest
                             then Str.before_first "/" rest else rest in
               if Py.contains ":" domain then Str.before_first ":" domain else domain)
    as Hstrip.
  { intros rest. destruct Hscheme as [-> | ->]; reflexivity. }
  assert (forall s, (if Py.contains "/" s then Str.before_first "/" s else s)
                    = Str.before_first "/" s) as Hbefore_slash.
  { intros s. destruct (Py.contains "/" s) eqn:Hs; [reflexivity |].
    symmetry. now apply before_first_absent. }
  assert (forall s, (if Py.contains ":" s then Str.before_first ":" s else s)
                    = Str.before_first ":" s) as Hbefore_colon.
  { intros s. destruct (Py.contains ":" s) eqn:Hs; [reflexivity |].
    symmetry. now apply before_first_absent. }
  assert (forall rest, extract_domain (scheme ++ "://" ++ rest)
                       = Str.before_first ":" (Str.before_first "/" rest)) as Hdom.
  { intros rest. rewrite Hstrip. cbv zeta. now rewrite Hbefore_slash, Hbefore_colon. }
  assert (forall rest, Str.before_first ":" (host ++ ":" ++ rest) = host) as Hhost.
  { intros rest. rewrite (before_first_skip ":" host _ Hcolon).
    change (Str.before_first ":" (":" ++ rest)) with EmptyString.
    apply append_empty_r. }
  repeat split.
  - rewrite Hdom. rewrite (before_first_absent "/" host Hslash).
    now apply before_first_absent.
  - rewrite Hdom. rewrite (before_first_skip "/" host _ Hslash).
    change (Str.before_first "/" ("/" ++ path)) with EmptyString.
    rewrite append_empty_r. now apply before_first_absent.
  - rewrite Hdom. rewrite (before_first_absent "/" (host ++ ":" ++ port)).
    + apply Hhost.
    + rewrite has_char_app, Hslash. change (":" ++ port) with (String ":" port).
      now rewrite has_char_cons, Hport.
  - rewrite Hdom.
    change (host ++ ":" ++ port ++ "/" ++ path)
      with (host ++ (String ":" port ++ ("/" ++ path))).
    rewrite <- append_assoc.
    rewrite (before_first_skip "/" (host ++ String ":" port)).
    + change (Str.before_first "/" ("/" ++ path)) with EmptyString.
      rewrite append_empty_r. apply (Hhost port).
    + rewrite has_char_app, Hslash. now rewrite has_char_cons, Hport.
Qed.

Lemma extract_domain_example :
  extract_domain "https://example.com:8080/a/b?c=d" = "example.com".
Proof.
  exact (proj2 (proj2 (proj2
    (extract_domain_of_url "https" "example.com" "8080" "a/b?c=d"
       (or_intror eq_refl) eq_refl eq_refl eq_refl)))).
Defined.

(** ** [save_html_to_file] *)

(** [pattern.sub(repl, s)] for a pattern that matches no empty text and a
    replacement without escapes: the text between the matches of
    [finditer], with [repl] in place of each match. *)
Definition re_sub (r : Re.regex) (repl s : string) : string :=
  Py.concat (rebuild s 0 (map (fun m => (m, repl)) (Re.finditer r s))).

(** The class of line 515: the characters a file name must not hold,
    [<>:] the double quote [/\|?*] and the control characters below 32. *)
Definition forbidden (c : ascii) : bool :=
  existsb (Ascii.eqb c) ["<"; ">"; ":"; dquote; "/"; "\"; "|"; "?"; "*"]%char
  || Py.in_range 0 31 c.

(** Lines 510-515: the name of the saved page, [timestamp] being what
    [strftime] gives. *)
Definition html_file_name (url timestamp : string) : string :=
  let domain := extract_domain url in
  let filename := domain ++ "_" ++ timestamp ++ ".html" in
  re_sub (Re.Chr forbidden) "_" filename.

(** The text files written so far, latest first. *)
Definition text_disk : Type := list (string * string).

Fixpoint read_text (d : text_disk) (path : string) : option string :=
  match d with
  | [] => None
  | (p, t) :: d' => if String.eqb p path then Some t else read_text d' path
  end.

(** [save_html_to_file]: the path of the written file, or the exception of
    [open] or [write], which the function raises again; [writable] says
    whether the file system takes the file. *)
Definition save_html_to_file (writable : string -> bool)
           (html_content url page_dir timestamp : string) (d : text_disk)
  : result (string * text_disk) :=
  let file_path := Path.join page_dir (html_file_name url timestamp) in
  if writable file_path then Ok (file_path, (file_path, html_content) :: d)
  else Raised.

(** Every character of [s] that satisfies [p] replaced by [repl]. *)
Fixpoint replace_chars (p : ascii -> bool) (repl s : string) : string :=
  match s with
  | EmptyString => EmptyString
  | String c s' =>
      if p c then repl ++ replace_chars p repl s'
      else String c (replace_chars p repl s')
  end.

Fixpoint all_chars (q : ascii -> bool) (s : string) : bool :=
  match s with
  | EmptyString => true
  | String c s' => q c && all_chars q s'
  end.

Lemma take_add (a b : nat) (s : string) :
  Py.take (a + b) s = Py.take a s ++ Py.take b (Py.drop a s).
Proof.
  revert s. induction a as [|a IH]; intros s; simpl.
  - reflexivity.
  - destruct s as [|c s]; simpl.
    + now destruct b.
    + now rewrite IH.
Qed.

Lemma slice_split (i j k : nat) (w : string) :
  i <= j -> j <= k -> Py.slice i j w ++ Py.slice j k w = Py.slice i k w.
Proof.
  intros Hij Hjk. unfold Py.slice.
  replace (k - i) with ((j - i) + (k - j)) by lia.
  rewrite take_add, drop_drop. do 3 f_equal. lia.
Qed.

Lemma drop_app_length (pre s : string) : Py.drop (String.length pre) (pre ++ s) = s.
Proof. induction pre as [|c pre IH]; simpl; [reflexivity | exact IH]. Qed.

Lemma length_app (a b : string) :
  String.length (a ++ b) = String.length a + String.length b.
Proof. induction a as [|c a IH]; simpl; [reflexivity | now rewrite IH]. Qed.

Section SubFacts.
Variable repl : string.

Let with_repl (ms : list Re.match_obj) : list (Re.match_obj * string) :=
  map (fun m => (m, repl)) ms.

(** The pieces from an earlier position on: the text up to [j] comes
    first. *)
Lemma rebuild_from_earlier (w : string) (i j n : nat) (ms : list Re.match_obj) :
  i <= j -> ordered j n ms ->
  Py.concat (rebuild w i (with_repl ms))
  = Py.slice i j w ++ Py.concat (rebuild w j (with_repl ms)).
Proof.
  intros Hij Hord. destruct ms as [|m ms]; simpl.
  - rewrite !append_empty_r. symmetry. now apply slice_drop.
  - destruct Hord as (H1 & _).
    change (Py.slice i (Re.m_start m) w ++ Py.concat (repl :: rebuild w (Re.m_end m) (with_repl ms))
            = Py.slice i j w
              ++ (Py.slice j (Re.m_start m) w
                  ++ Py.concat (repl :: rebuild w (Re.m_end m) (with_repl ms)))).
    rewrite <- (slice_split i j (Re.m_start m) w Hij H1). apply append_assoc.
Qed.

Lemma sub_class_from (p : ascii -> bool) (s : string) :
  forall pre fuel,
    String.length s < fuel ->
    Py.concat (rebuild (pre ++ s) (String.length pre)
                 (with_repl (Re.finditer_from (Re.Chr p) fuel (String.length pre) s)))
    = replace_chars p repl s.
Proof.
  induction s as [|c s IH]; intros pre fuel Hfuel;
    (destruct fuel as [|fuel]; [simpl in Hfuel; lia |]).
  - simpl. rewrite drop_app_length. reflexivity.
  - assert (String.length s < fuel) as Hfuel' by (simpl in Hfuel; lia).
    specialize (IH (pre ++ String c EmptyString) fuel Hfuel').
    rewrite append_assoc in IH. simpl append in IH.
    rewrite length_app in IH. simpl in IH.
    replace (String.length pre + 1) with (S (String.length pre)) in IH by lia.
    cbn [Re.finditer_from]. unfold Re.match_at. cbn [Re.run Re.rest Re.pos Re.grp].
    destruct (p c) eqn:Hpc.
    + cbn [Re.m_end]. rewrite (proj2 (Nat.ltb_lt _ _)) by lia.
      replace (S (String.length pre) - String.length pre) with 1 by lia.
      cbn [Py.drop with_repl map rebuild Re.m_start Re.m_end].
      change (Py.concat (?a :: ?b :: ?l)) with (a ++ b ++ Py.concat l).
      fold (with_repl (Re.finditer_from (Re.Chr p) fuel (S (String.length pre)) s)).
      rewrite IH. unfold Py.slice. rewrite Nat.sub_diag. simpl. now rewrite Hpc.
    + rewrite (rebuild_from_earlier _ (String.length pre) (S (String.length pre))
                 (S (String.length pre) + String.length s));
        [| lia | apply finditer_from_ordered].
      rewrite IH. unfold Py.slice.
      replace (S (String.length pre) - String.length pre) with 1 by lia.
      rewrite drop_app_length. simpl. now rewrite Hpc.
Qed.

(** Substituting for a one-character class replaces the characters of the
    class one by one. *)
Lemma re_sub_class (p : ascii -> bool) (s : string) :
  re_sub (Re.Chr p) repl s = replace_chars p repl s.
Proof.
  unfold re_sub, Re.finditer.
  apply (sub_class_from p s EmptyString (S (String.length s))). lia.
Qed.
End SubFacts.

Lemma replace_chars_app (p : ascii -> bool) (repl a b : string) :
  replace_chars p repl (a ++ b) = replace_chars p repl a ++ replace_chars p repl b.
Proof.
  induction a as [|c a IH]; simpl; [reflexivity |].
  destruct (p c); rewrite IH; [now rewrite append_assoc | reflexivity].
Qed.

Lemma replace_chars_clean (p : ascii -> bool) (r : ascii) (s : string) :
  p r = false ->
  all_chars (fun c => negb (p c)) (replace_chars p (String r EmptyString) s) = true.
Proof.
  intros Hr. induction s as [|c s IH]; simpl; [reflexivity |].
  destruct (p c) eqn:Hc; simpl; now rewrite ?Hr, ?Hc, IH.
Qed.

Lemma replace_chars_length (p : ascii -> bool) (r : ascii) (s : string) :
  String.length (replace_chars p (String r EmptyString) s) = String.length s.
Proof.
  induction s as [|c s IH]; simpl; [reflexivity |].
  destruct (p c); simpl; now rewrite IH.
Qed.

Lemma all_chars_has_char (q : ascii -> bool) (c : ascii) (s : string) :
  all_chars q s = true -> q c = false -> Str.has_char c s = false.
Proof.
  intros Hall Hc. induction s as [|x s IH]; [reflexivity |].
  simpl in Hall. apply andb_prop in Hall. destruct Hall as [Hx Hs].
  rewrite has_char_cons, (IH Hs).
  destruct (Ascii.eqb c x) eqn:Hcx; [| reflexivity].
  apply Ascii.eqb_eq in Hcx. congruence.
Qed.

Lemma html_file_name_chars (url timestamp : string) :
  all_chars (fun c => negb (forbidden c)) (html_file_name url timestamp) = true.
Proof.
  unfold html_file_name. cbv zeta. rewrite re_sub_class.
  now apply replace_chars_clean.
Qed.

(** X3: the name of the saved page holds none of the characters of the class,
    whatever the URL and the time stamp hold; it is as long as the name it
    was made from and ends in [.html]. *)
Theorem html_file_name_is_clean (url timestamp : string) :
  all_chars (fun c => negb (forbidden c)) (html_file_name url timestamp) = true
  /\ String.length (html_file_name url timestamp)
     = String.length (extract_domain url) + String.length timestamp + 6
  /\ exists stem, html_file_name url timestamp = stem ++ ".html".
Proof.
  unfold html_file_name. cbv zeta. rewrite re_sub_class.
  split; [now apply replace_chars_clean |].
  split.
  - rewrite replace_chars_length, !length_app. simpl. lia.
  - exists (replace_chars forbidden "_" (extract_domain url)
            ++ String "_" (replace_chars forbidden "_" timestamp)).
    rewrite replace_chars_app.
    change ("_" ++ timestamp ++ ".html") with (String "_" (timestamp ++ ".html")).
    change (replace_chars forbidden "_" (String "_" (timestamp ++ ".html")))
      with (String "_" (replace_chars forbidden "_" (timestamp ++ ".html"))).
    rewrite replace_chars_app.
    change (replace_chars forbidden "_" ".html") with ".html".
    now rewrite append_assoc.
Qed.

Lemma startswith_slash (s : string) :
  Str.has_char "/" s = false -> Py.startswith s "/" = false.
Proof.
  destruct s as [|c s]; [reflexivity |].
  rewrite has_char_cons. intros H. apply orb_false_iff in H. destruct H as [H _].
  change (Py.startswith (String c s) "/") with (Ascii.eqb "/" c && true).
  now rewrite H.
Qed.

(** X4: a saved page lies in its page directory, whatever the URL holds: the
    path is the directory, a slash where the directory does not end in one,
    and a name without a slash; the file holds the HTML it was given.  The
    function raises exactly when the file cannot be written. *)
Theorem saved_page_lies_in_page_dir
        (writable : string -> bool) (html url page_dir timestamp : string)
        (d : text_disk) :
  let name := html_file_name url timestamp in
  Str.has_char "/" name = false
  /\ (Path.join page_dir name = page_dir ++ "/" ++ name
      \/ Path.join page_dir name = page_dir ++ name)
  /\ (writable (Path.join page_dir name) = true ->
      exists d', save_html_to_file writable html url page_dir timestamp d
                 = Ok (Path.join page_dir name, d')
                 /\ read_text d' (Path.join page_dir name) = Some html)
  /\ (writable (Path.join page_dir name) = false ->
      save_html_to_file writable html url page_dir timestamp d = Raised).
Proof.
  intros name.
  assert (Str.has_char "/" name = false) as Hname.
  { apply all_chars_has_char with (q := fun c => negb (forbidden c)).
    - apply html_file_name_chars.
    - reflexivity. }
  split; [exact Hname |]. split; [| split].
  - unfold Path.join. rewrite (startswith_slash name Hname).
    destruct (negb (Py.truthy page_dir) || Path.endswith_char "/" page_dir);
      [now right | now left].
  - intros Hw. unfold save_html_to_file. fold name. rewrite Hw.
    eexists. split; [reflexivity |]. simpl. now rewrite String.eqb_refl.
  - intros Hw. unfold save_html_to_file. fold name. now rewrite Hw.
Qed.

Lemma saved_page_example :
  exists d', save_html_to_file (fun _ => true) "<html></html>"
               "https://example.com:8080/a?b" "/srv/page_1" "20240101_120000" []
             = Ok ("/srv/page_1/example.com_20240101_120000.html", d')
             /\ read_text d' "/srv/page_1/example.com_20240101_120000.html"
                = Some "<html></html>".
Proof.
  exact (proj1 (proj2 (proj2
    (saved_page_lies_in_page_dir (fun _ => true) "<html></html>"
       "https://example.com:8080/a?b" "/srv/page_1" "20240101_120000" []))) eq_refl).
Defined.

(** ** Where the images are saved *)

Lemma rfind_aux_shift (c : ascii) (s : string) :
  forall i last,
    Path.rfind_aux c s i last
    = match Path.rfind_aux c s 0 None with
      | Some k => Some (i + k)
      | None => last
      end.
Proof.
  induction s as [|x s IH]; intros i last; simpl; [reflexivity |].
  rewrite (IH (S i)), (IH 1).
  destruct (Path.rfind_aux c s 0 None) as [k|].
  - f_equal. lia.
  - destruct (Ascii.eqb x c); [f_equal; lia | reflexivity].
Qed.

Lemma rfind_cons (c x : ascii) (s : string) :
  Path.rfind c (String x s)
  = match Path.rfind c s with
    | Some k => Some (S k)
    | None => if Ascii.eqb x c then Some 0 else None
    end.
Proof.
  unfold Path.rfind. simpl. rewrite rfind_aux_shift.
  now destruct (Path.rfind_aux c s 0 None).
Qed.

(** [rfind] gives the place of the last [c]: a [c] stands there and none
    after it. *)
Lemma rfind_spec (c : ascii) (s : string) :
  match Path.rfind c s with
  | Some d => exists t, Py.drop d s = String c t /\ Str.has_char c t = false
  | None => Str.has_char c s = false
  end.
Proof.
  induction s as [|x s IH]; [reflexivity |].
  rewrite rfind_cons. destruct (Path.rfind c s) as [k|].
  - exact IH.
  - destruct (Ascii.eqb x c) eqn:Hxc.
    + apply Ascii.eqb_eq in Hxc. subst x. now exists s.
    + rewrite has_char_cons, Ascii.eqb_sym, Hxc. exact IH.
Qed.

Lemma has_char_drop (c : ascii) (k : nat) (s : string) :
  Str.has_char c s = false -> Str.has_char c (Py.drop k s) = false.
Proof.
  revert s. induction k as [|k IH]; intros s Hs; [exact Hs |].
  destruct s as [|x s]; [reflexivity |].
  rewrite has_char_cons in Hs. apply orb_false_iff in Hs. now apply IH.
Qed.

(** What an extension is made of: a dot first, and no slash. *)
Definition is_extension (ext : string) : Prop :=
  (exists t, ext = String "." t) /\ Str.has_char "/" ext = false.

(** [os.path.splitext] gives no extension or one that starts with the
    dot and holds no slash. *)
Lemma splitext_extension (p : string) :
  snd (Path.splitext p) = EmptyString \/ is_extension (snd (Path.splitext p)).
Proof.
  unfold Path.splitext.
  pose proof (rfind_spec "." p) as Hdot.
  destruct (Path.rfind "." p) as [d|]; [| now left].
  destruct Hdot as (t & Hd & _).
  pose proof (rfind_spec "/" p) as Hsep.
  destruct (Path.rfind "/" p) as [si|].
  - destruct (S si <=? d) eqn:Hle; [| now left].
    destruct (existsb _ _); [| now left].
    right. simpl. split; [now exists t |].
    apply Nat.leb_le in Hle. destruct Hsep as (t2 & Hsi & Ht2).
    replace d with (si + (1 + (d - S si))) by lia.
    rewrite <- drop_drop, Hsi, <- drop_drop. simpl Py.drop at 2.
    now apply has_char_drop.
  - destruct (0 <=? d); [| now left].
    destruct (existsb _ _); [| now left].
    right. simpl. split; [now exists t | now apply has_char_drop].
Qed.

Section ImagePaths.
Variable E : Collab.
Variable base_url : string.

Lemma sniff_image_extension (ctype img_url : string) :
  is_extension (fst (sniff_image E ctype img_url)).
Proof.
  unfold sniff_image.
  destruct (Py.contains "png" ctype); [split; [now exists "png" | reflexivity] |].
  destruct (Py.contains "gif" ctype); [split; [now exists "gif" | reflexivity] |].
  destruct (Py.contains "webp" ctype); [split; [now exists "webp" | reflexivity] |].
  destruct (splitext_extension (urlparse_path E img_url)) as [-> | Hext].
  - split; [now exists "jpg" | reflexivity].
  - destruct (Py.truthy (snd (Path.splitext (urlparse_path E img_url))));
      [| split; [now exists "jpg" | reflexivity]].
    destruct (String.eqb _ ".png"); [exact Hext |].
    destruct (String.eqb _ ".gif"); [exact Hext |].
    destruct (String.eqb _ ".webp"); exact Hext.
Qed.

(** The MIME type of an image is one of the four the plugin knows. *)
Lemma sniff_image_mime (ctype img_url : string) :
  In (snd (sniff_image E ctype img_url))
     ["image/png"; "image/gif"; "image/webp"; "image/jpeg"].
Proof.
  unfold sniff_image.
  destruct (Py.contains "png" ctype); [simpl; tauto |].
  destruct (Py.contains "gif" ctype); [simpl; tauto |].
  destruct (Py.contains "webp" ctype); [simpl; tauto |].
  destruct (Py.truthy _); [| simpl; tauto].
  destruct (String.eqb _ ".png"); [simpl; tauto |].
  destruct (String.eqb _ ".gif"); [simpl; tauto |].
  destruct (String.eqb _ ".webp"); simpl; tauto.
Qed.

Lemma digit_char_not_slash (n : nat) :
  Ascii.eqb "/" (Py.digit_char (n mod 10)) = false.
Proof.
  pose proof (Nat.mod_upper_bound n 10) as Hlt.
  destruct (n mod 10) as [|[|[|[|[|[|[|[|[|[|k]]]]]]]]]]; try reflexivity. lia.
Qed.

Lemma str_of_nat_aux_no_slash (fuel n : nat) (acc : string) :
  Str.has_char "/" acc = false ->
  Str.has_char "/" (Py.str_of_nat_aux fuel n acc) = false.
Proof.
  revert n acc. induction fuel as [|fuel IH]; intros n acc Hacc; simpl; [exact Hacc |].
  assert (Str.has_char "/" (String (Py.digit_char (n mod 10)) acc) = false) as Hacc'.
  { now rewrite has_char_cons, digit_char_not_slash. }
  destruct (n <? 10); [exact Hacc' | now apply IH].
Qed.

(** The name an image is saved under has no slash in it. *)
Lemma img_filename_no_slash (idx : nat) (ext : string) :
  is_extension ext ->
  Str.has_char "/" ("img_" ++ Py.str_of_nat idx ++ ext) = false.
Proof.
  intros [_ Hext]. rewrite !has_char_app, Hext.
  unfold Py.str_of_nat. rewrite str_of_nat_aux_no_slash; reflexivity.
Qed.

(** An entry of the image list: a file of the images directory, written. *)
Definition saved_in (dir : string) (d : disk) (entry : string * string) : Prop :=
  exists name, fst entry = Path.join dir name
               /\ Str.has_char "/" name = false
               /\ read_file d (fst entry) <> None.

Definition images_saved (dir : string) (st : state) : Prop :=
  Forall (saved_in dir (files st)) (downloaded_images st).

Lemma saved_in_write dir d path b entry :
  saved_in dir d entry -> saved_in dir (write_file d path b) entry.
Proof.
  intros (name & Hp & Hn & Hr). exists name. repeat split; try assumption.
  unfold write_file. simpl. now destruct (String.eqb path (fst entry)).
Qed.

Lemma img_body_keeps_images_saved dir a st :
  images_saved dir st -> images_saved dir (snd (img_body E base_url dir a st)).
Proof.
  unfold images_saved, img_body. intros Hinv.
  destruct (img_source a) as [ref|]; [| exact Hinv].
  destruct (negb (Py.truthy ref)); [exact Hinv |].
  destruct (urljoin E base_url ref) as [u|]; [| exact Hinv].
  destruct (http_get E u base_url 10) as [resp|]; [| exact Hinv].
  destruct (status resp =? 200); [| exact Hinv].
  pose proof (sniff_image_extension
                match content_type resp with Some t => t | None => "image/jpeg" end u)
    as Hext.
  destruct (sniff_image E _ u) as [ext mime]. cbn [fst] in Hext.
  destruct (file_write E _ (content resp)) as [| | kept]; cbn [snd files downloaded_images].
  - apply Forall_app. split.
    + eapply Forall_impl; [| exact Hinv]. intros entry. apply saved_in_write.
    + constructor; [| constructor].
      exists ("img_" ++ Py.str_of_nat (img_index st) ++ ext). cbn [fst].
      split; [reflexivity |]. split; [now apply img_filename_no_slash |].
      unfold write_file. cbn [read_file]. now rewrite String.eqb_refl.
  - exact Hinv.
  - eapply Forall_impl; [| exact Hinv]. intros entry. apply saved_in_write.
Qed.

Lemma run_bodies_keep_images_saved dir ns st :
  images_saved dir st ->
  images_saved dir (run_bodies (img_body E base_url dir) ns st).
Proof.
  revert st. induction ns as [|n ns IH]; intros st Hinv; [exact Hinv |].
  simpl. apply IH. now apply img_body_keeps_images_saved.
Qed.

(** A state that holds whenever the body has run holds when the loop is
    over or has raised. *)
Lemma mapM_invariant {A B : Type} (f : A -> M B) (P : state -> Prop) (l : list A) :
  Forall (fun x => forall st, P st -> P (snd (f x st))) l ->
  forall st, P st -> P (snd (mapM f l st)).
Proof.
  induction 1 as [|x l Hx _ IH]; intros st Hst; [exact Hst |].
  cbn [mapM]. unfold bind. specialize (Hx st Hst).
  destruct (f x st) as [[y|] st1]; cbn [snd] in Hx; [| exact Hx].
  specialize (IH st1 Hx).
  destruct (mapM f l st1) as [[ys|] st2]; exact IH.
Qed.

Lemma visit_invariant (sel : string -> attrs -> bool) (body : attrs -> M edit)
      (P : state -> Prop) :
  (forall a st, P st -> P (snd (body a st))) ->
  forall n st, P st -> P (snd (visit sel body n st)).
Proof.
  intros Hbody.
  induction n as [t | t | name a cs IH] using node_induction; intros st Hst;
    try exact Hst.
  pose proof (mapM_invariant (visit sel body) P cs IH) as Hcs.
  cbn [visit]. unfold bind. destruct (sel name a).
  - specialize (Hbody a st Hst).
    destruct (body a st) as [[e|] st1]; cbn [snd] in Hbody; [| exact Hbody].
    destruct e as [| a' | n1]; [| | exact Hbody];
      specialize (Hcs st1 Hbody);
      destruct (mapM (visit sel body) cs st1) as [[cs'|] st2]; exact Hcs.
  - specialize (Hcs st Hst).
    destruct (mapM (visit sel body) cs st) as [[cs'|] st2]; exact Hcs.
Qed.

Lemma for_each_invariant (sel : string -> attrs -> bool) (body : attrs -> M edit)
      (P : state -> Prop) :
  (forall a st, P st -> P (snd (body a st))) ->
  forall s st, P st -> P (snd (for_each sel body s st)).
Proof.
  intros Hbody s. apply mapM_invariant.
  apply Forall_forall. intros n _. now apply visit_invariant.
Qed.

(** What holds after every run of the image body holds of the state the
    function ends in, whether its [try] returned or raised. *)
Lemma inline_document_invariant (P : state -> Prop) html page_dir st :
  (forall a st, P st -> P (snd (img_body E base_url (Path.join page_dir "images") a st))) ->
  P st -> P (snd (inline_document E base_url html page_dir st)).
Proof.
  intros Hbody Hst. unfold inline_document, bind, lift.
  destruct (parse E html) as [s|]; [| exact Hst].
  unfold inline_soup, bind.
  pose proof (for_each_invariant (named "img") _ P Hbody s st Hst) as H1.
  destruct (for_each (named "img") _ s st) as [[s1|] st1]; cbn [snd] in H1;
    [| exact H1].
  pose proof (for_each_state is_stylesheet_link (link_body E base_url)
                (fun a st => f_equal snd (link_body_pure E base_url a st)) s1 st1) as H2.
  destruct (for_each is_stylesheet_link _ s1 st1) as [[s2|] st2]; cbn [snd] in H2;
    subst st2; [| exact H1].
  pose proof (for_each_state is_src_script (script_body E base_url)
                (fun a st => f_equal snd (script_body_pure E base_url a st)) s2 st1) as H3.
  destruct (for_each is_src_script _ s2 st1) as [[s3|] st3]; cbn [snd] in H3;
    subst st3; exact H1.
Qed.

(** A file of the images directory, under a name without a slash. *)
Definition in_images_dir (dir : string) (file : string * bytes) : Prop :=
  exists name, fst file = Path.join dir name /\ Str.has_char "/" name = false.

(** The files of [st] are those of [d] and, written since, files of the
    images directory. *)
Definition only_images_written (dir : string) (d : disk) (st : state) : Prop :=
  exists written,
    files st = (written ++ d)%list /\ Forall (in_images_dir dir) written.

Lemma img_body_only_images_written dir d a st :
  only_images_written dir d st ->
  only_images_written dir d (snd (img_body E base_url dir a st)).
Proof.
  unfold only_images_written, img_body. intros Hinv.
  destruct (img_source a) as [ref|]; [| exact Hinv].
  destruct (negb (Py.truthy ref)); [exact Hinv |].
  destruct (urljoin E base_url ref) as [u|]; [| exact Hinv].
  destruct (http_get E u base_url 10) as [resp|]; [| exact Hinv].
  destruct (status resp =? 200); [| exact Hinv].
  pose proof (sniff_image_extension
                match content_type resp with Some t => t | None => "image/jpeg" end u)
    as Hext.
  destruct (sniff_image E _ u) as [ext mime]. cbn [fst] in Hext.
  assert (forall b, in_images_dir dir
                      (Path.join dir ("img_" ++ Py.str_of_nat (img_index st) ++ ext), b))
    as Hfile.
  { intros b. exists ("img_" ++ Py.str_of_nat (img_index st) ++ ext).
    split; [reflexivity | now apply img_filename_no_slash]. }
  destruct Hinv as (written & Hfiles & Hall).
  destruct (file_write E _ (content resp)) as [| | kept]; cbn [snd files].
  - eexists (_ :: written). unfold write_file. rewrite Hfiles.
    split; [reflexivity | constructor; [apply Hfile | exact Hall]].
  - now exists written.
  - eexists (_ :: written). unfold write_file. rewrite Hfiles.
    split; [reflexivity | constructor; [apply Hfile | exact Hall]].
Qed.

(** X5: every image of the returned list is a file of the [images] directory
    of the page, under a name without a slash, and the file is there; and
    whether the function returns the inlined page or falls back, the files
    it leaves are those it found and, before them, files written in the
    [images] directory under names without a slash: whatever the URLs of a
    page are, nothing is written elsewhere. *)
Theorem listed_images_are_saved_in_images_dir
        (html page_dir : string) (d : disk) :
  let r := download_resources_and_update_html E base_url html page_dir d in
  Forall (saved_in (Path.join page_dir "images") (snd r)) (snd (fst r))
  /\ exists written,
      snd r = (written ++ d)%list
      /\ Forall (fun file : string * bytes =>
                   exists name, fst file = Path.join (Path.join page_dir "images") name
                                /\ Str.has_char "/" name = false) written.
Proof.
  cbv zeta. split.
  - destruct (download_resources_and_update_html E base_url html page_dir d)
      as [[out imgs] d'] eqn:Hdl.
    apply download_cases in Hdl.
    destruct Hdl as [(st & _ & [= -> ->] & _) | (s & s' & st & _ & Hrun & _ & -> & ->)];
      [constructor |].
    apply inline_soup_passes in Hrun. destruct Hrun as (s1 & s2 & H1 & _ & _).
    apply for_each_run_bodies in H1.
    + rewrite H1. apply run_bodies_keep_images_saved. constructor.
    + intros a0 sa n1. apply img_body_no_replace.
  - assert (snd (download_resources_and_update_html E base_url html page_dir d)
            = files (snd (inline_document E base_url html page_dir (State d [] 0))))
      as ->.
    { unfold download_resources_and_update_html.
      now destruct (inline_document E base_url html page_dir (State d [] 0))
        as [[r|] st]. }
    apply (inline_document_invariant
             (only_images_written (Path.join page_dir "images") d)).
    + intros a st. apply img_body_only_images_written.
    + now exists [].
Qed.
End ImagePaths.

(** ** A page without resources *)

Section NothingToInline.
Variable sel : string -> attrs -> bool.
Variable body : attrs -> M edit.

Lemma mapM_visit_unselected (cs : list node) :
  Forall (fun n => find_all_in sel n = [] ->
                   forall st, visit sel body n st = (Ok n, st)) cs ->
  flat_map (find_all_in sel) cs = [] ->
  forall st, mapM (visit sel body) cs st = (Ok cs, st).
Proof.
  induction 1 as [|c cs Hc _ IH]; intros Hnone st; [reflexivity |].
  simpl in Hnone. apply app_eq_nil in Hnone. destruct Hnone as [Hc0 Hcs0].
  simpl. unfold bind. now rewrite (Hc Hc0 st), (IH Hcs0 st).
Qed.

Lemma visit_unselected (n : node) :
  find_all_in sel n = [] -> forall st, visit sel body n st = (Ok n, st).
Proof.
  induction n as [t | t | name a cs IH] using node_induction; intros Hnone st;
    try reflexivity.
  simpl in Hnone. apply app_eq_nil in Hnone. destruct Hnone as [Hsel Hcs].
  simpl. destruct (sel name a); [discriminate |].
  unfold bind. now rewrite (mapM_visit_unselected cs IH Hcs st).
Qed.

(** A loop that selects nothing changes nothing. *)
Lemma for_each_unselected (s : soup) :
  find_all sel s = [] -> forall st, for_each sel body s st = (Ok s, st).
Proof.
  intros Hnone. apply mapM_visit_unselected; [| exact Hnone].
  apply Forall_forall. intros n _. apply visit_unselected.
Qed.
End NothingToInline.


Module PlainPage.

Definition page : soup :=
  [Tag "html" [] [Tag "body" [] [Tag "p" [] [Text "no resources here"]]]].

Definition plain : Collab := {|
  parse := fun _ => Ok page;
  serialize := fun s => Py.concat (map Demo.to_html s);
  urljoin := fun _ _ => Raised;
  urlparse_path := fun url => url;
  http_get := fun _ _ _ => Raised;
  file_write := fun _ _ => NotOpened;
  render := fun _ => None
|}.

End PlainPage.


(** ** CSS with nothing to inline *)

Section CssUnchanged.
Variable E : Collab.
Variables css_url referer : string.

Lemma css_ok_not_fails u resp :
  css_fetch_ok E css_url referer u resp -> ~ css_fetch_fails E css_url referer u.
Proof.
  intros (_ & full & Hjoin & Hget & Hst) (_ & Hfail).
  rewrite Hjoin in Hfail.
  destruct Hfail as [Hr | (full' & [= <-] & Hfail)]; [discriminate |].
  rewrite Hget in Hfail.
  destruct Hfail as [Hr | (resp' & [= <-] & Hne)]; [discriminate | congruence].
Qed.

(** X7: where every reference of a stylesheet is a [data:] or absolute http(s)
    URL, or fails to be fetched, the rewriter returns the text it was
    given, character for character. *)
Theorem process_css_urls_unchanged (css : string) :
  (forall m u, In m (Re.finditer url_pattern css) ->
               Re.group1 css m = Some u ->
               Py.startswith_any u ["data:"; "http://"; "https://"] = true
               \/ css_fetch_fails E css_url referer u) ->
  process_css_urls E css css_url referer = css.
Proof.
  intros Hall. rewrite process_css_urls_rebuilds. cbv zeta.
  rewrite (map_ext_in (replacement E css_url referer css) (Re.group0 css)).
  - apply (rebuild_identity css (Re.finditer url_pattern css) 0).
    apply finditer_ordered.
  - intros m Hm.
    destruct (replacement_outcome E css_url referer css m)
      as [u resp Hg Hok | | |]; try reflexivity.
    exfalso. destruct (Hall m u Hm Hg) as [Hskip | Hfail].
    + destruct Hok as ((_ & Hno) & _). congruence.
    + exact (css_ok_not_fails u resp Hok Hfail).
Qed.

(** X8: non-empty CSS comes back non-empty, so the emptiness test after the
    rewriting (line 390) never gives a fetched stylesheet up. *)
Theorem process_css_urls_keeps_css_nonempty (css : string) :
  css <> EmptyString -> process_css_urls E css css_url referer <> EmptyString.
Proof.
  intros Hne. apply truthy_true. apply process_css_urls_truthy.
  now apply truthy_nonempty.
Qed.
End CssUnchanged.

Module AbsoluteCss.

Definition css : string :=
  "a{b:url(https://cdn.test/x.png)} c{d:url('data:image/png;base64,AAAA')}".

End AbsoluteCss.

Lemma absolute_css_is_unchanged :
  process_css_urls Demo.demo AbsoluteCss.css "https://site.test/main.css" "https://site.test/"
  = AbsoluteCss.css.
Proof.
  apply process_css_urls_unchanged.
  intros m u Hm Hg. left.
  assert (Re.finditer url_pattern AbsoluteCss.css
          = [Re.Match 4 31 (Some (8, 30)); Re.Match 37 70 (Some (42, 68))]) as Hms
      by (vm_compute; reflexivity).
  rewrite Hms in Hm.
  destruct Hm as [<- | [<- | []]]; vm_compute in Hg; injection Hg as <-; reflexivity.
Defined.

Lemma demo_css_stays_nonempty :
  process_css_urls Demo.demo Demo.demo_css "https://site.test/main.css" "https://site.test/"
  <> EmptyString.
Proof.
  apply process_css_urls_keeps_css_nonempty. discriminate.
Defined.

(** ** More on the retention sweep *)

Section SweepComposition.
Import Sweep.
Open Scope Z_scope.

Lemma process_child_later (h h' : Z) (c : child) :
  h <= h' -> process_child h c = Ok true -> process_child h' c = Ok true.
Proof.
  intros Hle. unfold process_child.
  destruct (c_kind c); try discriminate;
    (destruct (c_mtime c) as [t|]; [| discriminate]);
    destruct (t <? h) eqn:Hth; try discriminate;
      apply Z.ltb_lt in Hth;
      (replace (t <? h') with true by (symmetry; apply Z.ltb_lt; lia)); auto.
Qed.

(** A sweep followed by a later sweep leaves what the later sweep alone
    leaves; a sweep done twice is a sweep done once. *)
Lemma sweep_children_twice (h h' : Z) (cs : list child) :
  h <= h' ->
  sweep_children h' (sweep_children h cs) = sweep_children h' cs.
Proof.
  intros Hle. induction cs as [|c cs IH]; [reflexivity |].
  simpl. destruct (process_child h c) as [[|]|] eqn:Hc.
  - rewrite (process_child_later h h' c Hle Hc). exact IH.
  - simpl. now rewrite IH.
  - simpl. now rewrite IH.
Qed.

Lemma sweep_cycle_twice (t t' : Z) (d : save_dir) :
  t <= t' -> sweep_cycle t' (sweep_cycle t d) = sweep_cycle t' d.
Proof.
  intros Hle. destruct d as [[cs|]|]; try reflexivity.
  simpl. rewrite sweep_children_twice; [reflexivity | lia].
Qed.

(** X9: as long as nothing else touches the save directory, the turns of the
    loop add up: after [n + 1] turns the directory is what a single cycle
    at the clock reading of the last turn makes of it. *)
Theorem turns_leave_what_the_last_cycle_leaves (n : nat) (k : task) :
  dir (turns (S n) k) = sweep_cycle (clock k + interval * Z.of_nat n) (dir k)
  /\ clock (turns (S n) k) = clock k + interval * Z.of_nat (S n).
Proof.
  split; [| apply clock_turns].
  revert k. induction n as [|n IH]; intros k.
  - simpl. f_equal. lia.
  - change (turns (S (S n)) k) with (turns (S n) (turn k)).
    rewrite IH. unfold turn at 1 2. cbn [clock dir].
    rewrite sweep_cycle_twice by (unfold interval; lia).
    f_equal. lia.
Qed.
End SweepComposition.

(** ** The attributes of inlined tags *)

Lemma attr_get_set_other (a : attrs) (k k' v : string) :
  k' <> k -> attr_get (attr_set a k v) k' = attr_get a k'.
Proof.
  intros Hne. induction a as [|[k0 v0] a IH]; simpl.
  - destruct (String.eqb k k') eqn:Hk; [| reflexivity].
    apply String.eqb_eq in Hk. congruence.
  - destruct (String.eqb k0 k) eqn:Hk0; simpl.
    + apply String.eqb_eq in Hk0. subst k0.
      destruct (String.eqb k k') eqn:Hk; [| reflexivity].
      apply String.eqb_eq in Hk. congruence.
    + now rewrite IH.
Qed.

Lemma attr_get_without_src (a : attrs) (k : string) :
  attr_get (without_src a) k = if String.eqb k "src" then None else attr_get a k.
Proof.
  unfold without_src. induction a as [|[k0 v0] a IH]; simpl.
  - now destruct (String.eqb k "src").
  - destruct (String.eqb k0 "src") eqn:Hk0; simpl.
    + apply String.eqb_eq in Hk0. subst k0. rewrite IH.
      rewrite (String.eqb_sym "src" k). now destruct (String.eqb k "src").
    + rewrite IH. destruct (String.eqb k0 k) eqn:Hk; [| reflexivity].
      apply String.eqb_eq in Hk. subst k0. now rewrite Hk0.
Qed.

Section InlinedAttributes.
Variable E : Collab.
Variable base_url : string.

(** X10: pass 1 changes nothing of an image but its [src]: every other
    attribute, [data-src] and [data-lazy-src] among them, reads as before,
    and [src] reads as a [data:] URI of one of the four image types. *)
Theorem inlined_image_changes_only_src (a a' : attrs) :
  img_edit E base_url a = Ok (SetAttrs a') ->
  (forall k, k <> "src" -> attr_get a' k = attr_get a k)
  /\ exists mime payload,
      attr_get a' "src" = Some ("data:" ++ mime ++ ";base64," ++ payload)
      /\ In mime ["image/png"; "image/gif"; "image/webp"; "image/jpeg"].
Proof.
  unfold img_edit.
  destruct (img_source a) as [ref|]; [| discriminate].
  destruct (negb (Py.truthy ref)); [discriminate |].
  destruct (urljoin E base_url ref) as [u|]; [| discriminate].
  destruct (http_get E u base_url 10) as [resp|]; [| discriminate].
  destruct (status resp =? 200); [| discriminate].
  intros [= <-]. split.
  - intros k Hk. now apply attr_get_set_other.
  - exists (image_mime E resp u), (Base64.b64encode (content resp)).
    split; [apply attr_get_set | apply sniff_image_mime].
Qed.

(** X11: pass 3 replaces a script only by an inline script that holds
    the text of the response to the request for its resolved [src], and that
    has every attribute of the script, with its value, except [src]. *)
Theorem inlined_script_keeps_attributes (a : attrs) (n' : node) :
  script_edit E base_url a = Ok (ReplaceWith n') ->
  exists ref u resp js,
    attr_get a "src" = Some ref
    /\ fetched E base_url ref u resp
    /\ text resp = Ok js
    /\ n' = Tag "script" (without_src a) [Text js]
    /\ forall k, attr_get (without_src a) k
                 = if String.eqb k "src" then None else attr_get a k.
Proof.
  unfold script_edit, script_body.
  destruct (attr_get a "src") as [ref|]; [| discriminate].
  destruct (negb (Py.truthy ref)); [discriminate |].
  destruct (Py.startswith_any ref _); [discriminate |].
  unfold bind, lift.
  destruct (urljoin E base_url ref) as [u|] eqn:Hjoin; [| discriminate].
  destruct (http_get E u base_url 10) as [resp|] eqn:Hget; [| discriminate].
  destruct (status resp =? 200) eqn:Hst; [| discriminate].
  destruct (text resp) as [js|] eqn:Htext; [| discriminate].
  intros [= <-]. exists ref, u, resp, js.
  split; [reflexivity |].
  split; [split; [exact Hjoin | split; [exact Hget | now apply Nat.eqb_eq]] |].
  split; [exact Htext |]. split; [reflexivity |].
  apply attr_get_without_src.
Qed.
End InlinedAttributes.

Lemma inlined_image_example :
  img_edit Demo.demo Demo.site [("src", "logo.png"); ("alt", "logo")]
  = Ok (SetAttrs [("src", "data:image/png;base64,iVBORw=="); ("alt", "logo")])
  /\ attr_get [("src", "data:image/png;base64,iVBORw=="); ("alt", "logo")] "alt"
     = attr_get [("src", "logo.png"); ("alt", "logo")] "alt".
Proof.
  split; [reflexivity |].
  exact (proj1 (inlined_image_changes_only_src Demo.demo Demo.site
                  [("src", "logo.png"); ("alt", "logo")]
                  [("src", "data:image/png;base64,iVBORw=="); ("alt", "logo")]
                  eq_refl) "alt" ltac:(discriminate)).
Defined.

Lemma inlined_script_example :
  script_edit Demo.demo Demo.site [("src", "app.js"); ("defer", "")]
  = Ok (ReplaceWith (Tag "script" [("defer", "")] [Text "run()"]))
  /\ exists ref u resp js,
      attr_get [("src", "app.js"); ("defer", "")] "src" = Some ref
      /\ fetched Demo.demo Demo.site ref u resp
      /\ text resp = Ok js
      /\ Tag "script" [("defer", "")] [Text "run()"]
         = Tag "script" (without_src [("src", "app.js"); ("defer", "")]) [Text js]
      /\ forall k, attr_get (without_src [("src", "app.js"); ("defer", "")]) k
                   = if String.eqb k "src" then None
                     else attr_get [("src", "app.js"); ("defer", "")] k.
Proof.
  split; [reflexivity |].
  exact (inlined_script_keeps_attributes Demo.demo Demo.site
           [("src", "app.js"); ("defer", "")]
           (Tag "script" [("defer", "")] [Text "run()"]) eq_refl).
Defined.

(** ** Validation and the prefix step *)

(** X12: validation looks at the prefixed URL, so it gives a URL and its
    prefixed form the same answer: the check before the prefix step of
    [html_command] holds of the URL that is fetched. *)
Theorem is_valid_url_of_normalized (url : string) :
  is_valid_url (normalize url) = is_valid_url url
  /\ (is_valid_url url = true ->
      has_scheme (normalize url) = true /\ is_valid_url (normalize url) = true).
Proof.
  assert (is_valid_url (normalize url) = is_valid_url url) as Hsame.
  { unfold is_valid_url, is_valid_url_match. cbv zeta.
    unfold normalize at 1. now rewrite has_scheme_normalize. }
  split; [exact Hsame |].
  intros Hvalid. split; [apply has_scheme_normalize | now rewrite Hsame].
Qed.

Lemma is_valid_url_of_normalized_example :
  has_scheme (normalize "example.com/path") = true
  /\ is_valid_url (normalize "example.com/path") = true.
Proof.
  apply (proj2 (is_valid_url_of_normalized "example.com/path")).
  vm_compute. reflexivity.
Defined.

(** ** Short pages *)

Lemma length_string_of_list_ascii (l : list ascii) :
  String.length (string_of_list_ascii l) = List.length l.
Proof. induction l as [|c l IH]; simpl; [reflexivity | now rewrite IH]. Qed.

Lemma join_cons_length (w : string) (ws : list string) :
  String.length (Py.join " " (w :: ws))
  <= String.length w + 1 + String.length (Py.join " " ws).
Proof.
  destruct ws as [|w' ws].
  - simpl. lia.
  - change (Py.join " " (w :: w' :: ws)) with (w ++ " " ++ Py.join " " (w' :: ws)).
    rewrite !length_app. simpl String.length at 2. lia.
Qed.

(** Splitting at white space and joining with single blanks never makes a
    text longer. *)
Lemma split_ws_aux_length (s : string) :
  forall cur,
    String.length (Py.join " " (Py.split_ws_aux cur s))
    <= List.length cur + String.length s.
Proof.
  induction s as [|c s IH]; intros cur.
  - simpl. destruct cur as [|x cur]; [simpl; lia |].
    cbn [Py.join]. rewrite length_string_of_list_ascii, length_rev. lia.
  - cbn [Py.split_ws_aux]. destruct (Py.isspace c).
    + specialize (IH []). simpl List.length in IH.
      destruct cur as [|x cur]; [simpl String.length; lia |].
      etransitivity; [apply join_cons_length |].
      rewrite length_string_of_list_ascii, length_rev. simpl String.length. lia.
    + specialize (IH (c :: cur)). simpl in *. lia.
Qed.

Lemma collapse_length (t : string) : String.length (collapse t) <= String.length t.
Proof. apply (split_ws_aux_length t []). Qed.

(** X13: a page with fewer than 100 characters of text outside its script,
    style and noscript elements is taken for an unrendered one, white space
    counted or not. *)
Theorem short_text_is_flagged (s : soup) :
  String.length (get_text (decompose_all ["script"; "style"; "noscript"] s)) < 100 ->
  is_likely_empty_soup s = true.
Proof.
  intros Hshort. unfold is_likely_empty_soup. cbv zeta.
  pose proof (collapse_length
                (get_text (decompose_all ["script"; "style"; "noscript"] s))) as Hle.
  replace (String.length (collapse _) <? 100) with true; [reflexivity |].
  symmetry. apply Nat.ltb_lt. lia.
Qed.

Lemma short_text_example : is_likely_empty_soup PlainPage.page = true.
Proof.
  apply short_text_is_flagged. vm_compute. lia.
Defined.

(** ** The payload of a data URI *)

From Stdlib Require Import NArith Nnat.

Section BytesInduction.
Variable P : bytes -> Prop.
Hypothesis H0 : P [].
Hypothesis H1 : forall a, P [a].
Hypothesis H2 : forall a b, P [a; b].
Hypothesis H3 : forall a b c l, P l -> P (a :: b :: c :: l).

Fixpoint bytes_by_three (l : bytes) : P l :=
  match l with
  | [] => H0
  | [a] => H1 a
  | [a; b] => H2 a b
  | a :: b :: c :: l' => H3 a b c l' (bytes_by_three l')
  end.
End BytesInduction.

(** The characters of base64 text. *)
Definition is_b64_char (c : ascii) : bool :=
  Re.alnum_i c || Ascii.eqb c "+" || Ascii.eqb c "/" || Ascii.eqb c "=".

Lemma sextet_is_b64 (n : N) : is_b64_char (Base64.sextet n) = true.
Proof.
  unfold Base64.sextet.
  assert (N.to_nat (N.modulo n 64) < 64) as Hlt.
  { rewrite N2Nat.inj_mod. apply Nat.mod_upper_bound. discriminate. }
  assert (forallb (fun k => is_b64_char (nth k Base64.alphabet "A"%char)) (seq 0 64) = true)
    as Hall by (vm_compute; reflexivity).
  rewrite forallb_forall in Hall. apply Hall. apply in_seq.
  split; [apply Nat.le_0_l | exact Hlt].
Qed.

(** The payload of a data URI is made of base64 characters only (no quote,
    no blank, no parenthesis), four for every three bytes begun. *)
Lemma b64encode_shape (bs : bytes) :
  all_chars is_b64_char (Base64.b64encode bs) = true
  /\ String.length (Base64.b64encode bs) = 4 * ((List.length bs + 2) / 3).
Proof.
  induction bs as [| a | a b | a b c l [IHc IHl]] using bytes_by_three.
  - split; reflexivity.
  - split; [| reflexivity].
    cbn [Base64.b64encode all_chars]. now rewrite !sextet_is_b64.
  - split; [| reflexivity].
    cbn [Base64.b64encode all_chars]. now rewrite !sextet_is_b64.
  - split.
    + cbn [Base64.b64encode all_chars]. now rewrite !sextet_is_b64, IHc.
    + cbn [Base64.b64encode String.length List.length]. rewrite IHl.
      replace (S (S (S (List.length l))) + 2) with (List.length l + 2 + 1 * 3) by lia.
      rewrite Nat.div_add by discriminate. lia.
Qed.

(** X14: the number of script elements never changes the answer of the
    heuristic: it is the first rule or the second, the script elements being
    decomposed before they are counted. *)
Theorem script_count_never_matters (s : soup) :
  let s' := decompose_all ["script"; "style"; "noscript"] s in
  List.length (find_all (named "script") s') = 0
  /\ is_likely_empty_soup s
     = ((String.length (collapse (get_text s')) <? 100)
        || match find "body" s' with
           | Some body => String.length (collapse (get_text_of body)) <? 50
           | None => false
           end).
Proof.
  cbv zeta. split.
  - now rewrite no_script_after_decompose.
  - apply is_likely_empty_soup_two_rules.
Qed.

Lemma all_chars_app (q : ascii -> bool) (a b : string) :
  all_chars q (a ++ b) = all_chars q a && all_chars q b.
Proof.
  induction a as [|c a IH]; simpl; [reflexivity |].
  now rewrite IH, andb_assoc.
Qed.

Lemma all_chars_impl (q q' : ascii -> bool) (s : string) :
  (forall c, q c = true -> q' c = true) ->
  all_chars q s = true -> all_chars q' s = true.
Proof.
  intros Himp. induction s as [|c s IH]; simpl; [reflexivity |].
  intros H. apply andb_prop in H. destruct H as [Hc Hs].
  now rewrite (Himp c Hc), (IH Hs).
Qed.

(** The characters of the data URI of an image: those of base64 text and
    the three separators. *)
Definition is_data_uri_char (c : ascii) : bool :=
  is_b64_char c || Ascii.eqb c ":" || Ascii.eqb c ";" || Ascii.eqb c ",".

(** X15: the data URI that pass 1 writes into [src] is [data:], an image
    type, [;base64,] and base64 text: letters, digits and [+/=:;,] only, so
    no quote, blank or angle bracket comes into the attribute with it. *)
Theorem image_data_uri_is_plain (E : Collab) (resp : response) (img_url : string) :
  all_chars is_data_uri_char
            (data_uri (image_mime E resp img_url) (content resp)) = true
  /\ String.length (data_uri (image_mime E resp img_url) (content resp))
     = 5 + String.length (image_mime E resp img_url) + 8
       + 4 * ((List.length (content resp) + 2) / 3).
Proof.
  unfold data_uri. split.
  - rewrite !all_chars_app.
    assert (all_chars is_data_uri_char (image_mime E resp img_url) = true) as ->.
    { unfold image_mime.
      destruct (sniff_image_mime E (image_ctype resp) img_url)
        as [<- | [<- | [<- | [<- | []]]]]; reflexivity. }
    assert (all_chars is_data_uri_char (Base64.b64encode (content resp)) = true) as ->.
    { apply all_chars_impl with (q := is_b64_char).
      - intros c Hc. unfold is_data_uri_char. now rewrite Hc.
      - apply b64encode_shape. }
    reflexivity.
  - rewrite !length_app, (proj2 (b64encode_shape (content resp))). simpl. lia.
Qed.
